(** * cb2utorial: the tutorial pipeline's validation layer, embedded in Rocq

    A shallow embedding of the Go services of the repository
    (services/abstraction_analyzer.go, relationship_analyzer.go,
    chapter_orderer.go, chapter_writer.go, file_writer.go,
    utils/filewalker.go and workflow/tutorial_workflow.go), followed by the
    properties of the validation and emission logic.

    Conventions.
    - A Go [string] is a sequence of bytes: [gostring := list ascii].
    - A Go [int] is a [Z]; [len x] is [Z.of_nat (length x)].
    - A handler returns a [result]: a value, a Go [error], or a run-time
      panic (index out of range).
    - What the program obtains from the outside (the text generator, the YAML
      decoder, the operating system, Unicode case tables) is gathered in the
      [Env] class and left abstract. *)

From Stdlib Require Import ZArith Ascii String.
From stdpp Require Import base option list strings gmap.

Local Open Scope Z_scope.

(** ** Bytes and Go strings *)

Abbreviation gostring := (list ascii).

(** A string literal as a Go string. *)
Definition str (s : string) : gostring := list_ascii_of_string s.

Definition byte_val (c : ascii) : Z := Z.of_N (N_of_ascii c).
Definition byte_of (z : Z) : ascii := ascii_of_N (Z.to_N (z mod 256)).

Definition len {A} (l : list A) : Z := Z.of_nat (length l).

(** [s[i]] for an index known to be in range. *)
Definition byte_at (s : gostring) (i : Z) : Z :=
  byte_val (nth (Z.to_nat i) s Ascii.zero).

(** ** Package unicode/utf8 *)

Module utf8.

Definition RuneError : Z := 0xFFFD.
Definition RuneSelf : Z := 0x80.
Definition MaxRune : Z := 0x10FFFF.
Definition UTFMax : Z := 4.

Definition surrogateMin : Z := 0xD800.
Definition surrogateMax : Z := 0xDFFF.

Definition maskx : Z := 0x3F.
Definition mask2 : Z := 0x1F.
Definition mask3 : Z := 0x0F.
Definition mask4 : Z := 0x07.
Definition tx : Z := 0x80.
Definition t2 : Z := 0xC0.
Definition t3 : Z := 0xE0.
Definition t4 : Z := 0xF0.
Definition locb : Z := 0x80.
Definition hicb : Z := 0xBF.
Definition rune1Max : Z := 0x7F.
Definition rune2Max : Z := 0x7FF.
Definition rune3Max : Z := 0xFFFF.

(** The [first] table of the package, with the accept range of the second
    byte inlined: what a leading byte announces. *)
Inductive lead : Type :=
  | LeadASCII
  | LeadInvalid
  | LeadMulti (size : Z) (lo hi : Z).

Definition first (s0 : Z) : lead :=
  if s0 <? 0x80 then LeadASCII
  else if s0 <? 0xC2 then LeadInvalid
  else if s0 <? 0xE0 then LeadMulti 2 locb hicb
  else if s0 =? 0xE0 then LeadMulti 3 0xA0 hicb
  else if s0 <? 0xED then LeadMulti 3 locb hicb
  else if s0 =? 0xED then LeadMulti 3 locb 0x9F
  else if s0 <? 0xF0 then LeadMulti 3 locb hicb
  else if s0 =? 0xF0 then LeadMulti 4 0x90 hicb
  else if s0 <? 0xF4 then LeadMulti 4 locb hicb
  else if s0 =? 0xF4 then LeadMulti 4 locb 0x8F
  else LeadInvalid.

(** [utf8.DecodeRuneInString]: the first rune of [s] and its width in bytes;
    [(RuneError, 1)] on an invalid or truncated encoding. *)
Definition DecodeRuneInString (s : gostring) : Z * Z :=
  match s with
  | [] => (RuneError, 0)
  | c0 :: _ =>
    let s0 := byte_val c0 in
    match first s0 with
    | LeadASCII => (s0, 1)
    | LeadInvalid => (RuneError, 1)
    | LeadMulti sz lo hi =>
      if len s <? sz then (RuneError, 1)
      else
        let s1 := byte_at s 1 in
        if (s1 <? lo) || (hi <? s1) then (RuneError, 1)
        else if sz <=? 2 then
          (Z.lor (Z.shiftl (Z.land s0 mask2) 6) (Z.land s1 maskx), 2)
        else
          let s2 := byte_at s 2 in
          if (s2 <? locb) || (hicb <? s2) then (RuneError, 1)
          else if sz <=? 3 then
            (Z.lor (Z.lor (Z.shiftl (Z.land s0 mask3) 12)
                          (Z.shiftl (Z.land s1 maskx) 6))
                   (Z.land s2 maskx), 3)
          else
            let s3 := byte_at s 3 in
            if (s3 <? locb) || (hicb <? s3) then (RuneError, 1)
            else
              (Z.lor (Z.lor (Z.lor (Z.shiftl (Z.land s0 mask4) 18)
                                   (Z.shiftl (Z.land s1 maskx) 12))
                            (Z.shiftl (Z.land s2 maskx) 6))
                     (Z.land s3 maskx), 4)
    end
  end.

(** [utf8.RuneStart]: the byte is not a continuation byte. *)
Definition RuneStart (b : Z) : bool := negb (Z.land b 0xC0 =? 0x80).

(** The backward scan of [DecodeLastRuneInString]:
    [for start--; start >= lim; start-- { if RuneStart(s[start]) { break } }],
    entered after the decrement. *)
Fixpoint scan_start (fuel : nat) (s : gostring) (start lim : Z) : Z :=
  match fuel with
  | O => start
  | S fuel' =>
    if start <? lim then start
    else if RuneStart (byte_at s start) then start
    else scan_start fuel' s (start - 1) lim
  end.

(** [utf8.DecodeLastRuneInString]: the last rune of [s] and its width. *)
Definition DecodeLastRuneInString (s : gostring) : Z * Z :=
  let end_ := len s in
  if end_ =? 0 then (RuneError, 0)
  else
    let start := end_ - 1 in
    let r := byte_at s start in
    if r <? RuneSelf then (r, 1)
    else
      let lim := Z.max 0 (end_ - UTFMax) in
      let start := scan_start 5 s (start - 1) lim in
      let start := Z.max 0 start in
      let '(r, size) := DecodeRuneInString (drop (Z.to_nat start) s) in
      if start + size =? end_ then (r, size) else (RuneError, 1).

(** [utf8.AppendRune] on an empty buffer: the UTF-8 encoding of [r]; a rune
    out of range or a surrogate half is encoded as [RuneError]. *)
Definition EncodeRune (r : Z) : gostring :=
  let i := r mod 2 ^ 32 in
  if i <=? rune1Max then [byte_of r]
  else if i <=? rune2Max then
    [byte_of (Z.lor t2 (Z.shiftr r 6)); byte_of (Z.lor tx (Z.land r maskx))]
  else
    let bad := (MaxRune <? i) || ((surrogateMin <=? i) && (i <=? surrogateMax)) in
    let r := if bad then RuneError else r in
    if bad || (i <=? rune3Max) then
      [byte_of (Z.lor t3 (Z.shiftr r 12));
       byte_of (Z.lor tx (Z.land (Z.shiftr r 6) maskx));
       byte_of (Z.lor tx (Z.land r maskx))]
    else
      [byte_of (Z.lor t4 (Z.shiftr r 18));
       byte_of (Z.lor tx (Z.land (Z.shiftr r 12) maskx));
       byte_of (Z.lor tx (Z.land (Z.shiftr r 6) maskx));
       byte_of (Z.lor tx (Z.land r maskx))].

(** [for i, r := range s]: the runes of [s] with the byte offset each starts
    at. [skip] counts the bytes of the current rune still to pass over. *)
Fixpoint range_from (skip : nat) (i : Z) (s : gostring) : list (Z * Z) :=
  match s with
  | [] => []
  | _ :: t =>
    match skip with
    | S k => range_from k (i + 1) t
    | O =>
      let '(r, w) := DecodeRuneInString s in
      (i, r) :: range_from (Z.to_nat (w - 1)) (i + 1) t
    end
  end.

Definition range (s : gostring) : list (Z * Z) := range_from 0 0 s.

End utf8.

(** ** Package unicode *)

Module unicode.

(** [unicode.IsSpace]: the Latin-1 switch, then the White_Space table. *)
Definition IsSpace (r : Z) : bool :=
  if (0 <=? r) && (r <=? 0xFF) then
    (r =? 9) || (r =? 10) || (r =? 11) || (r =? 12) || (r =? 13)
    || (r =? 32) || (r =? 0x85) || (r =? 0xA0)
  else
    (r =? 0x1680) || ((0x2000 <=? r) && (r <=? 0x200A))
    || (r =? 0x2028) || (r =? 0x2029) || (r =? 0x202F)
    || (r =? 0x205F) || (r =? 0x3000).

End unicode.

(** ** Package strings *)

Module strings.

(** [strings.HasPrefix]. *)
Fixpoint HasPrefix (s prefix : gostring) {struct prefix} : bool :=
  match prefix, s with
  | [], _ => true
  | _ :: _, [] => false
  | p :: prefix', c :: s' => bool_decide (c = p) && HasPrefix s' prefix'
  end.

(** [strings.HasSuffix]. *)
Definition HasSuffix (s suffix : gostring) : bool :=
  HasPrefix (rev s) (rev suffix).

(** [strings.TrimPrefix]. *)
Definition TrimPrefix (s prefix : gostring) : gostring :=
  if HasPrefix s prefix then drop (length prefix) s else s.

(** [strings.TrimSuffix]. *)
Definition TrimSuffix (s suffix : gostring) : gostring :=
  if HasSuffix s suffix then take (length s - length suffix)%nat s else s.

(** [strings.Index]: the byte offset of the first occurrence of [substr] in
    [s]; [None] stands for the [-1] of Go. *)
Fixpoint Index (s substr : gostring) : option nat :=
  if HasPrefix s substr then Some O
  else match s with
       | [] => None
       | _ :: s' => S <$> Index s' substr
       end.

(** [strings.Contains]. *)
Definition Contains (s substr : gostring) : bool :=
  bool_decide (is_Some (Index s substr)).

(** The loop of [strings.genSplit] for a non-empty separator: cut at each
    occurrence found by [Index], left to right. [n] bounds the number of
    cuts, as the [Count] computed by Go does. *)
Fixpoint genSplit (n : nat) (s sep : gostring) : list gostring :=
  match n with
  | O => [s]
  | S n' =>
    match Index s sep with
    | None => [s]
    | Some m => take m s :: genSplit n' (drop (m + length sep) s) sep
    end
  end.

(** [strings.Split(s, sep)] for a non-empty [sep], the only use this
    program makes of it. A string of [length s] bytes holds at most
    [length s] separators. *)
Definition Split (s sep : gostring) : list gostring :=
  genSplit (length s) s sep.

(** The loop of [strings.Replace] with [n < 0] for a non-empty [old]. *)
Fixpoint replace_loop (n : nat) (s old new : gostring) : gostring :=
  match n with
  | O => s
  | S n' =>
    match Index s old with
    | None => s
    | Some j => take j s ++ new ++ replace_loop n' (drop (j + length old) s) old new
    end
  end.

(** [strings.ReplaceAll(s, old, new)] for a non-empty [old]. *)
Definition ReplaceAll (s old new : gostring) : gostring :=
  replace_loop (length s) s old new.

(** [strings.Map]: every rune of [s] is replaced by [mapping] of it, and
    dropped when that is negative; an invalid byte is seen as [RuneError]. *)
Definition Map (mapping : Z -> Z) (s : gostring) : gostring :=
  flat_map (fun ir : Z * Z =>
              let r := mapping ir.2 in
              if 0 <=? r then utf8.EncodeRune r else [])
           (utf8.range s).

Definition isUpperByte (c : Z) : bool := (65 <=? c) && (c <=? 90).

(** [strings.ToLower], with [unicode.ToLower] as a parameter: bytewise on an
    ASCII-only string, [Map(unicode.ToLower, s)] otherwise. *)
Definition ToLower (unicode_ToLower : Z -> Z) (s : gostring) : gostring :=
  if forallb (fun c => byte_val c <? utf8.RuneSelf) s then
    map (fun c => if isUpperByte (byte_val c)
                  then byte_of (byte_val c + 32) else c) s
  else Map unicode_ToLower s.

(** [strings.indexFunc]: the offset of the first rune [r] with
    [f r = truth]. *)
Definition indexFunc (s : gostring) (f : Z -> bool) (truth : bool) : option Z :=
  fst <$> find (fun ir : Z * Z => bool_decide (f ir.2 = truth)) (utf8.range s).

(** [strings.lastIndexFunc]: the loop
    [for i := len(s); i > 0; { r, size := DecodeLastRuneInString(s[0:i]); ... }]. *)
Fixpoint lastIndexFunc_loop (fuel : nat) (s : gostring) (i : Z)
    (f : Z -> bool) (truth : bool) : option Z :=
  match fuel with
  | O => None
  | S fuel' =>
    if i <=? 0 then None
    else
      let '(r, size) := utf8.DecodeLastRuneInString (take (Z.to_nat i) s) in
      let i := i - size in
      if bool_decide (f r = truth) then Some i
      else lastIndexFunc_loop fuel' s i f truth
  end.

Definition lastIndexFunc (s : gostring) (f : Z -> bool) (truth : bool) : option Z :=
  lastIndexFunc_loop (S (length s)) s (len s) f truth.

(** [strings.TrimLeftFunc]. *)
Definition TrimLeftFunc (s : gostring) (f : Z -> bool) : gostring :=
  match indexFunc s f false with
  | None => []
  | Some i => drop (Z.to_nat i) s
  end.

(** [strings.TrimRightFunc]. *)
Definition TrimRightFunc (s : gostring) (f : Z -> bool) : gostring :=
  match lastIndexFunc s f false with
  | Some i =>
    if utf8.RuneSelf <=? byte_at s i then
      let '(_, wid) := utf8.DecodeRuneInString (drop (Z.to_nat i) s) in
      take (Z.to_nat (i + wid)) s
    else take (Z.to_nat (i + 1)) s
  | None => []
  end.

(** [strings.TrimFunc]. *)
Definition TrimFunc (s : gostring) (f : Z -> bool) : gostring :=
  TrimRightFunc (TrimLeftFunc s f) f.

(** The [asciiSpace] table. *)
Definition asciiSpace (c : Z) : bool :=
  (c =? 9) || (c =? 10) || (c =? 11) || (c =? 12) || (c =? 13) || (c =? 32).

(** One of the two scanning loops of [strings.TrimSpace]: pass over ASCII
    white space; stop at an ASCII byte that is not white space ([Stop]), or
    give up at the first byte that is not ASCII ([NonASCII]). *)
Inductive scan : Type :=
  | Stop (rest : gostring)
  | NonASCII (rest : gostring).

Fixpoint scan_space (s : gostring) : scan :=
  match s with
  | [] => Stop []
  | c :: t =>
    if utf8.RuneSelf <=? byte_val c then NonASCII s
    else if asciiSpace (byte_val c) then scan_space t
    else Stop s
  end.

(** [strings.TrimSpace]: the ASCII fast path from the left, then from the
    right, each falling back on the Unicode-aware trimming of what is left
    when it meets a byte that is not ASCII. *)
Definition TrimSpace (s : gostring) : gostring :=
  match scan_space s with
  | NonASCII rest => TrimFunc rest unicode.IsSpace
  | Stop rest =>
    match scan_space (rev rest) with
    | NonASCII r => TrimRightFunc (rev r) unicode.IsSpace
    | Stop r => rev r
    end
  end.

(** [strings.Trim(s, cutset)] for a cutset of ASCII bytes, the only use this
    program makes of it: bytes of the cutset are dropped at both ends. *)
Fixpoint trimLeftASCII (s cutset : gostring) : gostring :=
  match s with
  | [] => []
  | c :: t => if bool_decide (c ∈ cutset) then trimLeftASCII t cutset else s
  end.

Definition trimRightASCII (s cutset : gostring) : gostring :=
  rev (trimLeftASCII (rev s) cutset).

Definition Trim (s cutset : gostring) : gostring :=
  trimLeftASCII (trimRightASCII s cutset) cutset.

End strings.

(** ** Package strconv *)

Module strconv.

Definition intMin : Z := - 2 ^ 63.
Definition intMax : Z := 2 ^ 63 - 1.

Definition isDigit (c : ascii) : bool :=
  (48 <=? byte_val c) && (byte_val c <=? 57).

(** The digit loop of [Atoi] and [ParseUint] in base 10:
    [n = n*10 + (ch - '0')], failing on a byte that is not a digit. *)
Fixpoint digits (n : Z) (s : gostring) : option Z :=
  match s with
  | [] => Some n
  | ch :: s' =>
    if isDigit ch then digits (n * 10 + (byte_val ch - 48)) s' else None
  end.

(** [strconv.Atoi]: an optional sign, then one or more decimal digits, the
    value within the range of [int]. [None] stands for the [*NumError]
    (syntax or range) of Go. *)
Definition Atoi (s : gostring) : option Z :=
  let '(neg, ds) :=
    match s with
    | c :: t =>
      if bool_decide (c = "-"%char) then (true, t)
      else if bool_decide (c = "+"%char) then (false, t)
      else (false, s)
    | [] => (false, [])
    end in
  match ds with
  | [] => None
  | _ :: _ =>
    match digits 0 ds with
    | None => None
    | Some un =>
      let n := if neg : bool then - un else un in
      if (intMin <=? n) && (n <=? intMax) then Some n else None
    end
  end.

(** The loop of [formatBits] in base 10: digits are produced from the least
    significant one. *)
Fixpoint formatBits (fuel : nat) (u : Z) (acc : gostring) : gostring :=
  match fuel with
  | O => acc
  | S fuel' =>
    let acc' := byte_of (48 + u mod 10) :: acc in
    if u / 10 =? 0 then acc' else formatBits fuel' (u / 10) acc'
  end.

(** [strconv.Itoa]. *)
Definition Itoa (i : Z) : gostring :=
  if i <? 0 then "-"%char :: formatBits (S (Z.to_nat (Z.log2 (- i)))) (- i) []
  else formatBits (S (Z.to_nat (Z.log2 i))) i [].

End strconv.

(** ** Package fmt *)

Module fmt.

(** An operand of [Sprintf]. *)
Inductive arg : Type :=
  | AStr (s : gostring)
  | AInt (i : Z).

(** How one operand is printed under the verbs this program uses: [%s] of a
    string, [%d] of an int, and [%02d] of an int (zero padded to width 2,
    the sign counted in the width). *)
Definition verb_s (a : arg) : gostring :=
  match a with AStr s => s | AInt i => strconv.Itoa i end.

Definition verb_d (a : arg) : gostring :=
  match a with AInt i => strconv.Itoa i | AStr s => s end.

Definition verb_02d (a : arg) : gostring :=
  match a with
  | AInt i =>
    if (0 <=? i) && (i <? 10) then "0"%char :: strconv.Itoa i
    else strconv.Itoa i
  | AStr s => s
  end.

(** [fmt.Sprintf] for formats made of text and the verbs [%s], [%d] and
    [%02d], each consuming the next operand. [skip] counts the bytes of the
    current verb still to pass over. *)
Fixpoint Sprintf_from (skip : nat) (format : gostring) (args : list arg) : gostring :=
  match format with
  | [] => []
  | c :: rest =>
    match skip with
    | S k => Sprintf_from k rest args
    | O =>
      if bool_decide (c = "%"%char) then
        match args with
        | a :: args' =>
          if strings.HasPrefix rest ["s"%char] then
            verb_s a ++ Sprintf_from 1 rest args'
          else if strings.HasPrefix rest ["d"%char] then
            verb_d a ++ Sprintf_from 1 rest args'
          else if strings.HasPrefix rest ["0"%char; "2"%char; "d"%char] then
            verb_02d a ++ Sprintf_from 3 rest args'
          else c :: Sprintf_from 0 rest args
        | [] => c :: Sprintf_from 0 rest args
        end
      else c :: Sprintf_from 0 rest args
    end
  end.

Definition Sprintf (format : gostring) (args : list arg) : gostring :=
  Sprintf_from 0 format args.

End fmt.

(** ** Errors, panics and results *)

(** One constructor for each [fmt.Errorf] of the program, carrying the
    operands of its format; [External] is an error of a collaborator
    (operating system, network, YAML decoder) with its message. *)
Inductive error : Type :=
  | External (msg : gostring)
  (* llm *)
  | ErrApiKeyNotSet
  | ErrOpenRouterAPI (cause : error)
  | ErrNoResponseChoices
  (* services, shared *)
  | ErrCreateLLMClient (cause : error)
  | ErrLLMCallFailed (cause : error)
  | ErrParseYAML (cause : error) (response : gostring)
  | ErrNoAbstractionsProvided
  (* extractIndex *)
  | NumError (num : gostring)
  | ErrUnexpectedType (type_name : gostring)
  (* FileReader *)
  | ErrRepoPathRequired
  | ErrWalkDirectory (cause : error)
  (* AbstractionAnalyzer *)
  | ErrNoFilesProvided
  | ErrNoAbstractionsIdentified
  | ErrInvalidFileIndex (fileIdx : Z) (name : gostring)
  (* RelationshipAnalyzer *)
  | ErrInvalidFromIndex (i : Z) (cause : error)
  | ErrInvalidToIndex (i : Z) (cause : error)
  | ErrFromOutOfBounds (fromIdx : Z) (i : Z)
  | ErrToOutOfBounds (toIdx : Z) (i : Z)
  (* ChapterOrderer *)
  | ErrExtractIndexAt (i : Z) (cause : error)
  | ErrIndexOutOfBounds (idx : Z) (i : Z)
  | ErrDuplicateIndex (idx : Z)
  | ErrMissingAbstractions (missing : list Z)
  (* ChapterWriter *)
  | ErrAbstractionNameRequired
  (* FileWriter *)
  | ErrOutputDirRequired
  | ErrCreateOutputDir (cause : error)
  | ErrWriteFile (filename : gostring) (cause : error)
  (* TutorialWorkflow *)
  | ErrReadFiles (cause : error)
  | ErrNoFilesFound
  | ErrAnalyzeAbstractions (cause : error)
  | ErrAnalyzeRelationships (cause : error)
  | ErrOrderChapters (cause : error)
  | ErrWriteChapter (number : Z) (cause : error)
  | ErrWriteMarkdownFiles (cause : error).

(** A run-time panic of Go. *)
Inductive panic : Type :=
  | IndexOutOfRange (i : Z) (n : Z)
  | SliceBoundsOutOfRange (i : Z) (capacity : Z).

Inductive result (A : Type) : Type :=
  | Ok (a : A)
  | Err (e : error)
  | Panic (p : panic).

Arguments Ok {A} a.
Arguments Err {A} e.
Arguments Panic {A} p.

(** [l[i]] with the bounds check of Go. *)
Definition index {A} (l : list A) (i : Z) : result A :=
  if (i <? 0) || (len l <=? i) then Panic (IndexOutOfRange i (len l))
  else match l !! Z.to_nat i with
       | Some a => Ok a
       | None => Panic (IndexOutOfRange i (len l))
       end.

(** ** Package types *)

Module types.

Record FileContent : Type := {
  fc_Index : Z;
  fc_Path : gostring;
  fc_Content : gostring
}.

Record Abstraction : Type := {
  abs_Index : Z;
  abs_Name : gostring;
  abs_Description : gostring;
  abs_FileIndices : list Z
}.

Record Relationship : Type := {
  rel_FromIndex : Z;
  rel_ToIndex : Z;
  rel_Label : gostring
}.

Record RelationshipData : Type := {
  rd_Summary : gostring;
  rd_Details : list Relationship
}.

Record ChapterSummary : Type := {
  cs_Name : gostring;
  cs_Summary : gostring
}.

Record WriteChapterOutput : Type := {
  wco_ChapterNumber : Z;
  wco_Title : gostring;
  wco_Content : gostring
}.

Record ReadFilesInput : Type := {
  rfi_RepoPath : gostring;
  rfi_IncludePatterns : list gostring;
  rfi_ExcludePatterns : list gostring;
  rfi_MaxFileSize : Z;
  rfi_MaxFiles : Z
}.

Record ReadFilesOutput : Type := {
  rfo_Files : list FileContent
}.

Record AnalyzeAbstractionsInput : Type := {
  aai_Files : list FileContent;
  aai_ProjectName : gostring;
  aai_MaxAbstractions : Z
}.

Record AnalyzeAbstractionsOutput : Type := {
  aao_Abstractions : list Abstraction
}.

Record AnalyzeRelationshipsInput : Type := {
  ari_Abstractions : list Abstraction;
  ari_Files : list FileContent;
  ari_ProjectName : gostring
}.

Record OrderChaptersInput : Type := {
  oci_Abstractions : list Abstraction;
  oci_Relationships : RelationshipData;
  oci_ProjectName : gostring
}.

Record OrderChaptersOutput : Type := {
  oco_OrderedIndices : list Z
}.

Record WriteChapterInput : Type := {
  wci_Abstraction : Abstraction;
  wci_Files : list FileContent;
  wci_PreviousChapters : list ChapterSummary;
  wci_ProjectName : gostring;
  wci_ChapterNumber : Z
}.

Record WriteMarkdownFilesInput : Type := {
  wmi_OutputDir : gostring;
  wmi_Chapters : list WriteChapterOutput
}.

Record WriteMarkdownFilesOutput : Type := {
  wmo_FilesWritten : list gostring
}.

Record TutorialWorkflowInput : Type := {
  twi_LocalRepoPath : gostring;
  twi_OutputDir : gostring;
  twi_MaxFiles : Z;
  twi_ProjectName : gostring
}.

End types.

(** ** Package utils: the directory walker's interface *)

Module utils_types.

Record FileInfo : Type := {
  fi_RelativePath : gostring;
  fi_Content : gostring
}.

Record WalkDirectoryOptions : Type := {
  wdo_RootPath : gostring;
  wdo_IncludePatterns : list gostring;
  wdo_ExcludePatterns : list gostring;
  wdo_MaxFileSize : Z;
  wdo_MaxFiles : Z
}.

End utils_types.

(** ** What the YAML decoder hands back *)

Module yaml.

(** A YAML scalar or node decoded into an [interface{}]: an [int], a
    [string], or a value of another dynamic type, of which only the name
    ([%T]) is ever used. *)
Inductive value : Type :=
  | VInt (v : Z)
  | VString (v : gostring)
  | VOther (type_name : gostring).

(** [yamlAbstraction] of AnalyzeAbstractions. It has no index field: an
    index written by the generator is dropped by the decoder. *)
Record yamlAbstraction : Type := {
  ya_Name : gostring;
  ya_Description : gostring;
  ya_Files : list Z
}.

(** [yamlRelationship] and [yamlRelationshipData] of AnalyzeRelationships. *)
Record yamlRelationship : Type := {
  yr_From : value;
  yr_To : value;
  yr_Label : gostring
}.

Record yamlRelationshipData : Type := {
  yrd_Summary : gostring;
  yrd_Details : list yamlRelationship
}.

End yaml.

(** ** The environment of a run *)

(** The state the program acts on: the files on disk, by path, and the
    number of requests sent to the text generator so far. *)
Record World : Type := {
  w_files : gmap gostring gostring;
  w_requests : nat
}.

(** The collaborators of the program. The generator may answer the same
    prompt differently from one request to the next: its answer depends on
    the number of the request. *)
Class Env : Type := {
  unicode_ToLower : Z -> Z;
  filepath_Join : gostring -> gostring -> gostring;
  filepath_Base : gostring -> gostring;
  os_Getenv : gostring -> gostring;
  os_MkdirAll : gostring -> option error;
  os_WriteFile : gmap gostring gostring -> gostring -> gostring -> option error;
  utils_WalkDirectory :
    utils_types.WalkDirectoryOptions -> error + list utils_types.FileInfo;
  (** [CreateChatCompletion]: request number, model, system prompt (empty
      when absent), user prompt; the [Content.Text] of each choice. *)
  openrouter_CreateChatCompletion :
    nat -> gostring -> gostring -> gostring -> error + list gostring;
  yaml_Unmarshal_abstractions : gostring -> error + list yaml.yamlAbstraction;
  yaml_Unmarshal_relationships : gostring -> error + yaml.yamlRelationshipData;
  yaml_Unmarshal_indices : gostring -> error + list yaml.value
}.

(** A computation of the program: it reads and updates the world and ends
    in a [result]. *)
Definition M (A : Type) : Type := World -> result A * World.

Definition ret {A} (a : A) : M A := fun w => (Ok a, w).
Definition fail {A} (e : error) : M A := fun w => (Err e, w).
Definition crash {A} (p : panic) : M A := fun w => (Panic p, w).

Definition bind {A B} (m : M A) (k : A -> M B) : M B :=
  fun w =>
    match m w with
    | (Ok a, w') => k a w'
    | (Err e, w') => (Err e, w')
    | (Panic p, w') => (Panic p, w')
    end.

(** A pure [result] as a computation. *)
Definition lift {A} (r : result A) : M A := fun w => (r, w).

(** [if err != nil { return ..., fmt.Errorf(".. %w", err) }]. *)
Definition wrap {A} (f : error -> error) (m : M A) : M A :=
  fun w =>
    match m w with
    | (Err e, w') => (Err (f e), w')
    | other => other
    end.

Notation "x <- m ;; k" := (bind m (fun x => k))
  (at level 100, m at next level, right associativity).
Notation "m ;;; k" := (bind m (fun _ => k))
  (at level 100, right associativity).

(** The same for pure results. *)
Definition rbind {A B} (r : result A) (k : A -> result B) : result B :=
  match r with
  | Ok a => k a
  | Err e => Err e
  | Panic p => Panic p
  end.

Notation "x <-r r ;; k" := (rbind r (fun x => k))
  (at level 100, r at next level, right associativity).

(** ** Text constants *)

Definition nl : gostring := ["010"%char].
Definition dq : gostring := ["034"%char].
Definition fence : gostring := str "```".

(** The lines of a raw string literal, each ended by a newline. *)
Definition unlines (ls : list gostring) : gostring :=
  concat (map (fun l => l ++ nl) ls).

(** ** Package llm *)

Module llm.

Record Client : Type := { model : gostring }.

Section WithEnv.
Context {E : Env}.

(** [llm.NewClient]: the API key must be set; the model has a default. *)
Definition NewClient : result Client :=
  let apiKey := os_Getenv (str "OPENROUTER_API_KEY") in
  if bool_decide (apiKey = []) then Err ErrApiKeyNotSet
  else
    let model := os_Getenv (str "LLM_MODEL") in
    let model := if bool_decide (model = []) then str "openai/gpt-4" else model in
    Ok {| model := model |}.

(** [Client.CallLLM]: one request to the generator; an empty list of
    choices is an error. *)
Definition CallLLM (c : Client) (prompt systemPrompt : gostring) : M gostring :=
  fun w =>
    let w' := {| w_files := w_files w; w_requests := S (w_requests w) |} in
    match openrouter_CreateChatCompletion (w_requests w) (model c) systemPrompt prompt with
    | inl err => (Err (ErrOpenRouterAPI err), w')
    | inr [] => (Err ErrNoResponseChoices, w')
    | inr (text :: _) => (Ok text, w')
    end.

End WithEnv.

End llm.

(** ** Package utils *)

Module utils.

Section WithEnv.
Context {E : Env}.

(** The mapping of [SanitizeFilename]: [a-z] and [0-9] are kept, any other
    rune becomes ['_']. *)
Definition sanitize_rune (r : Z) : Z :=
  if ((97 <=? r) && (r <=? 122)) || ((48 <=? r) && (r <=? 57)) then r else 95.

(** [for strings.Contains(name, "__") { name = strings.ReplaceAll(name, "__", "_") }]:
    each round shortens [name], so [length name] rounds are enough. *)
Fixpoint collapse_loop (fuel : nat) (name : gostring) : gostring :=
  match fuel with
  | O => name
  | S fuel' =>
    if strings.Contains name (str "__")
    then collapse_loop fuel' (strings.ReplaceAll name (str "__") (str "_"))
    else name
  end.

(** [utils.SanitizeFilename]. *)
Definition SanitizeFilename (name : gostring) : gostring :=
  let name := strings.ToLower unicode_ToLower name in
  let name := strings.Map sanitize_rune name in
  let name := collapse_loop (length name) name in
  strings.Trim name (str "_").

End WithEnv.

End utils.

(** ** Package services *)

Module services.

(** *** Prompt formats (the raw string literals of the handlers) *)

Definition WriteChapter_format : gostring :=
  unlines
    [ str "You are writing a tutorial chapter for the " ++ dq ++ str "%s" ++ dq ++ str " project.";
      [];
      str "TARGET AUDIENCE: Developers new to this codebase who want to understand it quickly.";
      [];
      str "ABSTRACTION TO EXPLAIN:";
      str "Name: %s";
      str "Description: %s";
      [];
      str "%s";
      [];
      str "%s";
      [];
      str "Your task: Write a comprehensive, beginner-friendly tutorial chapter explaining this abstraction.";
      [];
      str "REQUIREMENTS:";
      str "1. Use clear, simple language";
      str "2. Include code examples from the provided files";
      str "3. Use analogies or real-world examples where helpful";
      str "4. Explain WHY this abstraction exists, not just WHAT it does";
      str "5. Break down complex concepts into digestible parts";
      str "6. Format as markdown";
      [];
      str "STRUCTURE YOUR CHAPTER:";
      str "# %s";
      [];
      str "[Brief introduction - what is this and why does it matter?]";
      [];
      str "## What It Does";
      [];
      str "[Clear explanation of the abstraction's purpose]";
      [];
      str "## Key Code";
      [];
      str "[Show relevant code snippets with explanations]";
      [];
      str "## How It Works";
      [];
      str "[Step-by-step explanation of the implementation]";
      [];
      str "## Key Takeaways";
      [];
      str "- [Important point 1]";
      str "- [Important point 2]";
      str "- [Important point 3]";
      [];
      str "OUTPUT: Return ONLY the markdown content, no meta-commentary." ].

Definition AnalyzeRelationships_format : gostring :=
  unlines
    [ str "You are analyzing relationships in the " ++ dq ++ str "%s" ++ dq ++ str " project.";
      [];
      str "ABSTRACTIONS:";
      str "%s";
      [];
      str "CODE CONTEXT:";
      str "%s";
      [];
      str "Your tasks:";
      str "1. Write a high-level project summary (2-3 sentences)";
      str "2. Describe how these abstractions relate to each other";
      [];
      str "For relationships, specify:";
      str "- from: Source abstraction INDEX (number)";
      str "- to: Target abstraction INDEX (number)  ";
      str "- label: Brief description of relationship (e.g., " ++ dq ++ str "uses" ++ dq ++ str ", " ++ dq ++ str "extends" ++ dq ++ str ", " ++ dq ++ str "orchestrates" ++ dq ++ str ")";
      [];
      str "Output YAML format:";
      dq ++ dq ++ dq ++ str "yaml";
      str "summary: " ++ dq ++ str "High-level description of what this project does" ++ dq;
      str "details:";
      str "  - from: 0";
      str "    to: 1";
      str "    label: " ++ dq ++ str "uses" ++ dq;
      str "  - from: 2";
      str "    to: 0";
      str "    label: " ++ dq ++ str "orchestrates" ++ dq;
      dq ++ dq ++ dq;
      [];
      str "Return ONLY the YAML, no other text." ].

Definition AnalyzeAbstractions_format : gostring :=
  unlines
    [ str "You are analyzing the codebase for project " ++ dq ++ str "%s" ++ dq ++ str ".";
      [];
      str "FILES:";
      str "%s";
      [];
      str "FILE LISTING (for reference):";
      str "%s";
      [];
      str "Your task: Identify the 5-10 core abstractions/concepts in this codebase.";
      [];
      str "For each abstraction, provide:";
      str "- name: A clear, concise name";
      str "- description: Beginner-friendly explanation (1-2 sentences)";
      str "- files: List of file INDICES (numbers only) related to this abstraction";
      [];
      str "Output YAML format:";
      dq ++ dq ++ dq ++ str "yaml";
      str "- name: " ++ dq ++ str "CoreAbstraction" ++ dq;
      str "  description: " ++ dq ++ str "What this abstraction represents and why it matters" ++ dq;
      str "  files: [0, 3, 5]";
      str "- name: " ++ dq ++ str "AnotherConcept" ++ dq;
      str "  description: " ++ dq ++ str "Another key concept" ++ dq;
      str "  files: [1, 2]";
      dq ++ dq ++ dq;
      [];
      str "Focus on the most important abstractions that a newcomer should understand.";
      str "Return ONLY the YAML, no other text." ].

Definition OrderChapters_format : gostring :=
  unlines
    [ str "You are creating a tutorial for the " ++ dq ++ str "%s" ++ dq ++ str " project.";
      [];
      str "ABSTRACTIONS:";
      str "%s";
      [];
      str "CONTEXT:";
      str "%s";
      [];
      str "Your task: Determine the best order to explain these abstractions to a beginner.";
      [];
      str "Teaching strategy:";
      str "- Start with foundational concepts or user-facing entry points";
      str "- Progress to implementation details";
      str "- Ensure dependencies are explained before they're used";
      str "- Make it pedagogically sound";
      [];
      str "Return a YAML list of abstraction INDICES in teaching order.";
      str "Each entry should be: " ++ dq ++ str "index # Name" ++ dq ++ str " for clarity.";
      [];
      str "Example output:";
      dq ++ dq ++ dq ++ str "yaml";
      str "- 2 # EntryPoint";
      str "- 0 # Foundation  ";
      str "- 1 # Implementation";
      dq ++ dq ++ dq;
      [];
      str "IMPORTANT: Include ALL abstractions exactly once.";
      str "Return ONLY the YAML list, no other text." ].

Section WithEnv.
Context {E : Env}.

(** [func (e error) T]: a Go [(T, error)] pair as a [result]. *)
Definition of_sum {A} (r : error + A) : result A :=
  match r with inl e => Err e | inr a => Ok a end.

(** *** extractIndex *)

Definition atoi (s : gostring) : result Z :=
  match strconv.Atoi s with
  | Some n => Ok n
  | None => Err (NumError s)
  end.

(** [extractIndex] handles both int and "0 # Name" formats. *)
Definition extractIndex (value : yaml.value) : result Z :=
  match value with
  | yaml.VInt v => Ok v
  | yaml.VString v =>
    if strings.Contains v (str "#") then
      parts0 <-r index (strings.Split v (str "#")) 0 ;;
      atoi (strings.TrimSpace parts0)
    else atoi (strings.TrimSpace v)
  | yaml.VOther type_name => Err (ErrUnexpectedType type_name)
  end.

(** *** The block [// Extract YAML block] shared by the three analyzers *)

Definition yamlContent (response : gostring) : result gostring :=
  if strings.Contains response (str "```yaml") then
    let parts := strings.Split response (str "```yaml") in
    if 1 <? len parts then
      parts1 <-r index parts 1 ;;
      index (strings.Split parts1 fence) 0
    else Ok response
  else if strings.Contains response fence then
    let parts := strings.Split response fence in
    if 1 <? len parts then index parts 1 else Ok response
  else Ok response.

(** The system instruction of each handler. *)
Definition AnalyzeAbstractions_system : gostring :=
  str "You are a code analysis expert helping developers understand unfamiliar codebases.".
Definition AnalyzeRelationships_system : gostring :=
  str "You are a software architecture analyst.".
Definition OrderChapters_system : gostring :=
  str "You are an expert technical educator.".
Definition WriteChapter_system : gostring :=
  str "You are an expert technical educator who excels at explaining complex code in simple terms.".

(** The two calls every analyzer makes to obtain the generator's answer. *)
Definition ask (prompt systemPrompt : gostring) : M gostring :=
  client <- wrap ErrCreateLLMClient (lift llm.NewClient) ;;
  wrap ErrLLMCallFailed (llm.CallLLM client prompt systemPrompt).

(** *** AbstractionAnalyzer.AnalyzeAbstractions *)

Definition AnalyzeAbstractions_prompt (input : types.AnalyzeAbstractionsInput) : gostring :=
  let context :=
    concat (map (fun file =>
      fmt.Sprintf (str "--- File Index %d: %s ---" ++ nl)
        [fmt.AInt (types.fc_Index file); fmt.AStr (types.fc_Path file)]
      ++ (let content := types.fc_Content file in
          if 5000 <? len content
          then take (Z.to_nat 5000) content ++ nl ++ str "... (truncated)"
          else content)
      ++ nl ++ nl) (types.aai_Files input)) in
  let fileList :=
    concat (map (fun file =>
      fmt.Sprintf (str "- %d # %s" ++ nl)
        [fmt.AInt (types.fc_Index file); fmt.AStr (types.fc_Path file)])
      (types.aai_Files input)) in
  fmt.Sprintf AnalyzeAbstractions_format
    [fmt.AStr (types.aai_ProjectName input); fmt.AStr context; fmt.AStr fileList].

(** The loop [for i, ya := range yamlAbstractions]: every file index is
    checked, then the abstraction is stored with [Index: i]. *)
Fixpoint convert_abstractions (nfiles : Z) (i : Z)
    (yamlAbstractions : list yaml.yamlAbstraction) : result (list types.Abstraction) :=
  match yamlAbstractions with
  | [] => Ok []
  | ya :: rest =>
    match find (fun fileIdx => (fileIdx <? 0) || (nfiles <=? fileIdx)) (yaml.ya_Files ya) with
    | Some fileIdx => Err (ErrInvalidFileIndex fileIdx (yaml.ya_Name ya))
    | None =>
      abstractions <-r convert_abstractions nfiles (i + 1) rest ;;
      Ok ({| types.abs_Index := i;
             types.abs_Name := yaml.ya_Name ya;
             types.abs_Description := yaml.ya_Description ya;
             types.abs_FileIndices := yaml.ya_Files ya |} :: abstractions)
    end
  end.

(** [// Validate and convert to output format]: the part of the handler
    that follows the decoding of the answer. *)
Definition validate_abstractions (input : types.AnalyzeAbstractionsInput)
    (yamlAbstractions : list yaml.yamlAbstraction) : result types.AnalyzeAbstractionsOutput :=
  if len yamlAbstractions =? 0 then Err ErrNoAbstractionsIdentified
  else
    yamlAbstractions <-r
      (if types.aai_MaxAbstractions input <? len yamlAbstractions then
         if types.aai_MaxAbstractions input <? 0
         then Panic (SliceBoundsOutOfRange (types.aai_MaxAbstractions input) (len yamlAbstractions))
         else Ok (take (Z.to_nat (types.aai_MaxAbstractions input)) yamlAbstractions)
       else Ok yamlAbstractions) ;;
    abstractions <-r convert_abstractions (len (types.aai_Files input)) 0 yamlAbstractions ;;
    Ok {| types.aao_Abstractions := abstractions |}.

(** What the handler does with the generator's answer. *)
Definition abstractions_of_response (input : types.AnalyzeAbstractionsInput)
    (response : gostring) : result types.AnalyzeAbstractionsOutput :=
  content <-r yamlContent response ;;
  match yaml_Unmarshal_abstractions content with
  | inl err => Err (ErrParseYAML err response)
  | inr yamlAbstractions => validate_abstractions input yamlAbstractions
  end.

Definition AnalyzeAbstractions (input : types.AnalyzeAbstractionsInput)
    : M types.AnalyzeAbstractionsOutput :=
  if len (types.aai_Files input) =? 0 then fail ErrNoFilesProvided
  else
    response <- ask (AnalyzeAbstractions_prompt input) AnalyzeAbstractions_system ;;
    lift (abstractions_of_response input response).

(** *** RelationshipAnalyzer.AnalyzeRelationships *)

(** The abstraction listing, also built by OrderChapters. *)
Definition abstractionList (abstractions : list types.Abstraction) : gostring :=
  concat (map (fun abs =>
    fmt.Sprintf (str "- %d # %s: %s" ++ nl)
      [fmt.AInt (types.abs_Index abs); fmt.AStr (types.abs_Name abs);
       fmt.AStr (types.abs_Description abs)]) abstractions).

(** The loop [for _, fileIdx := range abs.FileIndices] of
    AnalyzeRelationships: an index past the end is passed over; any other
    index is used to read [input.Files]. *)
Fixpoint relatedFiles (files : list types.FileContent) (fileIndices : list Z)
    : result gostring :=
  match fileIndices with
  | [] => Ok []
  | fileIdx :: rest =>
    if fileIdx <? len files then
      file <-r index files fileIdx ;;
      let sample := types.fc_Content file in
      let sample := if 500 <? len sample then take (Z.to_nat 500) sample ++ str "..." else sample in
      more <-r relatedFiles files rest ;;
      Ok (fmt.Sprintf (str "  File %d (%s):" ++ nl ++ str "%s" ++ nl ++ nl)
            [fmt.AInt fileIdx; fmt.AStr (types.fc_Path file); fmt.AStr sample]
          ++ more)
    else relatedFiles files rest
  end.

(** [// Build code context for each abstraction (sample only)]. *)
Fixpoint codeContext (files : list types.FileContent)
    (abstractions : list types.Abstraction) : result gostring :=
  match abstractions with
  | [] => Ok []
  | abs :: rest =>
    related <-r relatedFiles files (types.abs_FileIndices abs) ;;
    more <-r codeContext files rest ;;
    Ok (fmt.Sprintf (nl ++ str "### Abstraction %d: %s" ++ nl)
          [fmt.AInt (types.abs_Index abs); fmt.AStr (types.abs_Name abs)]
        ++ str "Related files:" ++ nl ++ related ++ more)
  end.

Definition AnalyzeRelationships_prompt (input : types.AnalyzeRelationshipsInput)
    : result gostring :=
  context <-r codeContext (types.ari_Files input) (types.ari_Abstractions input) ;;
  Ok (fmt.Sprintf AnalyzeRelationships_format
        [fmt.AStr (types.ari_ProjectName input);
         fmt.AStr (abstractionList (types.ari_Abstractions input));
         fmt.AStr context]).

(** The loop [for i, yr := range yamlData.Details]: both ends are resolved
    and checked against the number of abstractions, in this order. *)
Fixpoint convert_relationships (n : Z) (i : Z) (details : list yaml.yamlRelationship)
    : result (list types.Relationship) :=
  match details with
  | [] => Ok []
  | yr :: rest =>
    match extractIndex (yaml.yr_From yr) with
    | Err err => Err (ErrInvalidFromIndex i err)
    | Panic p => Panic p
    | Ok fromIdx =>
      match extractIndex (yaml.yr_To yr) with
      | Err err => Err (ErrInvalidToIndex i err)
      | Panic p => Panic p
      | Ok toIdx =>
        if (fromIdx <? 0) || (n <=? fromIdx) then Err (ErrFromOutOfBounds fromIdx i)
        else if (toIdx <? 0) || (n <=? toIdx) then Err (ErrToOutOfBounds toIdx i)
        else
          relationships <-r convert_relationships n (i + 1) rest ;;
          Ok ({| types.rel_FromIndex := fromIdx;
                 types.rel_ToIndex := toIdx;
                 types.rel_Label := yaml.yr_Label yr |} :: relationships)
      end
    end
  end.

(** [// Convert to output format]: the part of the handler that follows the
    decoding of the answer. *)
Definition validate_relationships (input : types.AnalyzeRelationshipsInput)
    (yamlData : yaml.yamlRelationshipData) : result types.RelationshipData :=
  relationships <-r
    convert_relationships (len (types.ari_Abstractions input)) 0 (yaml.yrd_Details yamlData) ;;
  Ok {| types.rd_Summary := yaml.yrd_Summary yamlData;
        types.rd_Details := relationships |}.

Definition relationships_of_response (input : types.AnalyzeRelationshipsInput)
    (response : gostring) : result types.RelationshipData :=
  content <-r yamlContent response ;;
  match yaml_Unmarshal_relationships content with
  | inl err => Err (ErrParseYAML err response)
  | inr yamlData => validate_relationships input yamlData
  end.

Definition AnalyzeRelationships (input : types.AnalyzeRelationshipsInput)
    : M types.RelationshipData :=
  if len (types.ari_Abstractions input) =? 0 then fail ErrNoAbstractionsProvided
  else
    prompt <- lift (AnalyzeRelationships_prompt input) ;;
    response <- ask prompt AnalyzeRelationships_system ;;
    lift (relationships_of_response input response).

(** *** ChapterOrderer.OrderChapters *)

(** [// Build relationship context]: both ends of every relationship are
    used to read [input.Abstractions]. *)
Fixpoint relationshipLines (abstractions : list types.Abstraction)
    (details : list types.Relationship) : result gostring :=
  match details with
  | [] => Ok []
  | rel :: rest =>
    from <-r index abstractions (types.rel_FromIndex rel) ;;
    to <-r index abstractions (types.rel_ToIndex rel) ;;
    more <-r relationshipLines abstractions rest ;;
    Ok (fmt.Sprintf
          (str "- %d (%s) " ++ [byte_of 0xE2; byte_of 0x86; byte_of 0x92]
           ++ str " %d (%s): %s" ++ nl)
          [fmt.AInt (types.rel_FromIndex rel); fmt.AStr (types.abs_Name from);
           fmt.AInt (types.rel_ToIndex rel); fmt.AStr (types.abs_Name to);
           fmt.AStr (types.rel_Label rel)]
        ++ more)
  end.

Definition OrderChapters_prompt (input : types.OrderChaptersInput) : result gostring :=
  lines <-r relationshipLines (types.oci_Abstractions input)
              (types.rd_Details (types.oci_Relationships input)) ;;
  let relationshipContext :=
    fmt.Sprintf (str "Project Summary: %s" ++ nl ++ nl)
      [fmt.AStr (types.rd_Summary (types.oci_Relationships input))]
    ++ str "Relationships:" ++ nl ++ lines in
  Ok (fmt.Sprintf OrderChapters_format
        [fmt.AStr (types.oci_ProjectName input);
         fmt.AStr (abstractionList (types.oci_Abstractions input));
         fmt.AStr relationshipContext]).

(** The loop [for i, val := range yamlIndices]: resolve, check the bounds,
    check [seen], record. It returns the indices stored in
    [orderedIndices] and the final [seen]. *)
Fixpoint order_loop (n : Z) (i : Z) (seen : gset Z) (yamlIndices : list yaml.value)
    : result (list Z * gset Z) :=
  match yamlIndices with
  | [] => Ok ([], seen)
  | val :: rest =>
    match extractIndex val with
    | Err err => Err (ErrExtractIndexAt i err)
    | Panic p => Panic p
    | Ok idx =>
      if (idx <? 0) || (n <=? idx) then Err (ErrIndexOutOfBounds idx i)
      else if bool_decide (idx ∈ seen) then Err (ErrDuplicateIndex idx)
      else
        more <-r order_loop n (i + 1) ({[idx]} ∪ seen) rest ;;
        Ok (idx :: more.1, more.2)
    end
  end.

(** [for i := 0; i < len(input.Abstractions); i++ { if !seen[i] { ... } }]. *)
Definition missing_indices (n : Z) (seen : gset Z) : list Z :=
  filter (fun i => i ∉ seen) (seqZ 0 n).

(** [// Convert to integer indices] and [// Verify all abstractions are
    included]: the part of the handler that follows the decoding. *)
Definition validate_order (input : types.OrderChaptersInput)
    (yamlIndices : list yaml.value) : result types.OrderChaptersOutput :=
  let n := len (types.oci_Abstractions input) in
  loop <-r order_loop n 0 ∅ yamlIndices ;;
  let orderedIndices := loop.1 in
  let seen := loop.2 in
  if bool_decide (len orderedIndices ≠ n)
  then Err (ErrMissingAbstractions (missing_indices n seen))
  else Ok {| types.oco_OrderedIndices := orderedIndices |}.

Definition order_of_response (input : types.OrderChaptersInput)
    (response : gostring) : result types.OrderChaptersOutput :=
  content <-r yamlContent response ;;
  match yaml_Unmarshal_indices content with
  | inl err => Err (ErrParseYAML err response)
  | inr yamlIndices => validate_order input yamlIndices
  end.

Definition OrderChapters (input : types.OrderChaptersInput)
    : M types.OrderChaptersOutput :=
  if len (types.oci_Abstractions input) =? 0 then fail ErrNoAbstractionsProvided
  else
    prompt <- lift (OrderChapters_prompt input) ;;
    response <- ask prompt OrderChapters_system ;;
    lift (order_of_response input response).

(** *** ChapterWriter.WriteChapter *)

(** [// Build context of related files]: an index past the end is skipped
    ([continue]); any other index is used to read [input.Files]. *)
Fixpoint fileContext (files : list types.FileContent) (fileIndices : list Z)
    : result gostring :=
  match fileIndices with
  | [] => Ok []
  | fileIdx :: rest =>
    if len files <=? fileIdx then fileContext files rest
    else
      file <-r index files fileIdx ;;
      let content := types.fc_Content file in
      let content :=
        if 8000 <? len content
        then take (Z.to_nat 8000) content ++ nl ++ str "... (truncated for brevity)"
        else content in
      more <-r fileContext files rest ;;
      Ok (fmt.Sprintf (str "### File: %s" ++ nl) [fmt.AStr (types.fc_Path file)]
          ++ fence ++ nl ++ content ++ nl ++ fence ++ nl ++ nl ++ more)
  end.

(** [// Build context of previous chapters]. *)
Definition previousChaptersContext (previousChapters : list types.ChapterSummary)
    : gostring :=
  if 0 <? len previousChapters then
    nl ++ nl ++ str "PREVIOUSLY COVERED CONCEPTS (for reference, don't repeat):" ++ nl
    ++ concat (map (fun prev =>
         fmt.Sprintf (str "- %s: %s" ++ nl)
           [fmt.AStr (types.cs_Name prev); fmt.AStr (types.cs_Summary prev)])
         previousChapters)
  else [].

Definition WriteChapter_prompt (input : types.WriteChapterInput) : result gostring :=
  files <-r fileContext (types.wci_Files input)
              (types.abs_FileIndices (types.wci_Abstraction input)) ;;
  Ok (fmt.Sprintf WriteChapter_format
        [fmt.AStr (types.wci_ProjectName input);
         fmt.AStr (types.abs_Name (types.wci_Abstraction input));
         fmt.AStr (types.abs_Description (types.wci_Abstraction input));
         fmt.AStr (str "Related code files:" ++ nl ++ nl ++ files);
         fmt.AStr (previousChaptersContext (types.wci_PreviousChapters input));
         fmt.AStr (types.abs_Name (types.wci_Abstraction input))]).

(** [// Clean up response]: a fence wrapped around the answer is removed. *)
Definition cleanup_response (response : gostring) : gostring :=
  let content := strings.TrimSpace response in
  if strings.HasPrefix content (str "```markdown") then
    strings.TrimSpace
      (strings.TrimSuffix (strings.TrimPrefix content (str "```markdown")) fence)
  else if strings.HasPrefix content fence then
    strings.TrimSpace (strings.TrimSuffix (strings.TrimPrefix content fence) fence)
  else content.

Definition WriteChapter (input : types.WriteChapterInput) : M types.WriteChapterOutput :=
  if bool_decide (types.abs_Name (types.wci_Abstraction input) = [])
  then fail ErrAbstractionNameRequired
  else
    prompt <- lift (WriteChapter_prompt input) ;;
    response <- ask prompt WriteChapter_system ;;
    ret {| types.wco_ChapterNumber := types.wci_ChapterNumber input;
           types.wco_Title := types.abs_Name (types.wci_Abstraction input);
           types.wco_Content := cleanup_response response |}.

(** *** FileWriter.WriteMarkdownFiles *)

(** The name of a chapter's file. *)
Definition chapter_filename (chapter : types.WriteChapterOutput) : gostring :=
  fmt.Sprintf (str "%02d_%s.md")
    [fmt.AInt (types.wco_ChapterNumber chapter);
     fmt.AStr (utils.SanitizeFilename (types.wco_Title chapter))].

(** [os.WriteFile]: the file is created or replaced, unless the operating
    system refuses. *)
Definition WriteFile (filePath content : gostring) : M unit :=
  fun w =>
    match os_WriteFile (w_files w) filePath content with
    | Some err => (Err err, w)
    | None =>
      (Ok tt, {| w_files := <[filePath := content]> (w_files w);
                 w_requests := w_requests w |})
    end.

(** The loop [for _, chapter := range input.Chapters]: it returns at the
    first write that fails. *)
Fixpoint write_chapters (outputDir : gostring) (chapters : list types.WriteChapterOutput)
    : M (list gostring) :=
  match chapters with
  | [] => ret []
  | chapter :: rest =>
    let filename := chapter_filename chapter in
    let filePath := filepath_Join outputDir filename in
    wrap (ErrWriteFile filename) (WriteFile filePath (types.wco_Content chapter)) ;;;
    filesWritten <- write_chapters outputDir rest ;;
    ret (filePath :: filesWritten)
  end.

Definition WriteMarkdownFiles (input : types.WriteMarkdownFilesInput)
    : M types.WriteMarkdownFilesOutput :=
  if bool_decide (types.wmi_OutputDir input = []) then fail ErrOutputDirRequired
  else
    match os_MkdirAll (types.wmi_OutputDir input) with
    | Some err => fail (ErrCreateOutputDir err)
    | None =>
      filesWritten <- write_chapters (types.wmi_OutputDir input) (types.wmi_Chapters input) ;;
      ret {| types.wmo_FilesWritten := filesWritten |}
    end.

(** *** FileReader.ReadFiles *)

(** [// Convert to indexed FileContent list]. *)
Fixpoint indexed_files (i : Z) (fileInfos : list utils_types.FileInfo)
    : list types.FileContent :=
  match fileInfos with
  | [] => []
  | info :: rest =>
    {| types.fc_Index := i;
       types.fc_Path := utils_types.fi_RelativePath info;
       types.fc_Content := utils_types.fi_Content info |}
    :: indexed_files (i + 1) rest
  end.

Definition ReadFiles (input : types.ReadFilesInput) : M types.ReadFilesOutput :=
  if bool_decide (types.rfi_RepoPath input = []) then fail ErrRepoPathRequired
  else
    match utils_WalkDirectory
            {| utils_types.wdo_RootPath := types.rfi_RepoPath input;
               utils_types.wdo_IncludePatterns := types.rfi_IncludePatterns input;
               utils_types.wdo_ExcludePatterns := types.rfi_ExcludePatterns input;
               utils_types.wdo_MaxFileSize := types.rfi_MaxFileSize input;
               utils_types.wdo_MaxFiles := types.rfi_MaxFiles input |} with
    | inl err => fail (ErrWalkDirectory err)
    | inr fileInfos => ret {| types.rfo_Files := indexed_files 0 fileInfos |}
    end.

End WithEnv.

End services.

(** ** Package workflow *)

Module workflow.

Section WithEnv.
Context {E : Env}.

(** [// Add to previous chapters context (summary = first 200 chars)]. *)
Definition chapter_summary (chapterOutput : types.WriteChapterOutput)
    : types.ChapterSummary :=
  let summary := types.wco_Content chapterOutput in
  let summary := if 200 <? len summary then take (Z.to_nat 200) summary ++ str "..." else summary in
  let summary := strings.ReplaceAll summary (str "#") [] in
  let summary := strings.TrimSpace summary in
  {| types.cs_Name := types.wco_Title chapterOutput; types.cs_Summary := summary |}.

(** Step 5, the loop [for i, absIndex := range orderOutput.OrderedIndices]:
    the chapters are written one after the other, each one given the
    summaries of those before it. *)
Fixpoint write_loop (files : list types.FileContent)
    (abstractions : list types.Abstraction) (projectName : gostring)
    (i : Z) (previousChapters : list types.ChapterSummary)
    (orderedIndices : list Z) : M (list types.WriteChapterOutput) :=
  match orderedIndices with
  | [] => ret []
  | absIndex :: rest =>
    abstraction <- lift (index abstractions absIndex) ;;
    chapterOutput <-
      wrap (ErrWriteChapter (i + 1))
        (services.WriteChapter
           {| types.wci_Abstraction := abstraction;
              types.wci_Files := files;
              types.wci_PreviousChapters := previousChapters;
              types.wci_ProjectName := projectName;
              types.wci_ChapterNumber := i + 1 |}) ;;
    chapters <- write_loop files abstractions projectName (i + 1)
                  (previousChapters ++ [chapter_summary chapterOutput]) rest ;;
    ret (chapterOutput :: chapters)
  end.

(** [TutorialWorkflow.Run]. A call through a service client is the call of
    the handler; progress messages are not part of the model. *)
Definition Run (input : types.TutorialWorkflowInput) : M types.WriteMarkdownFilesOutput :=
  let projectName := types.twi_ProjectName input in
  let projectName :=
    if bool_decide (projectName = []) then
      let projectName := filepath_Base (types.twi_LocalRepoPath input) in
      if bool_decide (projectName = str ".") || bool_decide (projectName = str "/")
      then str "Project" else projectName
    else projectName in
  let maxFiles := types.twi_MaxFiles input in
  let maxFiles := if maxFiles =? 0 then 100 else maxFiles in
  (* Step 1: Read Files *)
  filesOutput <-
    wrap ErrReadFiles
      (services.ReadFiles
         {| types.rfi_RepoPath := types.twi_LocalRepoPath input;
            types.rfi_IncludePatterns :=
              [str "*.go"; str "*.py"; str "*.js"; str "*.ts"; str "*.java";
               str "*.rb"; str "*.md"];
            types.rfi_ExcludePatterns :=
              [str "*_test.go"; str "vendor/*"; str "node_modules/*"; str ".git/*";
               str "*.min.js"];
            types.rfi_MaxFileSize := 1048576;
            types.rfi_MaxFiles := maxFiles |}) ;;
  if len (types.rfo_Files filesOutput) =? 0 then fail ErrNoFilesFound
  else
  (* Step 2: Identify Abstractions *)
  abstractionsOutput <-
    wrap ErrAnalyzeAbstractions
      (services.AnalyzeAbstractions
         {| types.aai_Files := types.rfo_Files filesOutput;
            types.aai_ProjectName := projectName;
            types.aai_MaxAbstractions := 10 |}) ;;
  if len (types.aao_Abstractions abstractionsOutput) =? 0
  then fail ErrNoAbstractionsIdentified
  else
  (* Step 3: Analyze Relationships *)
  relationships <-
    wrap ErrAnalyzeRelationships
      (services.AnalyzeRelationships
         {| types.ari_Abstractions := types.aao_Abstractions abstractionsOutput;
            types.ari_Files := types.rfo_Files filesOutput;
            types.ari_ProjectName := projectName |}) ;;
  (* Step 4: Order Chapters *)
  orderOutput <-
    wrap ErrOrderChapters
      (services.OrderChapters
         {| types.oci_Abstractions := types.aao_Abstractions abstractionsOutput;
            types.oci_Relationships := relationships;
            types.oci_ProjectName := projectName |}) ;;
  (* Step 5: Write Chapters *)
  chapters <-
    write_loop (types.rfo_Files filesOutput)
      (types.aao_Abstractions abstractionsOutput) projectName 0 []
      (types.oco_OrderedIndices orderOutput) ;;
  (* Step 6: Write Files *)
  wrap ErrWriteMarkdownFiles
    (services.WriteMarkdownFiles
       {| types.wmi_OutputDir := types.twi_OutputDir input;
          types.wmi_Chapters := chapters |}).

End WithEnv.

End workflow.

(** ** The vocabulary of the specification *)

Module spec.

Section WithEnv.
Context {E : Env}.

(** *** Text *)

(** The text of [s] before the first occurrence of [sep]: all of [s] when
    there is none. *)
Definition before (sep s : gostring) : gostring :=
  match strings.Index s sep with Some m => take m s | None => s end.

(** The text of [s] after the first occurrence of [sep]. *)
Definition after (sep s : gostring) : gostring :=
  match strings.Index s sep with Some m => drop (m + length sep) s | None => [] end.

(** An ASCII byte that [TrimSpace] passes over, and one it stops at. *)
Definition is_ascii_space (c : ascii) : Prop :=
  byte_val c < 128 /\ strings.asciiSpace (byte_val c) = true.
Definition is_plain (c : ascii) : Prop :=
  byte_val c < 128 /\ strings.asciiSpace (byte_val c) = false.

(** *** References *)

Definition is_digit (c : ascii) : Prop := 48 <= byte_val c <= 57.

Definition decimal_value (ds : gostring) : Z :=
  fold_left (fun acc c => acc * 10 + (byte_val c - 48)) ds 0.

(** The range of a Go [int]. *)
Definition in_int_range (n : Z) : Prop := - 2 ^ 63 <= n <= 2 ^ 63 - 1.

(** A decimal numeral of an [int]: an optional sign and one or more
    digits. *)
Inductive numeral : gostring -> Z -> Prop :=
  | numeral_unsigned ds :
      ds <> [] -> Forall is_digit ds -> in_int_range (decimal_value ds) ->
      numeral ds (decimal_value ds)
  | numeral_plus ds :
      ds <> [] -> Forall is_digit ds -> in_int_range (decimal_value ds) ->
      numeral ("+"%char :: ds) (decimal_value ds)
  | numeral_minus ds :
      ds <> [] -> Forall is_digit ds -> in_int_range (- decimal_value ds) ->
      numeral ("-"%char :: ds) (- decimal_value ds).

(** The value [v] is a reference to the index [n]: the integer [n], or a
    string whose text before the first ['#'], white space trimmed, is a
    numeral of [n]. *)
Definition reference (v : yaml.value) (n : Z) : Prop :=
  match v with
  | yaml.VInt m => m = n
  | yaml.VString s => numeral (strings.TrimSpace (before (str "#") s)) n
  | yaml.VOther _ => False
  end.

(** The errors of a value that is not a reference. *)
Definition invalid_reference (err : error) : Prop :=
  (exists num, err = NumError num) \/ (exists type_name, err = ErrUnexpectedType type_name).

(** The references resolve, one by one, to the indices [idxs]. *)
Definition resolves (vals : list yaml.value) (idxs : list Z) : Prop :=
  Forall2 (fun v idx => services.extractIndex v = Ok idx) vals idxs.

(** The references resolve to indices within [0, n), no two equal. *)
Definition accepted (n : Z) (vals : list yaml.value) (idxs : list Z) : Prop :=
  resolves vals idxs /\ Forall (fun idx => 0 <= idx < n) idxs /\ NoDup idxs.

(** *** Edges *)

(** Both ends of the edge [yr] resolve, to [ends.1] and [ends.2]. *)
Definition edge_resolves (yr : yaml.yamlRelationship) (ends : Z * Z) : Prop :=
  services.extractIndex (yaml.yr_From yr) = Ok ends.1 /\
  services.extractIndex (yaml.yr_To yr) = Ok ends.2.

Definition edge_in_bounds (n : Z) (ends : Z * Z) : Prop :=
  (0 <= ends.1 < n) /\ (0 <= ends.2 < n).

(** The relationship [rel] is the edge [yr] with its ends resolved, both
    of them within [0, n). *)
Definition edge_accepted (n : Z) (yr : yaml.yamlRelationship)
    (rel : types.Relationship) : Prop :=
  edge_resolves yr (types.rel_FromIndex rel, types.rel_ToIndex rel) /\
  edge_in_bounds n (types.rel_FromIndex rel, types.rel_ToIndex rel) /\
  types.rel_Label rel = yaml.yr_Label yr.

(** *** The structured block of an answer *)

(** What the handlers take out of the generator's answer. *)
Definition candidate (response : gostring) : gostring :=
  if strings.Contains response (str "```yaml") then
    before fence (before (str "```yaml") (after (str "```yaml") response))
  else if strings.Contains response fence then
    before fence (after fence response)
  else response.

(** The reading of the specification. The fenced blocks of a text, in
    order: the text is cut at every fence, and the pieces at odd places are
    the blocks. The tag of a block is what follows its opening fence on the
    same line; its content is the rest. *)
Fixpoint odd_places {A} (l : list A) : list A :=
  match l with
  | _ :: x :: rest => x :: odd_places rest
  | _ => []
  end.

Definition fenced_blocks (text : gostring) : list (gostring * gostring) :=
  map (fun block => (before nl block, drop (length (before nl block)) block))
      (odd_places (strings.Split text fence)).

(** The content of the block tagged [yaml]; failing that, of the first
    block without a tag, when the text has a fence; failing that, the
    text. [None] when the text has fences and every block has a tag other
    than [yaml]. *)
Definition claimed_candidate (text : gostring) : option gostring :=
  match find (fun b : gostring * gostring => bool_decide (b.1 = str "yaml"))
             (fenced_blocks text) with
  | Some b => Some b.2
  | None =>
    if strings.Contains text fence then
      snd <$> find (fun b : gostring * gostring => bool_decide (b.1 = []))
                   (fenced_blocks text)
    else Some text
  end.

(** *** File names *)

Definition underscore : ascii := "_"%char.

(** ['_'] for every character outside [a-z0-9]: one byte for each rune. *)
Definition map_chars (s : gostring) : gostring :=
  map (fun ir : Z * Z => byte_of (utils.sanitize_rune ir.2)) (utf8.range s).

Definition starts_with_underscore (s : gostring) : bool :=
  match s with c :: _ => bool_decide (c = underscore) | [] => false end.

(** Every run of ['_'] becomes a single ['_']: an underscore followed by
    another one is dropped. *)
Fixpoint collapse (s : gostring) : gostring :=
  match s with
  | [] => []
  | c :: t =>
    if bool_decide (c = underscore) && starts_with_underscore t
    then collapse t else c :: collapse t
  end.

Fixpoint drop_underscores (s : gostring) : gostring :=
  match s with
  | [] => []
  | c :: t => if bool_decide (c = underscore) then drop_underscores t else s
  end.

(** The underscores at both ends are dropped. *)
Definition trim (s : gostring) : gostring :=
  rev (drop_underscores (rev (drop_underscores s))).

(** Sanitization as the specification words it: lowercase, map, collapse,
    trim. *)
Definition sanitize (name : gostring) : gostring :=
  trim (collapse (map_chars (strings.ToLower unicode_ToLower name))).

(** A byte of the alphabet of file names: [a-z], [0-9] or ['_']. *)
Definition is_filename_byte (c : ascii) : Prop :=
  (97 <= byte_val c <= 122) \/ (48 <= byte_val c <= 57) \/ c = underscore.

(** No two underscores side by side. *)
Fixpoint no_double_underscore (s : gostring) : bool :=
  match s with
  | [] => true
  | c :: t =>
    negb (bool_decide (c = underscore) && starts_with_underscore t)
    && no_double_underscore t
  end.

(** Two decimal digits. *)
Definition two_digits (n : Z) : gostring :=
  [byte_of (48 + n / 10); byte_of (48 + n mod 10)].

(** *** Prompts *)

(** A format with a [%s] at every gap between [parts], filled by [args]. *)
Fixpoint interleave (parts : list gostring) (args : list gostring) : gostring :=
  match parts, args with
  | p :: parts', a :: args' => p ++ a ++ interleave parts' args'
  | p :: _, [] => p
  | [], _ => []
  end.

(** The text of the chapter prompt around its six operands. *)
Definition WriteChapter_parts : list gostring :=
  strings.Split services.WriteChapter_format (str "%s").

(** The caption of the block of earlier chapters. *)
Definition covered_caption : gostring :=
  str "PREVIOUSLY COVERED CONCEPTS (for reference, don't repeat):".

(** The line of one earlier chapter in that block. *)
Definition covered_line (prev : types.ChapterSummary) : gostring :=
  str "- " ++ types.cs_Name prev ++ str ": " ++ types.cs_Summary prev ++ nl.

(** The composer's input with another list of earlier chapters. *)
Definition with_previous (input : types.WriteChapterInput)
    (previousChapters : list types.ChapterSummary) : types.WriteChapterInput :=
  {| types.wci_Abstraction := types.wci_Abstraction input;
     types.wci_Files := types.wci_Files input;
     types.wci_PreviousChapters := previousChapters;
     types.wci_ProjectName := types.wci_ProjectName input;
     types.wci_ChapterNumber := types.wci_ChapterNumber input |}.

(** *** File indices *)

(** The file indices that are not past the end of the corpus. *)
Definition below_size (files : list types.FileContent) (fileIndices : list Z) : list Z :=
  filter (fun fileIdx => fileIdx < len files) fileIndices.

Definition abstraction_below_size (files : list types.FileContent)
    (abs : types.Abstraction) : types.Abstraction :=
  {| types.abs_Index := types.abs_Index abs;
     types.abs_Name := types.abs_Name abs;
     types.abs_Description := types.abs_Description abs;
     types.abs_FileIndices := below_size files (types.abs_FileIndices abs) |}.

(** The composer's input, the indices past the end removed. *)
Definition WriteChapter_below_size (input : types.WriteChapterInput)
    : types.WriteChapterInput :=
  {| types.wci_Abstraction :=
       abstraction_below_size (types.wci_Files input) (types.wci_Abstraction input);
     types.wci_Files := types.wci_Files input;
     types.wci_PreviousChapters := types.wci_PreviousChapters input;
     types.wci_ProjectName := types.wci_ProjectName input;
     types.wci_ChapterNumber := types.wci_ChapterNumber input |}.

(** The relationship extractor's input, the indices past the end removed. *)
Definition AnalyzeRelationships_below_size (input : types.AnalyzeRelationshipsInput)
    : types.AnalyzeRelationshipsInput :=
  {| types.ari_Abstractions :=
       map (abstraction_below_size (types.ari_Files input)) (types.ari_Abstractions input);
     types.ari_Files := types.ari_Files input;
     types.ari_ProjectName := types.ari_ProjectName input |}.

(** Every file index of the abstraction is non-negative. *)
Definition file_indices_nonneg (abs : types.Abstraction) : Prop :=
  Forall (fun fileIdx => 0 <= fileIdx) (types.abs_FileIndices abs).

(** *** Files on disk *)

(** A computation that leaves the files on disk as they are, whatever its
    outcome. *)
Definition keeps_files {A} (m : M A) : Prop :=
  forall w r w', m w = (r, w') -> w_files w' = w_files w.

End WithEnv.

End spec.

(** ** A run of the pipeline on a corpus of three files *)

(** A generator that answers as asked, a decoder that knows its answers,
    and a disk that refuses the second chapter. *)
Module demo.

Definition corpus : list utils_types.FileInfo :=
  [ {| utils_types.fi_RelativePath := str "node.go";
       utils_types.fi_Content := str "package flow // Node" |};
    {| utils_types.fi_RelativePath := str "step.go";
       utils_types.fi_Content := str "package flow // Step" |};
    {| utils_types.fi_RelativePath := str "flow.go";
       utils_types.fi_Content := str "package flow // Flow" |} ].

Definition abstractions_yaml : gostring :=
  nl ++ str "- name: Node" ++ nl
  ++ str "  description: One step of a flow" ++ nl
  ++ str "  files: [0, 1]" ++ nl
  ++ str "- name: Flow" ++ nl
  ++ str "  description: A chain of nodes" ++ nl
  ++ str "  files: [2]" ++ nl.

Definition relationships_yaml : gostring :=
  nl ++ str "summary: A flow runs its nodes" ++ nl
  ++ str "details:" ++ nl
  ++ str "  - from: 0" ++ nl
  ++ str "    to: " ++ dq ++ str "1 # Flow" ++ dq ++ nl
  ++ str "    label: uses" ++ nl.

Definition order_yaml : gostring :=
  nl ++ str "- " ++ dq ++ str "1 # Flow" ++ dq ++ nl ++ str "- 0" ++ nl.

Definition fenced (yaml_text : gostring) : gostring :=
  str "```yaml" ++ yaml_text ++ fence.

Definition flow_chapter : gostring :=
  str "# Flow" ++ nl ++ nl ++ str "A flow runs its nodes in order.".

Definition node_chapter : gostring :=
  str "# Node" ++ nl ++ nl ++ str "A node is one step.".

(** The answers of the generator, by request. *)
Definition answers (request : nat) : gostring :=
  match request with
  | 0%nat => fenced abstractions_yaml
  | 1%nat => fenced relationships_yaml
  | 2%nat => fenced order_yaml
  | 3%nat => flow_chapter
  | _ => str "```markdown" ++ nl ++ node_chapter ++ nl ++ fence
  end.

Definition yamlAbstractions : list yaml.yamlAbstraction :=
  [ {| yaml.ya_Name := str "Node";
       yaml.ya_Description := str "One step of a flow";
       yaml.ya_Files := [0; 1] |};
    {| yaml.ya_Name := str "Flow";
       yaml.ya_Description := str "A chain of nodes";
       yaml.ya_Files := [2] |} ].

Definition yamlData : yaml.yamlRelationshipData :=
  {| yaml.yrd_Summary := str "A flow runs its nodes";
     yaml.yrd_Details :=
       [ {| yaml.yr_From := yaml.VInt 0;
            yaml.yr_To := yaml.VString (str "1 # Flow");
            yaml.yr_Label := str "uses" |} ] |}.

Definition yamlIndices : list yaml.value :=
  [yaml.VString (str "1 # Flow"); yaml.VInt 0].

Definition cannot_unmarshal : error := External (str "yaml: cannot unmarshal").
Definition no_space_left : error := External (str "no space left on device").

Definition env : Env :=
  {| unicode_ToLower := fun r => r;
     filepath_Join := fun dir name => dir ++ str "/" ++ name;
     filepath_Base := fun path => path;
     os_Getenv := fun _ => str "set";
     os_MkdirAll := fun _ => None;
     os_WriteFile := fun _ filePath _ =>
       if bool_decide (filePath = str "tutorial/02_node.md")
       then Some no_space_left else None;
     utils_WalkDirectory := fun _ => inr corpus;
     openrouter_CreateChatCompletion := fun request _ _ _ => inr [answers request];
     yaml_Unmarshal_abstractions := fun content =>
       if bool_decide (content = abstractions_yaml)
       then inr yamlAbstractions else inl cannot_unmarshal;
     yaml_Unmarshal_relationships := fun content =>
       if bool_decide (content = relationships_yaml)
       then inr yamlData else inl cannot_unmarshal;
     yaml_Unmarshal_indices := fun content =>
       if bool_decide (content = order_yaml)
       then inr yamlIndices else inl cannot_unmarshal |}.

(** The world before the run, and after a number of requests. *)
Definition world (requests : nat) : World :=
  {| w_files := ∅; w_requests := requests |}.

Definition input : types.TutorialWorkflowInput :=
  {| types.twi_LocalRepoPath := str "repo";
     types.twi_OutputDir := str "tutorial";
     types.twi_MaxFiles := 0;
     types.twi_ProjectName := str "flow" |}.

Definition files : list types.FileContent := services.indexed_files 0 corpus.

Definition abstractions : list types.Abstraction :=
  [ {| types.abs_Index := 0; types.abs_Name := str "Node";
       types.abs_Description := str "One step of a flow";
       types.abs_FileIndices := [0; 1] |};
    {| types.abs_Index := 1; types.abs_Name := str "Flow";
       types.abs_Description := str "A chain of nodes";
       types.abs_FileIndices := [2] |} ].

Definition relationships : types.RelationshipData :=
  {| types.rd_Summary := str "A flow runs its nodes";
     types.rd_Details :=
       [ {| types.rel_FromIndex := 0; types.rel_ToIndex := 1;
            types.rel_Label := str "uses" |} ] |}.

Definition abstractions_input (maxAbstractions : Z) : types.AnalyzeAbstractionsInput :=
  {| types.aai_Files := files;
     types.aai_ProjectName := str "flow";
     types.aai_MaxAbstractions := maxAbstractions |}.

Definition relationships_input : types.AnalyzeRelationshipsInput :=
  {| types.ari_Abstractions := abstractions;
     types.ari_Files := files;
     types.ari_ProjectName := str "flow" |}.

Definition order_input : types.OrderChaptersInput :=
  {| types.oci_Abstractions := abstractions;
     types.oci_Relationships := relationships;
     types.oci_ProjectName := str "flow" |}.

(** The composer's input for the abstraction [Node], its file indices
    replaced by [fileIndices]. *)
Definition chapter_input (fileIndices : list Z)
    (previousChapters : list types.ChapterSummary) : types.WriteChapterInput :=
  {| types.wci_Abstraction :=
       {| types.abs_Index := 0; types.abs_Name := str "Node";
          types.abs_Description := str "One step of a flow";
          types.abs_FileIndices := fileIndices |};
     types.wci_Files := files;
     types.wci_PreviousChapters := previousChapters;
     types.wci_ProjectName := str "flow";
     types.wci_ChapterNumber := 2 |}.

Definition flow_summary : types.ChapterSummary :=
  {| types.cs_Name := str "Flow";
     types.cs_Summary := str "Flow" ++ nl ++ nl ++ str "A flow runs its nodes in order." |}.

(** The prompt a handler builds, when it builds one. *)
Definition prompt_of (r : result gostring) : gostring :=
  match r with Ok prompt => prompt | _ => [] end.

(** The text with a tagged block first, used against the fallback rule. *)
Definition tagged_first : gostring :=
  str "```json" ++ nl ++ str "{}" ++ nl ++ fence ++ nl
  ++ fence ++ nl ++ str "- 0" ++ nl ++ fence.

End demo.


(** ** The stages of a run *)

(** The values [TutorialWorkflow.Run] computes between its steps, named as
    its local variables are. *)
Module stages.

Section WithEnv.
Context {E : Env}.

(** [// Derive project name from path if not provided]. *)
Definition projectName (input : types.TutorialWorkflowInput) : gostring :=
  let projectName := types.twi_ProjectName input in
  if bool_decide (projectName = []) then
    let projectName := filepath_Base (types.twi_LocalRepoPath input) in
    if bool_decide (projectName = str ".") || bool_decide (projectName = str "/")
    then str "Project" else projectName
  else projectName.

(** [// Get configuration from environment or use defaults]. *)
Definition maxFiles (input : types.TutorialWorkflowInput) : Z :=
  let maxFiles := types.twi_MaxFiles input in
  if maxFiles =? 0 then 100 else maxFiles.

Definition fileReaderInput (input : types.TutorialWorkflowInput) : types.ReadFilesInput :=
  {| types.rfi_RepoPath := types.twi_LocalRepoPath input;
     types.rfi_IncludePatterns :=
       [str "*.go"; str "*.py"; str "*.js"; str "*.ts"; str "*.java";
        str "*.rb"; str "*.md"];
     types.rfi_ExcludePatterns :=
       [str "*_test.go"; str "vendor/*"; str "node_modules/*"; str ".git/*";
        str "*.min.js"];
     types.rfi_MaxFileSize := 1048576;
     types.rfi_MaxFiles := maxFiles input |}.

Definition abstractionInput (input : types.TutorialWorkflowInput)
    (filesOutput : types.ReadFilesOutput) : types.AnalyzeAbstractionsInput :=
  {| types.aai_Files := types.rfo_Files filesOutput;
     types.aai_ProjectName := projectName input;
     types.aai_MaxAbstractions := 10 |}.

Definition relationshipInput (input : types.TutorialWorkflowInput)
    (filesOutput : types.ReadFilesOutput)
    (abstractionsOutput : types.AnalyzeAbstractionsOutput)
    : types.AnalyzeRelationshipsInput :=
  {| types.ari_Abstractions := types.aao_Abstractions abstractionsOutput;
     types.ari_Files := types.rfo_Files filesOutput;
     types.ari_ProjectName := projectName input |}.

Definition orderInput (input : types.TutorialWorkflowInput)
    (abstractionsOutput : types.AnalyzeAbstractionsOutput)
    (relationships : types.RelationshipData) : types.OrderChaptersInput :=
  {| types.oci_Abstractions := types.aao_Abstractions abstractionsOutput;
     types.oci_Relationships := relationships;
     types.oci_ProjectName := projectName input |}.

Definition writerInput (input : types.TutorialWorkflowInput)
    (chapters : list types.WriteChapterOutput) : types.WriteMarkdownFilesInput :=
  {| types.wmi_OutputDir := types.twi_OutputDir input;
     types.wmi_Chapters := chapters |}.

(** Steps 5 and 6, once the order is known. *)
Definition write (input : types.TutorialWorkflowInput)
    (filesOutput : types.ReadFilesOutput)
    (abstractionsOutput : types.AnalyzeAbstractionsOutput)
    (orderOutput : types.OrderChaptersOutput) : M types.WriteMarkdownFilesOutput :=
  chapters <-
    workflow.write_loop (types.rfo_Files filesOutput)
      (types.aao_Abstractions abstractionsOutput) (projectName input) 0 []
      (types.oco_OrderedIndices orderOutput) ;;
  wrap ErrWriteMarkdownFiles (services.WriteMarkdownFiles (writerInput input chapters)).

(** Steps 3 to 6, once the abstractions are known. *)
Definition compose (input : types.TutorialWorkflowInput)
    (filesOutput : types.ReadFilesOutput)
    (abstractionsOutput : types.AnalyzeAbstractionsOutput)
    : M types.WriteMarkdownFilesOutput :=
  relationships <-
    wrap ErrAnalyzeRelationships
      (services.AnalyzeRelationships (relationshipInput input filesOutput abstractionsOutput)) ;;
  orderOutput <-
    wrap ErrOrderChapters
      (services.OrderChapters (orderInput input abstractionsOutput relationships)) ;;
  write input filesOutput abstractionsOutput orderOutput.

(** Steps 2 to 6, once the files are read. *)
Definition analyze (input : types.TutorialWorkflowInput)
    (filesOutput : types.ReadFilesOutput) : M types.WriteMarkdownFilesOutput :=
  if len (types.rfo_Files filesOutput) =? 0 then fail ErrNoFilesFound
  else
    abstractionsOutput <-
      wrap ErrAnalyzeAbstractions
        (services.AnalyzeAbstractions (abstractionInput input filesOutput)) ;;
    if len (types.aao_Abstractions abstractionsOutput) =? 0
    then fail ErrNoAbstractionsIdentified
    else compose input filesOutput abstractionsOutput.

End WithEnv.

End stages.

(** ** What the stages hand to one another *)

Module valid.

(** Every file index of the abstraction is an index of the corpus. *)
Definition abstraction (nfiles : Z) (abs : types.Abstraction) : Prop :=
  Forall (fun fileIdx => 0 <= fileIdx < nfiles) (types.abs_FileIndices abs).

(** Both ends of the relationship are indices of the abstraction list. *)
Definition relationship (n : Z) (rel : types.Relationship) : Prop :=
  0 <= types.rel_FromIndex rel < n /\ 0 <= types.rel_ToIndex rel < n.

End valid.

(** ** The files of the chapters on disk *)

Module disk.

Section WithEnv.
Context {E : Env}.

(** Where [WriteMarkdownFiles] writes a chapter. *)
Definition path (outputDir : gostring) (chapter : types.WriteChapterOutput) : gostring :=
  filepath_Join outputDir (services.chapter_filename chapter).

(** The files on disk once the chapters are written over [files], one
    after the other. *)
Definition written (outputDir : gostring) (chapters : list types.WriteChapterOutput)
    (files : gmap gostring gostring) : gmap gostring gostring :=
  foldl (fun files chapter =>
           <[path outputDir chapter := types.wco_Content chapter]> files)
        files chapters.

(** The operating system accepts the write of every chapter, in turn. *)
Fixpoint writable (outputDir : gostring) (chapters : list types.WriteChapterOutput)
    (files : gmap gostring gostring) : Prop :=
  match chapters with
  | [] => True
  | chapter :: rest =>
    os_WriteFile files (path outputDir chapter) (types.wco_Content chapter) = None /\
    writable outputDir rest
      (<[path outputDir chapter := types.wco_Content chapter]> files)
  end.

End WithEnv.

End disk.

(** ** utils.WalkDirectory *)

Module filewalker.

(** What [filepath.Walk] hands to its callback for one file or directory:
    the path, [info.IsDir()], [info.Size()], and the error met on the way
    to it, if any. *)
Record visit : Type := {
  v_path : gostring;
  v_IsDir : bool;
  v_Size : Z;
  v_err : option error
}.

(** The collaborators of [WalkDirectory]. [filepath_Walk root] lists the
    calls that [filepath.Walk] makes to its callback as long as the
    callback returns [nil]; the callback of [WalkDirectory] never returns
    [SkipDir], so that what it returns only decides where the walk ends. *)
Class FileSystem : Type := {
  glob : Type;
  glob_Compile : gostring -> error + glob;
  glob_Match : glob -> gostring -> bool;
  filepath_Abs : gostring -> error + gostring;
  filepath_Walk : gostring -> list visit;
  filepath_Rel : gostring -> gostring -> error + gostring;
  filepath_ToSlash : gostring -> gostring;
  os_ReadFile : gostring -> error + gostring
}.

(** One constructor for each [fmt.Errorf] of [WalkDirectory]. *)
Inductive failure : Type :=
  | ErrInvalidIncludePattern (pattern : gostring) (cause : error)
  | ErrInvalidExcludePattern (pattern : gostring) (cause : error)
  | ErrAbsolutePath (cause : error)
  | ErrWalkingDirectory (cause : error).

(** What the callback returns: [nil], with the files found so far;
    [filepath.SkipAll]; or an error. *)
Inductive returned : Type :=
  | Nil (files : list utils_types.FileInfo)
  | SkipAll
  | Failed (err : error).

Section WithFileSystem.
Context {F : FileSystem}.

(** [// Compile glob patterns]: the loop stops at the first pattern that
    does not compile. *)
Fixpoint compile (patterns : list gostring) : (gostring * error) + list glob :=
  match patterns with
  | [] => inr []
  | pattern :: rest =>
    match glob_Compile pattern with
    | inl err => inl (pattern, err)
    | inr g =>
      match compile rest with
      | inl bad => inl bad
      | inr globs => inr (g :: globs)
      end
    end
  end.

(** The callback given to [filepath.Walk]. *)
Definition walkFn (opts : utils_types.WalkDirectoryOptions)
    (includeGlobs excludeGlobs : list glob) (absRoot : gostring)
    (files : list utils_types.FileInfo) (v : visit) : returned :=
  match v_err v with
  | Some err => Failed err
  | None =>
    (* Skip directories *)
    if v_IsDir v then Nil files
    else
      (* Calculate relative path *)
      match filepath_Rel absRoot (v_path v) with
      | inl err => Failed err
      | inr relPath =>
        let normalizedPath := filepath_ToSlash relPath in
        (* Check exclude patterns first *)
        if existsb (fun g => glob_Match g normalizedPath) excludeGlobs then Nil files
        (* Check include patterns (if any specified) *)
        else if (0 <? len includeGlobs)
                && negb (existsb (fun g => glob_Match g normalizedPath) includeGlobs)
        then Nil files
        (* Check file size limit *)
        else if (0 <? utils_types.wdo_MaxFileSize opts)
                && (utils_types.wdo_MaxFileSize opts <? v_Size v)
        then Nil files
        (* Check max files limit *)
        else if (0 <? utils_types.wdo_MaxFiles opts)
                && (utils_types.wdo_MaxFiles opts <=? len files)
        then SkipAll
        else
          (* Read file content *)
          match os_ReadFile (v_path v) with
          | inl _ => Nil files
          | inr content =>
            Nil (files ++ [ {| utils_types.fi_RelativePath := normalizedPath;
                               utils_types.fi_Content := content |} ])
          end
      end
  end.

(** [filepath.Walk] with that callback: it goes on while the callback
    returns [nil], ends well on [SkipAll] and fails on an error. *)
Fixpoint walk (opts : utils_types.WalkDirectoryOptions)
    (includeGlobs excludeGlobs : list glob) (absRoot : gostring)
    (files : list utils_types.FileInfo) (visits : list visit)
    : error + list utils_types.FileInfo :=
  match visits with
  | [] => inr files
  | v :: rest =>
    match walkFn opts includeGlobs excludeGlobs absRoot files v with
    | Nil files => walk opts includeGlobs excludeGlobs absRoot files rest
    | SkipAll => inr files
    | Failed err => inl err
    end
  end.

(** [utils.WalkDirectory]. *)
Definition WalkDirectory (opts : utils_types.WalkDirectoryOptions)
    : failure + list utils_types.FileInfo :=
  match compile (utils_types.wdo_IncludePatterns opts) with
  | inl (pattern, err) => inl (ErrInvalidIncludePattern pattern err)
  | inr includeGlobs =>
    match compile (utils_types.wdo_ExcludePatterns opts) with
    | inl (pattern, err) => inl (ErrInvalidExcludePattern pattern err)
    | inr excludeGlobs =>
      match filepath_Abs (utils_types.wdo_RootPath opts) with
      | inl err => inl (ErrAbsolutePath err)
      | inr absRoot =>
        match walk opts includeGlobs excludeGlobs absRoot [] (filepath_Walk absRoot) with
        | inl err => inl (ErrWalkingDirectory err)
        | inr files => inr files
        end
      end
    end
  end.

(** *** The files a walk selects *)

(** The file passes the filters: it is no directory, no exclude pattern
    matches its normalized path, an include pattern does when there is
    one, and it is not above the size limit when there is one. *)
Definition eligible (opts : utils_types.WalkDirectoryOptions)
    (includeGlobs excludeGlobs : list glob) (normalizedPath : gostring) (v : visit)
    : bool :=
  negb (v_IsDir v)
  && negb (existsb (fun g => glob_Match g normalizedPath) excludeGlobs)
  && (bool_decide (includeGlobs = [])
      || existsb (fun g => glob_Match g normalizedPath) includeGlobs)
  && ((utils_types.wdo_MaxFileSize opts <=? 0)
      || (v_Size v <=? utils_types.wdo_MaxFileSize opts)).

(** The entry of the result for a visit, when the visit gives one: the
    file is eligible and can be read. *)
Definition selected (opts : utils_types.WalkDirectoryOptions)
    (includeGlobs excludeGlobs : list glob) (absRoot : gostring) (v : visit)
    : option utils_types.FileInfo :=
  match filepath_Rel absRoot (v_path v) with
  | inl _ => None
  | inr relPath =>
    let normalizedPath := filepath_ToSlash relPath in
    if eligible opts includeGlobs excludeGlobs normalizedPath v then
      match os_ReadFile (v_path v) with
      | inl _ => None
      | inr content =>
        Some {| utils_types.fi_RelativePath := normalizedPath;
                utils_types.fi_Content := content |}
      end
    else None
  end.

(** The files found by a walk over visits it can reach, starting with
    [files]: the entries selected, up to the ceiling when there is one. *)
Definition found (opts : utils_types.WalkDirectoryOptions)
    (includeGlobs excludeGlobs : list glob) (absRoot : gostring)
    (files : list utils_types.FileInfo) (visits : list visit)
    : list utils_types.FileInfo :=
  let candidates := omap (selected opts includeGlobs excludeGlobs absRoot) visits in
  files ++
  (if 0 <? utils_types.wdo_MaxFiles opts
   then take (Z.to_nat (utils_types.wdo_MaxFiles opts - len files)) candidates
   else candidates).

(** The walk meets no error on the way to [v], and can tell the path of
    [v] relative to the root when [v] is a file. *)
Definition reachable (absRoot : gostring) (v : visit) : Prop :=
  v_err v = None /\
  (v_IsDir v = false -> exists relPath, filepath_Rel absRoot (v_path v) = inr relPath).

End WithFileSystem.

End filewalker.

(** ** More environments *)

Module runs.

(** The environment of [demo], with every write accepted. *)
Definition accepting : Env :=
  {| unicode_ToLower := @unicode_ToLower demo.env;
     filepath_Join := @filepath_Join demo.env;
     filepath_Base := @filepath_Base demo.env;
     os_Getenv := @os_Getenv demo.env;
     os_MkdirAll := @os_MkdirAll demo.env;
     os_WriteFile := fun _ _ _ => None;
     utils_WalkDirectory := @utils_WalkDirectory demo.env;
     openrouter_CreateChatCompletion := @openrouter_CreateChatCompletion demo.env;
     yaml_Unmarshal_abstractions := @yaml_Unmarshal_abstractions demo.env;
     yaml_Unmarshal_relationships := @yaml_Unmarshal_relationships demo.env;
     yaml_Unmarshal_indices := @yaml_Unmarshal_indices demo.env |}.

(** The environment of [demo], with no variable of the process set. *)
Definition keyless : Env :=
  {| unicode_ToLower := @unicode_ToLower demo.env;
     filepath_Join := @filepath_Join demo.env;
     filepath_Base := @filepath_Base demo.env;
     os_Getenv := fun _ => [];
     os_MkdirAll := @os_MkdirAll demo.env;
     os_WriteFile := @os_WriteFile demo.env;
     utils_WalkDirectory := @utils_WalkDirectory demo.env;
     openrouter_CreateChatCompletion := @openrouter_CreateChatCompletion demo.env;
     yaml_Unmarshal_abstractions := @yaml_Unmarshal_abstractions demo.env;
     yaml_Unmarshal_relationships := @yaml_Unmarshal_relationships demo.env;
     yaml_Unmarshal_indices := @yaml_Unmarshal_indices demo.env |}.

(** A repository of four entries: a directory, two Go files and a file
    that cannot be read. A pattern is a suffix after [*]; the pattern [[]
    does not compile. *)
Definition bad_pattern : error := External (str "unexpected end of input").
Definition permission_denied : error := External (str "permission denied").

Definition repository : list filewalker.visit :=
  [ {| filewalker.v_path := str "/repo"; filewalker.v_IsDir := true;
       filewalker.v_Size := 4096; filewalker.v_err := None |};
    {| filewalker.v_path := str "/repo/flow.go"; filewalker.v_IsDir := false;
       filewalker.v_Size := 20; filewalker.v_err := None |};
    {| filewalker.v_path := str "/repo/flow_test.go"; filewalker.v_IsDir := false;
       filewalker.v_Size := 30; filewalker.v_err := None |};
    {| filewalker.v_path := str "/repo/key.go"; filewalker.v_IsDir := false;
       filewalker.v_Size := 10; filewalker.v_err := None |};
    {| filewalker.v_path := str "/repo/node.go"; filewalker.v_IsDir := false;
       filewalker.v_Size := 20; filewalker.v_err := None |} ].

Definition tree : filewalker.FileSystem :=
  {| filewalker.glob := gostring;
     filewalker.glob_Compile := fun pattern =>
       if bool_decide (pattern = str "[") then inl bad_pattern
       else inr (strings.TrimPrefix pattern (str "*"));
     filewalker.glob_Match := fun suffix path => strings.HasSuffix path suffix;
     filewalker.filepath_Abs := fun path => inr (str "/" ++ path);
     filewalker.filepath_Walk := fun _ => repository;
     filewalker.filepath_Rel := fun root path => inr (drop (S (length root)) path);
     filewalker.filepath_ToSlash := fun path => path;
     filewalker.os_ReadFile := fun path =>
       if bool_decide (path = str "/repo/key.go") then inl permission_denied
       else inr (str "package flow") |}.

Definition options (maxFiles : Z) : utils_types.WalkDirectoryOptions :=
  {| utils_types.wdo_RootPath := str "repo";
     utils_types.wdo_IncludePatterns := [str "*.go"];
     utils_types.wdo_ExcludePatterns := [str "*_test.go"];
     utils_types.wdo_MaxFileSize := 1048576;
     utils_types.wdo_MaxFiles := maxFiles |}.

End runs.


(** ** Names *)

Module names.

(** An ASCII letter or digit. *)
Definition is_alnum (c : ascii) : Prop :=
  (48 <= byte_val c <= 57) \/ (65 <= byte_val c <= 90) \/ (97 <= byte_val c <= 122).

(** A plain reference to the index [i]: the integer itself, or the form
    that the prompt of [OrderChapters] asks for, the index followed by
    [" # "] and a name. *)
Definition requested (v : yaml.value) (i : Z) : Prop :=
  v = yaml.VInt i \/
  exists name, v = yaml.VString (strconv.Itoa i ++ str " # " ++ name).

End names.

(** * Properties *)

#[local] Set Warnings "-clear-no-such-hyp".

(** ** Facts about package strings *)

Section StringFacts.
Implicit Types s t sub sep : gostring.

Lemma HasPrefix_prefix s sub : strings.HasPrefix s sub = true <-> sub `prefix_of` s.
Proof.
  revert s. induction sub as [|p sub IH]; intros s; simpl.
  - split; [intros _; apply prefix_nil | done].
  - destruct s as [|c s].
    + split; [done | intros [k Hk]; discriminate Hk].
    + rewrite andb_true_iff, bool_decide_eq_true, IH. split.
      * intros [-> Hp]. by apply prefix_cons.
      * intros [k Hk]. simplify_eq/=. split; [done | by exists k].
Qed.

Lemma HasPrefix_app sub t : strings.HasPrefix (sub ++ t) sub = true.
Proof. apply HasPrefix_prefix. by exists t. Qed.

Lemma HasPrefix_nil_l sub : sub <> [] -> strings.HasPrefix [] sub = false.
Proof. by destruct sub. Qed.

Lemma Index_cons s sub c :
  strings.Index (c :: s) sub =
    if strings.HasPrefix (c :: s) sub then Some O else S <$> strings.Index s sub.
Proof. reflexivity. Qed.

(** [Index] finds an occurrence... *)
Lemma Index_Some_split s sub m :
  strings.Index s sub = Some m ->
  s = take m s ++ sub ++ drop (m + length sub) s.
Proof.
  revert m. induction s as [|c s IH]; intros m.
  - simpl. destruct (strings.HasPrefix [] sub) eqn:Hp; [|done].
    intros [= <-]. apply HasPrefix_prefix in Hp as [k Hk].
    symmetry in Hk. apply app_eq_nil in Hk as [-> ->]. done.
  - rewrite Index_cons. destruct (strings.HasPrefix (c :: s) sub) eqn:Hp.
    + intros [= <-]. apply HasPrefix_prefix in Hp as [k Hk].
      rewrite Hk at 1. simpl. rewrite Hk, drop_app_length. done.
    + destruct (strings.Index s sub) as [m'|] eqn:Hi; [|done].
      intros [= <-]. simpl. f_equal. by apply IH.
Qed.

(** ... and the first one. *)
Lemma Index_Some_first s sub m k :
  strings.Index s sub = Some m -> (k < m)%nat ->
  strings.HasPrefix (drop k s) sub = false.
Proof.
  revert m k. induction s as [|c s IH]; intros m k.
  - simpl. destruct (strings.HasPrefix [] sub); [|done]. intros [= <-]. lia.
  - rewrite Index_cons. destruct (strings.HasPrefix (c :: s) sub) eqn:Hp.
    + intros [= <-]. lia.
    + destruct (strings.Index s sub) as [m'|] eqn:Hi; [|done].
      intros [= <-] Hk. destruct k as [|k]; [done|].
      simpl. apply (IH m'); [done | lia].
Qed.

Lemma Index_None s sub k :
  strings.Index s sub = None -> strings.HasPrefix (drop k s) sub = false.
Proof.
  revert k. induction s as [|c s IH]; intros k.
  - simpl. rewrite drop_nil. by destruct (strings.HasPrefix [] sub).
  - rewrite Index_cons. destruct (strings.HasPrefix (c :: s) sub) eqn:Hp; [done|].
    destruct (strings.Index s sub) eqn:Hi; [done|]. intros _.
    destruct k; [done|]. simpl. by apply IH.
Qed.

Lemma Index_Some_bound s sub m :
  strings.Index s sub = Some m -> (m + length sub <= length s)%nat.
Proof.
  revert m. induction s as [|c s IH]; intros m.
  - simpl. destruct (strings.HasPrefix [] sub) eqn:Hp; [|done].
    intros [= <-]. apply HasPrefix_prefix, prefix_length in Hp. simpl in *. lia.
  - rewrite Index_cons. destruct (strings.HasPrefix (c :: s) sub) eqn:Hp.
    + intros [= <-]. apply HasPrefix_prefix, prefix_length in Hp. simpl in *. lia.
    + destruct (strings.Index s sub) as [m'|] eqn:Hi; [|done].
      intros [= <-]. specialize (IH m' eq_refl). simpl. lia.
Qed.

(** A string that holds [sub] at offset [k] has an occurrence of it at or
    before [k]. *)
Lemma Index_occurrence s sub k :
  strings.HasPrefix (drop k s) sub = true -> (k <= length s)%nat ->
  exists m, strings.Index s sub = Some m /\ (m <= k)%nat.
Proof.
  intros Hp Hk. destruct (strings.Index s sub) as [m|] eqn:Hi.
  - exists m. split; [done|]. destruct (decide (m <= k)%nat); [done|].
    rewrite (Index_Some_first s sub m k) in Hp; [done | done | lia].
  - by rewrite (Index_None s sub k) in Hp.
Qed.

Lemma Index_app_found pre sub post :
  (forall k, (k < length pre)%nat -> strings.HasPrefix (drop k (pre ++ sub ++ post)) sub = false) ->
  strings.Index (pre ++ sub ++ post) sub = Some (length pre).
Proof.
  intros Hno.
  destruct (Index_occurrence (pre ++ sub ++ post) sub (length pre)) as (m & Hm & Hle).
  - rewrite drop_app_length. apply HasPrefix_app.
  - rewrite length_app. lia.
  - rewrite Hm. f_equal. destruct (decide (m = length pre)) as [|Hne]; [done|].
    assert (Hf := Hno m ltac:(lia)).
    apply Index_Some_split in Hm.
    assert (strings.HasPrefix (drop m (pre ++ sub ++ post)) sub = true) as Ht.
    { rewrite Hm at 1. rewrite drop_app_length'; [apply HasPrefix_app|].
      rewrite length_take, length_app. lia. }
    congruence.
Qed.

Lemma Contains_true s sub :
  strings.Contains s sub = true <-> exists m, strings.Index s sub = Some m.
Proof. unfold strings.Contains. rewrite bool_decide_eq_true. done. Qed.

Lemma Contains_false s sub :
  strings.Contains s sub = false <-> strings.Index s sub = None.
Proof.
  unfold strings.Contains. rewrite bool_decide_eq_false, <- eq_None_not_Some. done.
Qed.

(** [Contains] is the occurrence of [sub] somewhere in [s]. *)
Lemma Contains_spec s sub :
  strings.Contains s sub = true <-> exists pre post, s = pre ++ sub ++ post.
Proof.
  rewrite Contains_true. split.
  - intros [m Hm]. apply Index_Some_split in Hm. eauto.
  - intros (pre & post & ->).
    destruct (Index_occurrence (pre ++ sub ++ post) sub (length pre)) as (m & Hm & _).
    + rewrite drop_app_length. apply HasPrefix_app.
    + rewrite length_app. lia.
    + eauto.
Qed.

End StringFacts.

Section Strconv.

Lemma byte_val_range c : 0 <= byte_val c < 256.
Proof.
  unfold byte_val. pose proof (N_ascii_bounded c). lia.
Qed.

Lemma byte_of_val c : byte_of (byte_val c) = c.
Proof.
  unfold byte_of. pose proof (byte_val_range c).
  rewrite Z.mod_small by lia. unfold byte_val. rewrite N2Z.id. apply ascii_N_embedding.
Qed.

Lemma byte_val_of z : 0 <= z < 256 -> byte_val (byte_of z) = z.
Proof.
  intros H. unfold byte_of, byte_val. rewrite Z.mod_small by lia.
  rewrite N_ascii_embedding by lia. lia.
Qed.

Lemma isDigit_spec c : strconv.isDigit c = true <-> spec.is_digit c.
Proof. unfold strconv.isDigit, spec.is_digit. lia. Qed.

Lemma digits_spec ds n v :
  strconv.digits n ds = Some v <->
  Forall spec.is_digit ds /\
  v = fold_left (fun acc c => acc * 10 + (byte_val c - 48)) ds n.
Proof.
  revert n. induction ds as [|c ds IH]; intros n; simpl.
  - split; [intros [= <-]; by split | intros [_ ->]; done].
  - destruct (strconv.isDigit c) eqn:Hd.
    + rewrite IH. apply isDigit_spec in Hd. split.
      * intros [? ?]. split; [by constructor | done].
      * intros [H ?]. inversion H; subst. done.
    + split; [done|]. intros [H _]. inversion H as [|? ? Hc]; subst.
      apply isDigit_spec in Hc. congruence.
Qed.

Lemma digits_None ds n :
  strconv.digits n ds = None <-> ~ Forall spec.is_digit ds.
Proof.
  destruct (strconv.digits n ds) as [v|] eqn:H.
  - apply digits_spec in H as [H _]. split; [done | tauto].
  - split; [|done]. intros _ HF.
    assert (strconv.digits n ds = Some (fold_left (fun acc c => acc * 10 + (byte_val c - 48)) ds n)) as H'
      by (by apply digits_spec).
    congruence.
Qed.

Lemma in_range_spec n :
  (strconv.intMin <=? n) && (n <=? strconv.intMax) = true <-> spec.in_int_range n.
Proof.
  unfold strconv.intMin, strconv.intMax, spec.in_int_range.
  rewrite andb_true_iff, !Z.leb_le. done.
Qed.

Lemma is_digit_not_sign c : spec.is_digit c -> c <> "-"%char /\ c <> "+"%char.
Proof.
  intros H. unfold spec.is_digit in H.
  split; intros ->;
    [change (byte_val "-"%char) with 45 in H | change (byte_val "+"%char) with 43 in H];
    lia.
Qed.

(** [Atoi] accepts exactly the numerals, with their value. *)
Lemma Atoi_spec s n : strconv.Atoi s = Some n <-> spec.numeral s n.
Proof.
  split.
  - unfold strconv.Atoi. destruct s as [|c t]; [done|].
    repeat case_bool_decide; subst.
    + destruct t as [|d t]; [done|].
      destruct (strconv.digits 0 (d :: t)) as [un|] eqn:Hd; [|done].
      apply digits_spec in Hd as [HF ->].
      destruct (_ && _) eqn:Hr; [|done]. intros [= <-].
      apply in_range_spec in Hr. by apply spec.numeral_minus.
    + destruct t as [|d t]; [done|].
      destruct (strconv.digits 0 (d :: t)) as [un|] eqn:Hd; [|done].
      apply digits_spec in Hd as [HF ->].
      destruct (_ && _) eqn:Hr; [|done]. intros [= <-].
      apply in_range_spec in Hr. by apply spec.numeral_plus.
    + destruct (strconv.digits 0 (c :: t)) as [un|] eqn:Hd; [|done].
      apply digits_spec in Hd as [HF ->].
      destruct (_ && _) eqn:Hr; [|done]. intros [= <-].
      apply in_range_spec in Hr. by apply spec.numeral_unsigned.
  - intros H. destruct H as [ds Hne HF Hr|ds Hne HF Hr|ds Hne HF Hr]; unfold strconv.Atoi.
    + destruct ds as [|c t]; [done|].
      assert (Hc : spec.is_digit c) by (by inversion HF).
      apply is_digit_not_sign in Hc as [? ?].
      rewrite !bool_decide_eq_false_2 by done.
      assert (strconv.digits 0 (c :: t) = Some (spec.decimal_value (c :: t))) as ->
        by (by apply digits_spec).
      apply in_range_spec in Hr. by rewrite Hr.
    + rewrite bool_decide_eq_false_2 by done. rewrite bool_decide_eq_true_2 by done.
      destruct ds as [|c t]; [done|].
      assert (strconv.digits 0 (c :: t) = Some (spec.decimal_value (c :: t))) as ->
        by (by apply digits_spec).
      apply in_range_spec in Hr. by rewrite Hr.
    + rewrite bool_decide_eq_true_2 by done.
      destruct ds as [|c t]; [done|].
      assert (strconv.digits 0 (c :: t) = Some (spec.decimal_value (c :: t))) as ->
        by (by apply digits_spec).
      apply in_range_spec in Hr. by rewrite Hr.
Qed.

(** *** Itoa *)

Lemma formatBits_digits fuel u acc :
  fuel <> O -> 0 <= u < 2 ^ Z.of_nat fuel ->
  exists ds, strconv.formatBits fuel u acc = ds ++ acc /\ ds <> [] /\
             Forall spec.is_digit ds /\
             forall n, fold_left (fun a c => a * 10 + (byte_val c - 48)) ds n
                       = n * 10 ^ Z.of_nat (length ds) + u.
Proof.
  revert u acc. induction fuel as [|fuel IH]; intros u acc Hf Hu; [done|].
  cbn [strconv.formatBits]. clear Hf.
  assert (Hm : 0 <= u mod 10 < 10) by (apply Z.mod_pos_bound; lia).
  assert (Hd : spec.is_digit (byte_of (48 + u mod 10))).
  { unfold spec.is_digit. rewrite byte_val_of by lia. lia. }
  pose proof (Z.div_mod u 10 ltac:(lia)) as Hdm.
  destruct (u / 10 =? 0) eqn:Hq.
  - apply Z.eqb_eq in Hq. exists [byte_of (48 + u mod 10)].
    split; [done|]. split; [done|]. split; [by apply Forall_singleton|].
    intros n. simpl. rewrite byte_val_of by lia. lia.
  - apply Z.eqb_neq in Hq.
    assert (Hb : 0 <= u / 10 < 2 ^ Z.of_nat fuel).
    { split; [apply Z.div_pos; lia|].
      apply Z.div_lt_upper_bound; [lia|].
      rewrite Nat2Z.inj_succ, Z.pow_succ_r in Hu by lia. lia. }
    destruct (IH (u / 10) (byte_of (48 + u mod 10) :: acc)) as (ds & Heq & Hne & HF & Hv);
      [|done|].
    { intros ->. simpl in Hb. lia. }
    exists (ds ++ [byte_of (48 + u mod 10)]).
    split; [by rewrite Heq, <- app_assoc|].
    split; [by destruct ds|].
    split; [apply Forall_app; split; [done | by apply Forall_singleton]|].
    intros n. rewrite fold_left_app, Hv. simpl. rewrite byte_val_of by lia.
    rewrite length_app. simpl.
    replace (Z.of_nat (length ds + 1)) with (Z.succ (Z.of_nat (length ds))) by lia.
    rewrite Z.pow_succ_r by lia. lia.
Qed.

(** [Itoa] writes an optional minus sign and the decimal digits of the
    absolute value. *)
Lemma Itoa_shape i :
  exists ds, ds <> [] /\ Forall spec.is_digit ds /\ spec.decimal_value ds = Z.abs i /\
             strconv.Itoa i = if i <? 0 then "-"%char :: ds else ds.
Proof.
  unfold strconv.Itoa. destruct (i <? 0) eqn:Hi.
  - apply Z.ltb_lt in Hi.
    destruct (formatBits_digits (S (Z.to_nat (Z.log2 (- i)))) (- i) []) as (ds & Heq & Hne & HF & Hv).
    { done. }
    { split; [lia|]. rewrite Nat2Z.inj_succ, Z2Nat.id by apply Z.log2_nonneg.
      apply Z.log2_spec. lia. }
    exists ds. rewrite Heq, app_nil_r. repeat split; try done.
    unfold spec.decimal_value. rewrite Hv. lia.
  - apply Z.ltb_ge in Hi.
    destruct (formatBits_digits (S (Z.to_nat (Z.log2 i))) i []) as (ds & Heq & Hne & HF & Hv).
    { done. }
    { split; [lia|]. rewrite Nat2Z.inj_succ, Z2Nat.id by apply Z.log2_nonneg.
      destruct (decide (i = 0)) as [->|]; [done|]. apply Z.log2_spec. lia. }
    exists ds. rewrite Heq, app_nil_r. repeat split; try done.
    unfold spec.decimal_value. rewrite Hv. lia.
Qed.

Lemma Itoa_numeral i : spec.in_int_range i -> spec.numeral (strconv.Itoa i) i.
Proof.
  intros Hr. destruct (Itoa_shape i) as (ds & Hne & HF & Hv & ->).
  destruct (i <? 0) eqn:Hi.
  - apply Z.ltb_lt in Hi. assert (Heq : i = - spec.decimal_value ds) by lia.
    revert Hr. rewrite Heq. intros Hr. by apply spec.numeral_minus.
  - apply Z.ltb_ge in Hi. assert (Heq : i = spec.decimal_value ds) by lia.
    revert Hr. rewrite Heq. intros Hr. by apply spec.numeral_unsigned.
Qed.

(** [Atoi] reads back what [Itoa] writes. *)
Lemma Atoi_Itoa i : spec.in_int_range i -> strconv.Atoi (strconv.Itoa i) = Some i.
Proof. intros. by apply Atoi_spec, Itoa_numeral. Qed.

End Strconv.

Section Splitting.
Implicit Types s t sub sep : gostring.

Lemma index_in_range {A} (l : list A) (i : Z) (a : A) :
  0 <= i -> l !! Z.to_nat i = Some a -> index l i = Ok a.
Proof.
  intros Hi Hl. unfold index, len. apply lookup_lt_Some in Hl as Hlt.
  rewrite Hl. replace (i <? 0) with false by lia.
  by replace (Z.of_nat (length l) <=? i) with false by lia.
Qed.

Lemma index_out_of_range {A} (l : list A) (i : Z) :
  i < 0 \/ len l <= i -> index l i = Panic (IndexOutOfRange i (len l)).
Proof.
  intros Hi. unfold index.
  destruct (i <? 0) eqn:H1; [done|]. destruct (len l <=? i) eqn:H2; [done|]. lia.
Qed.

Lemma index_0 {A} (x : A) (l : list A) : index (x :: l) 0 = Ok x.
Proof. by apply index_in_range. Qed.

Lemma index_1 {A} (x y : A) (l : list A) : index (x :: y :: l) 1 = Ok y.
Proof. by apply index_in_range. Qed.

(** The first part of a split is the text before the first separator. *)
Lemma genSplit_head n s sep :
  (length s <= n)%nat -> sep <> [] ->
  exists rest, strings.genSplit n s sep = spec.before sep s :: rest.
Proof.
  intros Hn Hsep. unfold spec.before. destruct n as [|n]; simpl.
  - destruct s; [|simpl in Hn; lia].
    assert (strings.Index [] sep = None) as ->; [|by exists []].
    by destruct sep.
  - destruct (strings.Index s sep); eauto.
Qed.

Lemma Split_head s sep :
  sep <> [] -> exists rest, strings.Split s sep = spec.before sep s :: rest.
Proof. intros. by apply genSplit_head. Qed.

(** When the separator occurs, the second part is the text between its
    first two occurrences. *)
Lemma Split_second s sep :
  sep <> [] -> strings.Contains s sep = true ->
  exists rest,
    strings.Split s sep = spec.before sep s :: spec.before sep (spec.after sep s) :: rest.
Proof.
  intros Hsep [m Hm]%Contains_true. unfold strings.Split, spec.before at 1, spec.after.
  pose proof (Index_Some_bound _ _ _ Hm) as Hb.
  assert (length sep <> O) by (by destruct sep).
  destruct (length s) as [|n] eqn:Hl; [lia|]. simpl. rewrite Hm.
  destruct (genSplit_head n (drop (m + length sep) s) sep) as [rest Hrest]; [|done|].
  - rewrite length_drop. lia.
  - rewrite Hrest. eauto.
Qed.

(** *** TrimSpace on text bounded by plain ASCII *)

Lemma scan_space_skip l s :
  Forall spec.is_ascii_space l -> strings.scan_space (l ++ s) = strings.scan_space s.
Proof.
  induction 1 as [|c l [Hc Hs] _ IH]; [done|]. simpl.
  unfold utf8.RuneSelf. destruct (128 <=? byte_val c) eqn:H; [lia|]. by rewrite Hs.
Qed.

Lemma scan_space_stop c t :
  spec.is_plain c -> strings.scan_space (c :: t) = strings.Stop (c :: t).
Proof.
  intros [Hc Hs]. simpl. unfold utf8.RuneSelf.
  destruct (128 <=? byte_val c) eqn:H; [lia|]. by rewrite Hs.
Qed.

Lemma TrimSpace_between l r c t d :
  Forall spec.is_ascii_space l -> Forall spec.is_ascii_space r ->
  spec.is_plain c -> spec.is_plain d ->
  forall s, s = c :: t -> (exists t', s = t' ++ [d]) ->
  strings.TrimSpace (l ++ s ++ r) = s.
Proof.
  intros Hl Hr Hc Hd s -> [t' Ht']. unfold strings.TrimSpace.
  rewrite scan_space_skip by done. simpl app.
  rewrite (scan_space_stop c (t ++ r) Hc).
  change (c :: t ++ r) with ((c :: t) ++ r). rewrite Ht', rev_app_distr.
  rewrite scan_space_skip by (by apply Forall_rev).
  rewrite rev_app_distr. simpl rev at 1. simpl app.
  rewrite (scan_space_stop d (rev t') Hd).
  change (d :: rev t') with (rev [d] ++ rev t'). by rewrite <- rev_app_distr, rev_involutive.
Qed.

Lemma is_digit_plain c : spec.is_digit c -> spec.is_plain c.
Proof.
  unfold spec.is_digit, spec.is_plain, strings.asciiSpace. intros H. split; [lia|].
  repeat (apply orb_false_intro); lia.
Qed.

Lemma minus_plain : spec.is_plain "-"%char.
Proof. done. Qed.

Lemma space_is_space : spec.is_ascii_space " "%char.
Proof. done. Qed.

(** The text [Itoa] writes starts and ends with a plain byte, and holds no
    ['#']. *)
Lemma Itoa_bounds i :
  exists c t d t', strconv.Itoa i = c :: t /\ strconv.Itoa i = t' ++ [d] /\
                   spec.is_plain c /\ spec.is_plain d /\ "#"%char ∉ strconv.Itoa i.
Proof.
  destruct (Itoa_shape i) as (ds & Hne & HF & _ & ->).
  destruct (exists_last Hne) as (t' & d & ->).
  assert (Hd : spec.is_plain d).
  { apply is_digit_plain. apply Forall_app in HF as [_ HF]. by inversion HF. }
  assert (Hno : "#"%char ∉ t' ++ [d]).
  { intros Hin. rewrite Forall_forall in HF. apply HF in Hin.
    unfold spec.is_digit in Hin. change (byte_val "#"%char) with 35 in Hin. lia. }
  destruct (i <? 0).
  - exists "-"%char, (t' ++ [d]), d, ("-"%char :: t').
    split; [done|]. split; [done|]. split; [exact minus_plain|]. split; [exact Hd|].
    by apply not_elem_of_cons.
  - destruct t' as [|c t'].
    + exists d, [], d, []. by repeat (split; [done|]).
    + exists c, (t' ++ [d]), d, (c :: t').
      split; [done|]. split; [done|]. split; [|by split].
      apply is_digit_plain. by inversion HF.
Qed.

Lemma HasPrefix_singleton s c k :
  strings.HasPrefix (drop k s) [c] = true <-> s !! k = Some c.
Proof.
  pose proof (lookup_drop s k 0) as Hl. rewrite Nat.add_0_r in Hl. rewrite <- Hl.
  destruct (drop k s) as [|x l]; simpl; [done|].
  rewrite andb_true_r, bool_decide_eq_true. split; [by intros -> | by intros [= ->]].
Qed.

Lemma Index_byte_fresh pre c post :
  c ∉ pre -> strings.Index (pre ++ [c] ++ post) [c] = Some (length pre).
Proof.
  intros Hno. apply Index_app_found. intros k Hk.
  destruct (strings.HasPrefix _ _) eqn:Hp; [|done].
  apply HasPrefix_singleton in Hp. rewrite lookup_app_l in Hp by done.
  apply list_elem_of_lookup_2 in Hp. done.
Qed.

Lemma before_fresh pre c post : c ∉ pre -> spec.before [c] (pre ++ [c] ++ post) = pre.
Proof.
  intros H. unfold spec.before. rewrite Index_byte_fresh by done. by rewrite take_app_length.
Qed.

Lemma before_absent s c : c ∉ s -> spec.before [c] s = s.
Proof.
  intros H. unfold spec.before. destruct (strings.Index s [c]) as [m|] eqn:Hm; [|done].
  apply Index_Some_split in Hm. exfalso. apply H. rewrite Hm.
  rewrite !elem_of_app. right; left. by apply list_elem_of_singleton.
Qed.

End Splitting.

Section ExtractIndex.
Context {E : Env}.

(** A string reference is resolved from its text before the first ['#']
    (all of it when there is none), white space trimmed. *)
Lemma extractIndex_string s :
  services.extractIndex (yaml.VString s)
  = services.atoi (strings.TrimSpace (spec.before (str "#") s)).
Proof.
  unfold services.extractIndex.
  destruct (strings.Contains s (str "#")) eqn:Hc.
  - destruct (Split_head s (str "#")) as [rest ->]; [done|]. by rewrite index_0.
  - apply Contains_false in Hc. unfold spec.before. by rewrite Hc.
Qed.

Lemma atoi_Ok s n : services.atoi s = Ok n <-> spec.numeral s n.
Proof.
  rewrite <- Atoi_spec. unfold services.atoi.
  destruct (strconv.Atoi s); split; intros H; by simplify_eq.
Qed.

Lemma extractIndex_Itoa n :
  spec.in_int_range n -> services.extractIndex (yaml.VString (strconv.Itoa n)) = Ok n.
Proof.
  intros Hr. rewrite extractIndex_string.
  destruct (Itoa_bounds n) as (c & t & d & t' & Hs & He & Hc & Hd & Hno).
  change (str "#") with ["#"%char]. rewrite before_absent by done.
  rewrite <- (app_nil_r (strconv.Itoa n)), <- (app_nil_l (strconv.Itoa n ++ [])).
  rewrite (TrimSpace_between [] [] c t d); eauto.
  apply atoi_Ok. by apply Itoa_numeral.
Qed.

Lemma extractIndex_annotated n trailing :
  spec.in_int_range n ->
  services.extractIndex (yaml.VString (strconv.Itoa n ++ str " # " ++ trailing)) = Ok n.
Proof.
  intros Hr. rewrite extractIndex_string.
  destruct (Itoa_bounds n) as (c & t & d & t' & Hs & He & Hc & Hd & Hno).
  change (str "#") with ["#"%char].
  change (str " # " ++ trailing) with ([" "%char] ++ ["#"%char] ++ (" "%char :: trailing)).
  rewrite app_assoc. rewrite before_fresh.
  - rewrite <- (app_nil_l (strconv.Itoa n ++ [" "%char])).
    rewrite (TrimSpace_between [] [" "%char] c t d); eauto.
    + apply atoi_Ok. by apply Itoa_numeral.
    + apply Forall_singleton, space_is_space.
  - apply not_elem_of_app. split; [done|].
    apply not_elem_of_cons. split; [done | apply not_elem_of_nil].
Qed.

End ExtractIndex.

Section Monad.
Context {E : Env}.

Lemma bind_Ok {A B} (m : M A) (k : A -> M B) w a w' :
  m w = (Ok a, w') -> bind m k w = k a w'.
Proof. unfold bind. by intros ->. Qed.

Lemma bind_Err {A B} (m : M A) (k : A -> M B) w e w' :
  m w = (Err e, w') -> bind m k w = (Err e, w').
Proof. unfold bind. by intros ->. Qed.

Lemma bind_Panic {A B} (m : M A) (k : A -> M B) w p w' :
  m w = (Panic p, w') -> bind m k w = (Panic p, w').
Proof. unfold bind. by intros ->. Qed.

Lemma len_nil {A} : len (@nil A) = 0.
Proof. done. Qed.

Lemma len_cons {A} (x : A) l : len (x :: l) = len l + 1.
Proof. unfold len. simpl length. lia. Qed.

Lemma len_app {A} (l k : list A) : len (l ++ k) = len l + len k.
Proof. unfold len. rewrite length_app. lia. Qed.

Lemma len_nonneg {A} (l : list A) : 0 <= len l.
Proof. unfold len. lia. Qed.

End Monad.

Section Order.
Context {E : Env}.

Lemma in_bounds_false idx n :
  (idx <? 0) || (n <=? idx) = false <-> 0 <= idx < n.
Proof. lia. Qed.

Lemma in_bounds_true idx n :
  (idx <? 0) || (n <=? idx) = true <-> ~ (0 <= idx < n).
Proof. lia. Qed.

(** The loop passes over an accepted prefix and goes on with what follows,
    at the position and with the [seen] the prefix leaves. *)
Lemma order_loop_app n i seen pre idxs rest :
  spec.accepted n pre idxs -> (forall x, x ∈ idxs -> x ∉ seen) ->
  services.order_loop n i seen (pre ++ rest) =
    (more <-r services.order_loop n (i + len pre) (list_to_set idxs ∪ seen) rest ;;
     Ok (idxs ++ more.1, more.2)).
Proof.
  intros (Hr & Hin & Hnd). revert i seen Hin Hnd.
  induction Hr as [|v idx pre idxs Hv Hr IH]; intros i seen Hin Hnd Hd.
  - simpl. rewrite len_nil, Z.add_0_r, (left_id_L ∅ (∪) seen).
    by destruct (services.order_loop n i seen rest) as [[??]| |].
  - simpl. rewrite Hv. inversion Hin; inversion Hnd; subst.
    replace ((idx <? 0) || (n <=? idx)) with false by lia.
    rewrite bool_decide_eq_false_2 by (apply Hd; left).
    rewrite IH; [|done|done|].
    + rewrite len_cons. replace (i + 1 + len pre) with (i + (len pre + 1)) by lia.
      replace (list_to_set idxs ∪ ({[idx]} ∪ seen)) with (list_to_set (idx :: idxs) ∪ seen)
        by set_solver.
      by destruct (services.order_loop _ _ _ rest) as [[??]| |].
    + intros x Hx. specialize (Hd x ltac:(by right)). set_solver.
Qed.

(** What the loop returns are the indices its references resolve to, in
    bounds, distinct from one another and from those already seen, and
    [seen] grown by them. *)
Lemma order_loop_Ok_inv n i seen vals idxs seen' :
  services.order_loop n i seen vals = Ok (idxs, seen') ->
  spec.accepted n vals idxs /\ (forall x, x ∈ idxs -> x ∉ seen) /\
  seen' = list_to_set idxs ∪ seen.
Proof.
  revert i seen idxs seen'. induction vals as [|v vals IH]; intros i seen idxs seen'; simpl.
  - intros [= <- <-]. split; [|split]; [| |set_solver].
    + split; [constructor|]. split; constructor.
    + intros x Hx. by apply elem_of_nil in Hx.
  - destruct (services.extractIndex v) as [idx|e|p] eqn:Hv; [|done..].
    destruct ((idx <? 0) || (n <=? idx)) eqn:Hb; [done|].
    apply in_bounds_false in Hb. case_bool_decide as Hs; [done|].
    destruct (services.order_loop n (i + 1) ({[idx]} ∪ seen) vals) as [[more seen'']|e|p] eqn:Hl;
      simpl; [|done..].
    apply IH in Hl as ((Hr & Hin & Hnd) & Hd & ->). intros [= <- <-].
    split; [split; [|split]|split].
    + by constructor.
    + by constructor.
    + constructor; [|done]. intros Hm. apply Hd in Hm. set_solver.
    + intros x [->|Hx]%elem_of_cons; [done|]. apply Hd in Hx. set_solver.
    + set_solver.
Qed.

Lemma order_loop_Ok n i seen vals idxs :
  spec.accepted n vals idxs -> (forall x, x ∈ idxs -> x ∉ seen) ->
  services.order_loop n i seen vals = Ok (idxs, list_to_set idxs ∪ seen).
Proof.
  intros Ha Hd. rewrite <- (app_nil_r vals), (order_loop_app n i seen vals idxs []) by done.
  simpl. by rewrite app_nil_r.
Qed.

Lemma resolves_functional vals idxs idxs' :
  spec.resolves vals idxs -> spec.resolves vals idxs' -> idxs = idxs'.
Proof.
  intros H. revert idxs'. induction H as [|v idx vals idxs Hv _ IH]; intros idxs' H';
    inversion H' as [|? idx' ? ? Hv']; subst; [done|].
  f_equal; [congruence | by apply IH].
Qed.

(** Distinct indices within [0, n), [n] of them, are a permutation of
    [0 .. n-1]; and conversely. *)
Lemma permutation_range n idxs :
  0 <= n ->
  idxs ≡ₚ seqZ 0 n <->
  Forall (fun idx => 0 <= idx < n) idxs /\ NoDup idxs /\ len idxs = n.
Proof.
  intros Hn. split.
  - intros Hp. split; [|split].
    + rewrite Hp. apply Forall_forall. intros x Hx%elem_of_seqZ. lia.
    + rewrite Hp. apply NoDup_seqZ.
    + unfold len. rewrite Hp, length_seqZ. lia.
  - intros (Hin & Hnd & Hlen). apply submseteq_length_Permutation.
    + apply NoDup_submseteq; [done|]. intros x Hx. rewrite Forall_forall in Hin.
      apply elem_of_seqZ. specialize (Hin x Hx). lia.
    + rewrite length_seqZ. unfold len in Hlen. lia.
Qed.

Lemma missing_indices_spec n seen i :
  i ∈ services.missing_indices n seen <-> 0 <= i < n /\ i ∉ seen.
Proof.
  unfold services.missing_indices. rewrite list_elem_of_filter, elem_of_seqZ.
  split; intros [? ?]; (split; [done || lia | done || lia]).
Qed.

(** Fewer than [n] distinct indices within [0, n) leave one out. *)
Lemma missing_nonempty n idxs :
  0 <= n -> Forall (fun idx => 0 <= idx < n) idxs -> NoDup idxs -> len idxs <> n ->
  exists i, 0 <= i < n /\ i ∉ idxs.
Proof.
  intros Hn Hin Hnd Hlen.
  assert (Hsub : idxs ⊆+ seqZ 0 n).
  { apply NoDup_submseteq; [done|]. intros x Hx. rewrite Forall_forall in Hin.
    apply elem_of_seqZ. specialize (Hin x Hx). lia. }
  destruct (decide (Forall (fun i => i ∈ idxs) (seqZ 0 n))) as [Hall|Hex].
  - exfalso. apply Hlen.
    assert (seqZ 0 n ⊆+ idxs) as Hsub'.
    { apply NoDup_submseteq; [apply NoDup_seqZ|]. by apply Forall_forall. }
    apply submseteq_length in Hsub, Hsub'. rewrite length_seqZ in *. unfold len. lia.
  - apply not_Forall_Exists in Hex; [|apply _]. apply Exists_exists in Hex as (i & Hi & Hni).
    exists i. apply elem_of_seqZ in Hi. split; [lia | done].
Qed.

End Order.

Section OrderChapters.
Context {E : Env}.

(** Once the generator has answered, the handler's result is what the
    answer decodes and validates to. *)
Lemma OrderChapters_answered input w w' prompt response :
  len (types.oci_Abstractions input) <> 0 ->
  services.OrderChapters_prompt input = Ok prompt ->
  services.ask prompt services.OrderChapters_system w = (Ok response, w') ->
  services.OrderChapters input w = (services.order_of_response input response, w').
Proof.
  intros Hn Hp Ha. unfold services.OrderChapters.
  destruct (len (types.oci_Abstractions input) =? 0) eqn:H0; [lia|].
  rewrite Hp. unfold bind at 1, lift at 1.
  fold services.OrderChapters_system. erewrite bind_Ok by exact Ha. done.
Qed.

Lemma validate_order_Ok input vals order :
  services.validate_order input vals = Ok {| types.oco_OrderedIndices := order |} <->
  spec.resolves vals order /\ order ≡ₚ seqZ 0 (len (types.oci_Abstractions input)).
Proof.
  unfold services.validate_order. set (n := len (types.oci_Abstractions input)).
  assert (Hn : 0 <= n) by apply len_nonneg. rewrite permutation_range by done. split.
  - destruct (services.order_loop n 0 ∅ vals) as [[idxs seen]|e|p] eqn:Hl; simpl; [|done..].
    apply order_loop_Ok_inv in Hl as ((Hr & Hin & Hnd) & _ & _).
    case_bool_decide as Hlen; [done|]. intros [= <-]. done.
  - intros (Hr & Hin & Hnd & Hlen).
    rewrite (order_loop_Ok n 0 ∅ vals order); [|done|set_solver]. simpl.
    by rewrite bool_decide_eq_false_2 by (by intros ?).
Qed.

Lemma validate_order_missing input vals idxs :
  let n := len (types.oci_Abstractions input) in
  spec.accepted n vals idxs -> len idxs <> n ->
  services.validate_order input vals
  = Err (ErrMissingAbstractions (filter (fun i => i ∉ idxs) (seqZ 0 n))).
Proof.
  intros n Ha Hlen. unfold services.validate_order. fold n.
  rewrite (order_loop_Ok n 0 ∅ vals idxs); [|done|set_solver]. simpl.
  rewrite bool_decide_eq_true_2 by done. do 2 f_equal.
  unfold services.missing_indices. apply list_filter_iff. intros x. set_solver.
Qed.

(** What the handler answers when the reference that follows an accepted
    prefix is the first one at fault. *)
Lemma validate_order_at input pre idxs v post :
  let n := len (types.oci_Abstractions input) in
  spec.accepted n pre idxs ->
  (forall err, services.extractIndex v = Err err ->
     services.validate_order input (pre ++ v :: post)
     = Err (ErrExtractIndexAt (len pre) err)) /\
  (forall idx, services.extractIndex v = Ok idx -> ~ (0 <= idx < n) ->
     services.validate_order input (pre ++ v :: post)
     = Err (ErrIndexOutOfBounds idx (len pre))) /\
  (forall idx, services.extractIndex v = Ok idx -> 0 <= idx < n -> idx ∈ idxs ->
     services.validate_order input (pre ++ v :: post)
     = Err (ErrDuplicateIndex idx)).
Proof.
  intros n Ha. unfold services.validate_order. fold n.
  rewrite (order_loop_app n 0 ∅ pre idxs) by (done || set_solver).
  simpl. rewrite (right_id_L ∅ (∪)). split; [|split].
  - by intros err ->.
  - intros idx -> Hb. apply in_bounds_true in Hb. by rewrite Hb.
  - intros idx -> Hb Hi. apply in_bounds_false in Hb. rewrite Hb.
    rewrite bool_decide_eq_true_2 by set_solver. done.
Qed.

End OrderChapters.

Section Relationships.
Context {E : Env}.

Lemma convert_relationships_app n i pre rels rest :
  Forall2 (spec.edge_accepted n) pre rels ->
  services.convert_relationships n i (pre ++ rest) =
    (more <-r services.convert_relationships n (i + len pre) rest ;; Ok (rels ++ more)).
Proof.
  intros H. revert i. induction H as [|yr rel pre rels Hyr _ IH]; intros i.
  - simpl. rewrite len_nil, Z.add_0_r. by destruct (services.convert_relationships n i rest).
  - destruct Hyr as ((Hf & Ht) & (Hbf & Hbt) & Hl). simpl in Hf, Ht, Hbf, Hbt.
    simpl. rewrite Hf, Ht. apply in_bounds_false in Hbf, Hbt. rewrite Hbf, Hbt.
    rewrite IH, len_cons. replace (i + 1 + len pre) with (i + (len pre + 1)) by lia.
    destruct (services.convert_relationships _ _ rest); simpl; [|done..].
    destruct rel; simpl in *. by subst.
Qed.

Lemma convert_relationships_Ok n i details rels :
  Forall2 (spec.edge_accepted n) details rels ->
  services.convert_relationships n i details = Ok rels.
Proof.
  intros H. rewrite <- (app_nil_r details), (convert_relationships_app n i details rels []) by done.
  simpl. by rewrite app_nil_r.
Qed.

Lemma convert_relationships_Ok_inv n i details rels :
  services.convert_relationships n i details = Ok rels ->
  Forall2 (spec.edge_accepted n) details rels.
Proof.
  revert i rels. induction details as [|yr details IH]; intros i rels; simpl.
  - intros [= <-]. constructor.
  - destruct (services.extractIndex (yaml.yr_From yr)) as [fromIdx| |] eqn:Hf; [|done..].
    destruct (services.extractIndex (yaml.yr_To yr)) as [toIdx| |] eqn:Ht; [|done..].
    destruct ((fromIdx <? 0) || (n <=? fromIdx)) eqn:Hbf; [done|].
    destruct ((toIdx <? 0) || (n <=? toIdx)) eqn:Hbt; [done|].
    destruct (services.convert_relationships n (i + 1) details) as [more| |] eqn:Hm; [|done..].
    simpl. intros [= <-]. constructor; [|by eapply IH].
    apply in_bounds_false in Hbf, Hbt.
    split; [by split|]. split; [by split|done].
Qed.

(** What the handler answers when the edge that follows an accepted prefix
    is the first one at fault. *)
Lemma convert_relationships_at n pre rels yr post :
  Forall2 (spec.edge_accepted n) pre rels ->
  services.convert_relationships n 0 (pre ++ yr :: post) =
    match services.extractIndex (yaml.yr_From yr) with
    | Err err => Err (ErrInvalidFromIndex (len pre) err)
    | Panic p => Panic p
    | Ok fromIdx =>
      match services.extractIndex (yaml.yr_To yr) with
      | Err err => Err (ErrInvalidToIndex (len pre) err)
      | Panic p => Panic p
      | Ok toIdx =>
        if (fromIdx <? 0) || (n <=? fromIdx) then Err (ErrFromOutOfBounds fromIdx (len pre))
        else if (toIdx <? 0) || (n <=? toIdx) then Err (ErrToOutOfBounds toIdx (len pre))
        else services.convert_relationships n 0 (pre ++ yr :: post)
      end
    end.
Proof.
  intros H. rewrite (convert_relationships_app n 0 pre rels) by done. simpl.
  destruct (services.extractIndex (yaml.yr_From yr)) as [fromIdx| |]; [|done..].
  destruct (services.extractIndex (yaml.yr_To yr)) as [toIdx| |]; [|done..].
  destruct ((fromIdx <? 0) || (n <=? fromIdx)) eqn:Hbf; [done|].
  destruct ((toIdx <? 0) || (n <=? toIdx)) eqn:Hbt; [done|]. done.
Qed.

Lemma AnalyzeRelationships_answered input w w' prompt response :
  len (types.ari_Abstractions input) <> 0 ->
  services.AnalyzeRelationships_prompt input = Ok prompt ->
  services.ask prompt services.AnalyzeRelationships_system w = (Ok response, w') ->
  services.AnalyzeRelationships input w
  = (services.relationships_of_response input response, w').
Proof.
  intros Hn Hp Ha. unfold services.AnalyzeRelationships.
  destruct (len (types.ari_Abstractions input) =? 0) eqn:H0; [lia|].
  rewrite Hp. unfold bind at 1, lift at 1.
  fold services.AnalyzeRelationships_system. erewrite bind_Ok by exact Ha. done.
Qed.

Lemma edges_resolve_ends details rels :
  Forall2 (fun yr rel => spec.edge_resolves yr (types.rel_FromIndex rel, types.rel_ToIndex rel))
    details rels ->
  forall ends, Forall2 spec.edge_resolves details ends ->
  ends = map (fun rel => (types.rel_FromIndex rel, types.rel_ToIndex rel)) rels.
Proof.
  induction 1 as [|yr rel details rels [Hf Ht] _ IH]; intros ends He;
    inversion He as [|? [f t] ? ? [Hf' Ht']]; subst; [done|].
  simpl in *. f_equal; [|by apply IH]. f_equal; congruence.
Qed.

End Relationships.

Section YamlContent.

Lemma len_gt_1 {A} (x y : A) l : (1 <? len (x :: y :: l)) = true.
Proof. unfold len. simpl length. apply Z.ltb_lt. lia. Qed.

Lemma yamlContent_candidate response :
  services.yamlContent response = Ok (spec.candidate response).
Proof.
  unfold services.yamlContent, spec.candidate.
  destruct (strings.Contains response (str "```yaml")) eqn:Hy.
  - destruct (Split_second response (str "```yaml")) as [rest ->]; [done|done|].
    rewrite len_gt_1, index_1. cbn [rbind].
    destruct (Split_head (spec.before (str "```yaml") (spec.after (str "```yaml") response)) fence)
      as [rest' ->]; [done|].
    by rewrite index_0.
  - destruct (strings.Contains response fence) eqn:Hf; [|done].
    destruct (Split_second response fence) as [rest ->]; [done|done|].
    by rewrite len_gt_1, index_1.
Qed.

End YamlContent.

Section Sanitize.
Context {E : Env}.
Import spec.

Lemma sanitize_rune_range r :
  let r' := utils.sanitize_rune r in
  (97 <= r' <= 122) \/ (48 <= r' <= 57) \/ r' = 95.
Proof.
  unfold utils.sanitize_rune.
  destruct (((97 <=? r) && (r <=? 122)) || ((48 <=? r) && (r <=? 57))) eqn:H; simpl; lia.
Qed.

Lemma EncodeRune_ascii r : 0 <= r <= 127 -> utf8.EncodeRune r = [byte_of r].
Proof.
  intros Hr. unfold utf8.EncodeRune, utf8.rune1Max.
  rewrite Z.mod_small by lia. by replace (r <=? 127) with true by lia.
Qed.

Lemma Map_sanitize s : strings.Map utils.sanitize_rune s = map_chars s.
Proof.
  unfold strings.Map, map_chars. induction (utf8.range s) as [|[i r] l IH]; [done|].
  simpl. rewrite IH. pose proof (sanitize_rune_range r) as Hr. simpl in Hr.
  replace (0 <=? utils.sanitize_rune r) with true by lia.
  rewrite EncodeRune_ascii by lia. done.
Qed.

Lemma map_chars_alphabet s : Forall is_filename_byte (map_chars s).
Proof.
  unfold map_chars. apply Forall_map, Forall_forall. intros [i r] _. simpl.
  pose proof (sanitize_rune_range r) as Hr. simpl in Hr. unfold is_filename_byte.
  destruct Hr as [Hr|[Hr|Hr]].
  - left. rewrite byte_val_of; lia.
  - right; left. rewrite byte_val_of; lia.
  - right; right. by rewrite Hr.
Qed.

(** *** The collapsing loop *)

Lemma HasPrefix_underscore s :
  strings.HasPrefix s (str "_") = starts_with_underscore s.
Proof. destruct s as [|c s]; [done|]. simpl. by rewrite andb_true_r. Qed.

Lemma HasPrefix_double s :
  strings.HasPrefix s (str "__")
  = match s with
    | c :: t => bool_decide (c = underscore) && starts_with_underscore t
    | [] => false
    end.
Proof.
  destruct s as [|c s]; [done|]. change (str "__") with (underscore :: str "_").
  cbn [strings.HasPrefix]. by rewrite HasPrefix_underscore.
Qed.

Lemma Contains_double s :
  strings.Contains s (str "__") = negb (no_double_underscore s).
Proof.
  induction s as [|c s IH].
  - done.
  - destruct (strings.Contains (c :: s) (str "__")) eqn:Hc.
    + apply Contains_true in Hc as [m Hm]. rewrite Index_cons, HasPrefix_double in Hm.
      simpl. destruct (bool_decide (c = underscore) && starts_with_underscore s); [done|].
      simpl. rewrite <- IH. symmetry. apply Contains_true.
      destruct (strings.Index s (str "__")); [eauto | done].
    + apply Contains_false in Hc. rewrite Index_cons, HasPrefix_double in Hc.
      simpl. destruct (bool_decide (c = underscore) && starts_with_underscore s); [done|].
      simpl. rewrite <- IH. symmetry. apply Contains_false.
      by destruct (strings.Index s (str "__")).
Qed.

Lemma collapse_starts s :
  starts_with_underscore (collapse s) = starts_with_underscore s.
Proof.
  induction s as [|c s IH]; [done|]. simpl.
  destruct (bool_decide (c = underscore)) eqn:Hc; simpl; [|by rewrite Hc].
  destruct (starts_with_underscore s) eqn:Hs; simpl; [|by rewrite Hc].
  by rewrite IH.
Qed.

Lemma collapse_no_double s : no_double_underscore (collapse s) = true.
Proof.
  induction s as [|c s IH]; [done|]. simpl.
  destruct (bool_decide (c = underscore) && starts_with_underscore s) eqn:H; [done|].
  simpl. rewrite collapse_starts, H, IH. done.
Qed.

Lemma collapse_fixed s : no_double_underscore s = true -> collapse s = s.
Proof.
  induction s as [|c s IH]; [done|]. simpl.
  destruct (bool_decide (c = underscore) && starts_with_underscore s); [done|].
  simpl. intros H. by rewrite IH.
Qed.

Lemma starts_app p x :
  starts_with_underscore (p ++ x)
  = match p with [] => starts_with_underscore x | _ => starts_with_underscore p end.
Proof. by destruct p. Qed.

Lemma collapse_app_congr p x y :
  starts_with_underscore x = starts_with_underscore y ->
  collapse x = collapse y ->
  collapse (p ++ x) = collapse (p ++ y).
Proof.
  intros Hs Hc. induction p as [|c p IH]; [done|]. simpl.
  rewrite !starts_app. destruct p; rewrite ?Hs, IH; done.
Qed.

Lemma replace_loop_collapse n s :
  starts_with_underscore (strings.replace_loop n s (str "__") (str "_"))
    = starts_with_underscore s /\
  collapse (strings.replace_loop n s (str "__") (str "_")) = collapse s.
Proof.
  revert s. induction n as [|n IH]; intros s; [done|]. cbn [strings.replace_loop].
  destruct (strings.Index s (str "__")) as [j|] eqn:Hj; [|done].
  pose proof (Index_Some_split _ _ _ Hj) as Hsplit.
  set (r := drop (j + length (str "__")) s) in *.
  destruct (IH r) as [IHs IHc]. split.
  - rewrite Hsplit at 2. rewrite !starts_app. by destruct (take j s).
  - rewrite Hsplit at 2. apply collapse_app_congr; [done|].
    change (collapse (underscore :: strings.replace_loop n r (str "__") (str "_"))
            = collapse (underscore :: underscore :: r)).
    cbn [collapse starts_with_underscore]. rewrite IHs, IHc.
    rewrite !bool_decide_eq_true_2 by done. done.
Qed.

Lemma replace_loop_length n s :
  (length (strings.replace_loop n s (str "__") (str "_")) <= length s)%nat.
Proof.
  revert s. induction n as [|n IH]; intros s; [done|]. cbn [strings.replace_loop].
  destruct (strings.Index s (str "__")) as [j|] eqn:Hj; [|done].
  pose proof (Index_Some_bound _ _ _ Hj) as Hb. simpl in Hb.
  change (length (str "__")) with 2%nat.
  rewrite !length_app, length_take. specialize (IH (drop (j + 2) s)).
  rewrite length_drop in IH. change (length (str "_")) with 1%nat. lia.
Qed.

Lemma ReplaceAll_collapse s :
  collapse (strings.ReplaceAll s (str "__") (str "_")) = collapse s.
Proof. apply replace_loop_collapse. Qed.

(** A round of the loop shortens a name that holds ["__"]. *)
Lemma ReplaceAll_shorter s :
  strings.Contains s (str "__") = true ->
  (length (strings.ReplaceAll s (str "__") (str "_")) < length s)%nat.
Proof.
  intros [j Hj]%Contains_true. unfold strings.ReplaceAll.
  pose proof (Index_Some_bound _ _ _ Hj) as Hb. simpl in Hb.
  destruct (length s) as [|n] eqn:Hl; [lia|]. cbn [strings.replace_loop]. rewrite Hj.
  change (length (str "__")) with 2%nat.
  rewrite !length_app, length_take.
  pose proof (replace_loop_length n (drop (j + 2) s)) as Hr.
  rewrite length_drop in Hr. change (length (str "_")) with 1%nat. lia.
Qed.

(** The loop ends within its bound, and what it leaves is the name with
    every run of underscores collapsed. *)
Lemma collapse_loop_collapse fuel name :
  (length name <= fuel)%nat -> utils.collapse_loop fuel name = collapse name.
Proof.
  revert name. induction fuel as [|fuel IH]; intros name Hf.
  - destruct name; [done | simpl in Hf; lia].
  - cbn [utils.collapse_loop]. destruct (strings.Contains name (str "__")) eqn:Hc.
    + rewrite IH, ReplaceAll_collapse; [done|].
      apply ReplaceAll_shorter in Hc. lia.
    + rewrite Contains_double in Hc. symmetry. apply collapse_fixed.
      by destruct (no_double_underscore name).
Qed.

(** *** Trimming *)

Lemma trimLeft_underscore s : strings.trimLeftASCII s (str "_") = drop_underscores s.
Proof.
  induction s as [|c s IH]; [done|]. cbn [strings.trimLeftASCII drop_underscores].
  rewrite IH. destruct (decide (c = underscore)) as [->|Hc].
  - by rewrite !bool_decide_eq_true_2 by (done || by apply list_elem_of_singleton).
  - rewrite !bool_decide_eq_false_2; [done | done |].
    intros Hin. by apply list_elem_of_singleton in Hin.
Qed.

Lemma drop_underscores_spec s :
  exists u, Forall (fun c => c = underscore) u /\ s = u ++ drop_underscores s /\
            starts_with_underscore (drop_underscores s) = false.
Proof.
  induction s as [|c s (u & Hu & Hs & Hd)].
  - by exists [].
  - simpl. case_bool_decide as Hc.
    + exists (c :: u). split; [by constructor|]. split; [by rewrite Hs at 1 | done].
    + exists []. split; [done|]. split; [done|]. simpl. by rewrite bool_decide_eq_false_2.
Qed.

Lemma drop_underscores_app u x :
  Forall (fun c => c = underscore) u -> drop_underscores (u ++ x) = drop_underscores x.
Proof. induction 1 as [|c u -> _ IH]; [done|]. by simpl. Qed.

Lemma drop_underscores_id x :
  starts_with_underscore x = false -> drop_underscores x = x.
Proof. destruct x as [|c x]; [done|]. simpl. by intros ->. Qed.

Lemma drop_underscores_all u :
  Forall (fun c => c = underscore) u -> drop_underscores u = [].
Proof. intros. by rewrite <- (app_nil_r u), drop_underscores_app. Qed.

Lemma starts_all_underscores u :
  Forall (fun c => c = underscore) u -> starts_with_underscore u = false -> u = [].
Proof. destruct 1 as [|c u ->]; [done|]. by simpl. Qed.

(** Dropping the underscores of one end, then of the other, leaves the
    middle of the name, whichever end comes first. *)
Lemma trim_middle s :
  exists u1 u2,
    Forall (fun c => c = underscore) u1 /\ Forall (fun c => c = underscore) u2 /\
    s = u1 ++ trim s ++ u2 /\
    starts_with_underscore (trim s) = false /\
    starts_with_underscore (rev (trim s)) = false /\
    strings.Trim s (str "_") = trim s.
Proof.
  unfold strings.Trim, strings.trimRightASCII, trim. rewrite !trimLeft_underscore.
  destruct (drop_underscores_spec s) as (u1 & Hu1 & Hs & Ht).
  remember (drop_underscores s) as t eqn:Heqt. clear Heqt.
  destruct (drop_underscores_spec (rev t)) as (u2 & Hu2 & Hrt & Hm).
  remember (drop_underscores (rev t)) as m eqn:Heqm. clear Heqm.
  assert (Htm : t = rev m ++ rev u2).
  { by rewrite <- rev_app_distr, <- Hrt, rev_involutive. }
  assert (Hrm : starts_with_underscore (rev m) = false).
  { destruct (rev m) as [|c k] eqn:Hk; [done|]. rewrite Htm in Ht. done. }
  exists u1, (rev u2). split; [done|]. split; [by apply Forall_rev|].
  split; [by rewrite Hs, Htm|]. split; [done|]. split; [by rewrite rev_involutive|].
  rewrite Hs, rev_app_distr, Hrt, <- app_assoc.
  rewrite drop_underscores_app by done.
  destruct m as [|c m'].
  - simpl in *. by rewrite (drop_underscores_all (rev u1)) by (by apply Forall_rev).
  - rewrite (drop_underscores_id ((c :: m') ++ rev u1)) by done.
    rewrite rev_app_distr, rev_involutive.
    rewrite drop_underscores_app by done. by rewrite drop_underscores_id.
Qed.

Lemma no_double_spec s :
  no_double_underscore s = true <->
  ~ exists pre post, s = pre ++ str "__" ++ post.
Proof.
  rewrite <- Contains_spec, Contains_double. by destruct (no_double_underscore s).
Qed.

Lemma no_double_infix a s b :
  no_double_underscore (a ++ s ++ b) = true -> no_double_underscore s = true.
Proof.
  rewrite !no_double_spec. intros H (pre & post & ->). apply H.
  exists (a ++ pre), (post ++ b). by rewrite <- !app_assoc.
Qed.

End Sanitize.

Section SanitizeFilename.
Context {E : Env}.
Import spec.

Lemma SanitizeFilename_sanitize name : utils.SanitizeFilename name = sanitize name.
Proof.
  unfold utils.SanitizeFilename, sanitize. rewrite Map_sanitize.
  rewrite collapse_loop_collapse by done.
  by destruct (trim_middle (collapse (map_chars (strings.ToLower unicode_ToLower name))))
    as (? & ? & _ & _ & _ & _ & _ & ->).
Qed.

Lemma collapse_alphabet s : Forall is_filename_byte s -> Forall is_filename_byte (collapse s).
Proof.
  induction 1 as [|c s Hc _ IH]; [done|]. simpl.
  destruct (bool_decide (c = underscore) && starts_with_underscore s); [done | by constructor].
Qed.

Lemma last_head_rev {A} (l : list A) : last l = head (rev l).
Proof.
  induction l as [|x l _] using rev_ind; [done|].
  by rewrite last_snoc, rev_app_distr.
Qed.

Lemma sanitize_properties name :
  Forall is_filename_byte (sanitize name) /\
  no_double_underscore (sanitize name) = true /\
  head (sanitize name) <> Some underscore /\
  last (sanitize name) <> Some underscore.
Proof.
  unfold sanitize. set (x := collapse (map_chars (strings.ToLower unicode_ToLower name))).
  assert (Hx : Forall is_filename_byte x) by apply collapse_alphabet, map_chars_alphabet.
  assert (Hd : no_double_underscore x = true) by apply collapse_no_double.
  destruct (trim_middle x) as (u1 & u2 & _ & _ & Heq & Hh & Hl & _).
  split; [|split; [|split]].
  - rewrite Heq in Hx. by apply Forall_app in Hx as [_ [Hx _]%Forall_app].
  - rewrite Heq in Hd. by apply no_double_infix in Hd.
  - destruct (trim x) as [|c t]; [done|]. simpl in *. intros [= ->].
    by rewrite bool_decide_eq_true_2 in Hh.
  - rewrite last_head_rev. destruct (rev (trim x)) as [|c t]; [done|]. simpl in *.
    intros [= ->]. by rewrite bool_decide_eq_true_2 in Hl.
Qed.

Lemma SanitizeFilename_examples :
  utils.SanitizeFilename (str "Node Abstraction!") = str "node_abstraction" /\
  utils.SanitizeFilename (str "__A--B__") = str "a_b".
Proof. split; reflexivity. Qed.

End SanitizeFilename.

Section Fmt.
Import spec.

Lemma verb_02d_two_digits n :
  0 <= n <= 99 -> fmt.verb_02d (fmt.AInt n) = two_digits n.
Proof.
  intros Hn.
  assert (H : Forall (fun n => fmt.verb_02d (fmt.AInt n) = two_digits n) (seqZ 0 100)).
  { apply (bool_decide_unpack _). by vm_compute. }
  rewrite Forall_forall in H. apply H, elem_of_seqZ. lia.
Qed.

End Fmt.

Section Filenames.
Context {E : Env}.
Import spec.

Lemma chapter_filename_eq chapter :
  services.chapter_filename chapter
  = fmt.verb_02d (fmt.AInt (types.wco_ChapterNumber chapter)) ++ str "_"
    ++ utils.SanitizeFilename (types.wco_Title chapter) ++ str ".md".
Proof. done. Qed.

Lemma write_chapters_Ok outputDir chapters w files w' :
  services.write_chapters outputDir chapters w = (Ok files, w') ->
  files = map (fun c => filepath_Join outputDir (services.chapter_filename c)) chapters.
Proof.
  revert w files. induction chapters as [|c chapters IH]; intros w files; simpl.
  - by intros [= <- <-].
  - unfold bind at 1, wrap, services.WriteFile.
    destruct (os_WriteFile _ _ _); [done|].
    unfold bind.
    destruct (services.write_chapters outputDir chapters _) as [[more| |] w''] eqn:Hm; [|done..].
    unfold ret. intros [= <- <-]. f_equal. by eapply IH.
Qed.

End Filenames.

Section Prompt.
Context {E : Env}.
Import spec.

Lemma Contains_app_l s t sub :
  strings.Contains s sub = true -> strings.Contains (s ++ t) sub = true.
Proof.
  rewrite !Contains_spec. intros (pre & post & ->). exists pre, (post ++ t).
  by rewrite <- !app_assoc.
Qed.

Lemma Contains_app_r s t sub :
  strings.Contains t sub = true -> strings.Contains (s ++ t) sub = true.
Proof.
  rewrite !Contains_spec. intros (pre & post & ->). exists (s ++ pre), post.
  by rewrite <- !app_assoc.
Qed.

Lemma Contains_refl s : strings.Contains s s = true.
Proof. apply Contains_spec. exists [], []. by rewrite app_nil_r. Qed.

Lemma Contains_trans s t u :
  strings.Contains s t = true -> strings.Contains t u = true -> strings.Contains s u = true.
Proof.
  rewrite !Contains_spec. intros (pre & post & ->) (pre' & post' & ->).
  exists (pre ++ pre'), (post' ++ post). by rewrite <- !app_assoc.
Qed.

Lemma Contains_concat (l : list gostring) s :
  s ∈ l -> strings.Contains (concat l) s = true.
Proof.
  intros (l1 & l2 & ->)%list_elem_of_split. rewrite concat_app. simpl.
  apply Contains_app_r, Contains_app_l, Contains_refl.
Qed.

Lemma Contains_interleave parts args a :
  (length args < length parts)%nat -> a ∈ args ->
  strings.Contains (interleave parts args) a = true.
Proof.
  revert args. induction parts as [|p parts IH]; intros args Hl Ha; [simpl in Hl; lia|].
  destruct args as [|b args]; [by apply elem_of_nil in Ha|]. simpl.
  apply elem_of_cons in Ha as [->|Ha].
  - apply Contains_app_r, Contains_app_l, Contains_refl.
  - apply Contains_app_r, Contains_app_r, IH; [simpl in Hl; lia | done].
Qed.

Lemma WriteChapter_prompt_eq input :
  services.WriteChapter_prompt input =
    (files <-r services.fileContext (types.wci_Files input)
                 (types.abs_FileIndices (types.wci_Abstraction input)) ;;
     Ok (interleave WriteChapter_parts
           [types.wci_ProjectName input;
            types.abs_Name (types.wci_Abstraction input);
            types.abs_Description (types.wci_Abstraction input);
            str "Related code files:" ++ nl ++ nl ++ files;
            services.previousChaptersContext (types.wci_PreviousChapters input);
            types.abs_Name (types.wci_Abstraction input)])).
Proof.
  unfold services.WriteChapter_prompt.
  destruct (services.fileContext _ _) as [files| |]; reflexivity.
Qed.

Lemma previousChaptersContext_nil : services.previousChaptersContext [] = [].
Proof. done. Qed.

Lemma previousChaptersContext_cons prev prevs :
  services.previousChaptersContext (prev :: prevs)
  = nl ++ nl ++ covered_caption ++ nl ++ concat (map covered_line (prev :: prevs)).
Proof.
  unfold services.previousChaptersContext.
  replace (0 <? len (prev :: prevs)) with true; [done|].
  rewrite len_cons. pose proof (len_nonneg prevs). lia.
Qed.

End Prompt.

Section PromptContents.
Context {E : Env}.
Import spec.

Lemma covered_line_name prev : strings.Contains (covered_line prev) (types.cs_Name prev) = true.
Proof. apply Contains_app_r, Contains_app_l, Contains_refl. Qed.

Lemma covered_line_summary prev :
  strings.Contains (covered_line prev) (types.cs_Summary prev) = true.
Proof. apply Contains_app_r, Contains_app_r, Contains_app_r, Contains_app_l, Contains_refl. Qed.

Lemma WriteChapter_prompt_Ok input prompt :
  services.WriteChapter_prompt input = Ok prompt ->
  exists files,
    services.fileContext (types.wci_Files input)
      (types.abs_FileIndices (types.wci_Abstraction input)) = Ok files /\
    prompt = interleave WriteChapter_parts
           [types.wci_ProjectName input;
            types.abs_Name (types.wci_Abstraction input);
            types.abs_Description (types.wci_Abstraction input);
            str "Related code files:" ++ nl ++ nl ++ files;
            services.previousChaptersContext (types.wci_PreviousChapters input);
            types.abs_Name (types.wci_Abstraction input)].
Proof.
  rewrite WriteChapter_prompt_eq.
  destruct (services.fileContext _ _) as [files| |]; [|done..].
  intros [= <-]. eauto.
Qed.

Lemma prompt_contains_context input prompt :
  services.WriteChapter_prompt input = Ok prompt ->
  strings.Contains prompt (services.previousChaptersContext (types.wci_PreviousChapters input))
  = true.
Proof.
  intros (files & _ & ->)%WriteChapter_prompt_Ok.
  apply Contains_interleave; [by vm_compute|]. set_solver.
Qed.

Lemma interleave_slot_inj p0 p1 p2 p3 p4 p5 p6 a b c d x y f :
  interleave [p0; p1; p2; p3; p4; p5; p6] [a; b; c; d; x; f]
  = interleave [p0; p1; p2; p3; p4; p5; p6] [a; b; c; d; y; f] ->
  x = y.
Proof.
  simpl. intros H. repeat apply app_inv_head in H. by apply app_inv_tail in H.
Qed.

End PromptContents.

Section FileContext.
Context {E : Env}.
Import spec.

Lemma index_below {A} (l : list A) i :
  0 <= i < len l -> exists a, index l i = Ok a.
Proof.
  intros Hi. destruct (l !! Z.to_nat i) as [a|] eqn:Ha.
  - exists a. apply index_in_range; [lia | done].
  - apply lookup_ge_None in Ha. unfold len in Hi. lia.
Qed.

(** *** The composer's file context *)

Lemma fileContext_below_size files fileIndices :
  services.fileContext files fileIndices
  = services.fileContext files (below_size files fileIndices).
Proof.
  unfold below_size. induction fileIndices as [|i rest IH]; [done|].
  cbn [services.fileContext]. destruct (len files <=? i) eqn:Hi.
  - rewrite filter_cons_False by lia. done.
  - rewrite filter_cons_True by lia. cbn [services.fileContext]. rewrite Hi.
    destruct (index files i); [|done..]. cbn [rbind]. by rewrite IH.
Qed.

Lemma fileContext_safe files fileIndices :
  Forall (fun i => 0 <= i) fileIndices ->
  exists context, services.fileContext files fileIndices = Ok context.
Proof.
  induction 1 as [|i rest Hi _ [context IH]]; [by exists []|].
  cbn [services.fileContext]. destruct (len files <=? i) eqn:Hb; [eauto|].
  destruct (index_below files i) as [file ->]; [lia|]. cbn [rbind]. rewrite IH.
  cbn [rbind]. eauto.
Qed.

Lemma fileContext_negative files pre i post :
  Forall (fun i => 0 <= i) pre -> i < 0 ->
  services.fileContext files (pre ++ i :: post) = Panic (IndexOutOfRange i (len files)).
Proof.
  intros Hpre Hi. induction Hpre as [|j pre Hj _ IH].
  - cbn [app services.fileContext]. pose proof (len_nonneg files).
    replace (len files <=? i) with false by lia.
    rewrite index_out_of_range by lia. done.
  - cbn [app services.fileContext]. destruct (len files <=? j) eqn:Hb; [done|].
    destruct (index_below files j) as [file ->]; [lia|]. cbn [rbind]. by rewrite IH.
Qed.

Lemma Forall_or_first_negative (l : list Z) :
  Forall (fun i => 0 <= i) l \/
  exists pre i post, l = pre ++ i :: post /\ Forall (fun i => 0 <= i) pre /\ i < 0.
Proof.
  induction l as [|j l [IH|(pre & i & post & -> & Hpre & Hi)]].
  - by left.
  - destruct (decide (0 <= j)).
    + left. by constructor.
    + right. exists [], j, l. split; [done|]. split; [done | lia].
  - destruct (decide (0 <= j)).
    + right. exists (j :: pre), i, post. split; [done|]. split; [by constructor | done].
    + right. exists [], j, (pre ++ i :: post). split; [done|]. split; [done | lia].
Qed.

(** *** The relationship extractor's code context *)

Lemma relatedFiles_below_size files fileIndices :
  services.relatedFiles files fileIndices
  = services.relatedFiles files (below_size files fileIndices).
Proof.
  unfold below_size. induction fileIndices as [|i rest IH]; [done|].
  cbn [services.relatedFiles]. destruct (i <? len files) eqn:Hi.
  - rewrite filter_cons_True by lia. cbn [services.relatedFiles]. rewrite Hi.
    destruct (index files i); [|done..]. cbn [rbind]. by rewrite IH.
  - rewrite filter_cons_False by lia. done.
Qed.

Lemma relatedFiles_safe files fileIndices :
  Forall (fun i => 0 <= i) fileIndices ->
  exists context, services.relatedFiles files fileIndices = Ok context.
Proof.
  induction 1 as [|i rest Hi _ [context IH]]; [by exists []|].
  cbn [services.relatedFiles]. destruct (i <? len files) eqn:Hb; [|eauto].
  destruct (index_below files i) as [file ->]; [lia|]. cbn [rbind]. rewrite IH.
  cbn [rbind]. eauto.
Qed.

Lemma relatedFiles_negative files pre i post :
  Forall (fun i => 0 <= i) pre -> i < 0 ->
  services.relatedFiles files (pre ++ i :: post) = Panic (IndexOutOfRange i (len files)).
Proof.
  intros Hpre Hi. induction Hpre as [|j pre Hj _ IH].
  - cbn [app services.relatedFiles]. pose proof (len_nonneg files).
    replace (i <? len files) with true by lia.
    rewrite index_out_of_range by lia. done.
  - cbn [app services.relatedFiles]. destruct (j <? len files) eqn:Hb; [|done].
    destruct (index_below files j) as [file ->]; [lia|]. cbn [rbind]. by rewrite IH.
Qed.

Lemma codeContext_below_size files abstractions :
  services.codeContext files abstractions
  = services.codeContext files (map (abstraction_below_size files) abstractions).
Proof.
  induction abstractions as [|abs rest IH]; [done|].
  cbn [map services.codeContext]. rewrite IH.
  by rewrite (relatedFiles_below_size files (types.abs_FileIndices abs)).
Qed.

Lemma codeContext_safe files abstractions :
  Forall (fun abs => Forall (fun i => 0 <= i) (types.abs_FileIndices abs)) abstractions ->
  exists context, services.codeContext files abstractions = Ok context.
Proof.
  induction 1 as [|abs rest Habs _ [context IH]]; [by exists []|].
  cbn [services.codeContext]. destruct (relatedFiles_safe files _ Habs) as [related ->].
  cbn [rbind]. rewrite IH. cbn [rbind]. eauto.
Qed.

Lemma codeContext_negative files before abs after pre i post :
  Forall (fun abs => Forall (fun i => 0 <= i) (types.abs_FileIndices abs)) before ->
  types.abs_FileIndices abs = pre ++ i :: post ->
  Forall (fun i => 0 <= i) pre -> i < 0 ->
  services.codeContext files (before ++ abs :: after)
  = Panic (IndexOutOfRange i (len files)).
Proof.
  intros Hb Habs Hpre Hi. induction Hb as [|abs' before Habs' _ IH].
  - cbn [app services.codeContext]. by rewrite Habs, relatedFiles_negative.
  - cbn [app services.codeContext].
    destruct (relatedFiles_safe files _ Habs') as [related ->]. cbn [rbind]. by rewrite IH.
Qed.

End FileContext.

Section Abstractions.
Context {E : Env}.

(** The abstractions the loop stores carry their positions, counted from
    the position of the first. *)
Lemma convert_abstractions_index nfiles i yamlAbstractions abstractions :
  services.convert_abstractions nfiles i yamlAbstractions = Ok abstractions ->
  length abstractions = length yamlAbstractions /\
  forall k abs, abstractions !! k = Some abs -> types.abs_Index abs = i + Z.of_nat k.
Proof.
  revert i abstractions. induction yamlAbstractions as [|ya rest IH]; intros i abstractions.
  - simpl. intros [= <-]. split; [done|]. intros k abs Hk. by rewrite lookup_nil in Hk.
  - cbn [services.convert_abstractions].
    destruct (find _ _); [done|].
    destruct (services.convert_abstractions nfiles (i + 1) rest) as [more| |] eqn:Hm; [|done..].
    cbn [rbind]. intros [= <-]. destruct (IH _ _ Hm) as [Hlen Hidx]. split.
    + simpl. by rewrite Hlen.
    + intros [|k] abs Hk; simpl in Hk.
      * injection Hk as <-. simpl. lia.
      * apply Hidx in Hk. lia.
Qed.

Lemma convert_abstractions_error nfiles i yamlAbstractions err :
  services.convert_abstractions nfiles i yamlAbstractions = Err err ->
  exists fileIdx name, err = ErrInvalidFileIndex fileIdx name.
Proof.
  revert i. induction yamlAbstractions as [|ya rest IH]; intros i; [done|].
  cbn [services.convert_abstractions].
  destruct (find _ _); [intros [= <-]; eauto|].
  destruct (services.convert_abstractions nfiles (i + 1) rest) as [more| |] eqn:Hm; [done| |done].
  cbn [rbind]. intros [= <-]. eauto.
Qed.

Lemma validate_abstractions_index input yamlAbstractions out :
  services.validate_abstractions input yamlAbstractions = Ok out ->
  forall k abs, types.aao_Abstractions out !! k = Some abs ->
                types.abs_Index abs = Z.of_nat k.
Proof.
  unfold services.validate_abstractions.
  destruct (len yamlAbstractions =? 0); [done|].
  destruct (if types.aai_MaxAbstractions input <? len yamlAbstractions then _ else _)
    as [kept| |]; [|done..].
  cbn [rbind].
  destruct (services.convert_abstractions _ 0 kept) as [abstractions| |] eqn:Hc; [|done..].
  cbn [rbind]. intros [= <-] k abs Hk. simpl in Hk.
  apply convert_abstractions_index in Hc as [_ Hidx]. apply Hidx in Hk. lia.
Qed.

(** A successful run of the handler went through the validation of a
    decoded answer. *)
Lemma AnalyzeAbstractions_Ok_inv input w out w' :
  services.AnalyzeAbstractions input w = (Ok out, w') ->
  exists yamlAbstractions, services.validate_abstractions input yamlAbstractions = Ok out.
Proof.
  unfold services.AnalyzeAbstractions.
  destruct (len (types.aai_Files input) =? 0); [done|].
  unfold bind at 1. destruct (services.ask _ _ w) as [[response| |] w1]; [|done..].
  unfold lift, services.abstractions_of_response. intros [= Hr <-].
  destruct (services.yamlContent response) as [content| |]; [|done..]. cbn [rbind] in Hr.
  destruct (yaml_Unmarshal_abstractions content) as [err|yamlAbstractions]; [done|]. eauto.
Qed.

Lemma AnalyzeAbstractions_answered input w w' response :
  len (types.aai_Files input) <> 0 ->
  services.ask (services.AnalyzeAbstractions_prompt input) services.AnalyzeAbstractions_system w
  = (Ok response, w') ->
  services.AnalyzeAbstractions input w
  = (services.abstractions_of_response input response, w').
Proof.
  intros Hn Ha. unfold services.AnalyzeAbstractions.
  destruct (len (types.aai_Files input) =? 0) eqn:H0; [lia|].
  fold services.AnalyzeAbstractions_system. erewrite bind_Ok by exact Ha. done.
Qed.

Lemma validate_abstractions_empty input yamlAbstractions :
  services.validate_abstractions input yamlAbstractions = Err ErrNoAbstractionsIdentified
  <-> yamlAbstractions = [].
Proof.
  unfold services.validate_abstractions. split.
  - destruct yamlAbstractions as [|ya rest]; [done|]. intros H. exfalso.
    replace (len (ya :: rest) =? 0) with false in H
      by (rewrite len_cons; pose proof (len_nonneg rest); lia).
    destruct (if types.aai_MaxAbstractions input <? len (ya :: rest) then _ else _)
      as [kept| |] eqn:Hk.
    + cbn [rbind] in H.
      destruct (services.convert_abstractions _ 0 kept) as [abstractions|err|] eqn:Hc; [done| |done].
      apply convert_abstractions_error in Hc as (? & ? & ->). done.
    + destruct (_ <? _); [destruct (_ <? _)|]; done.
    + done.
  - by intros ->.
Qed.

Lemma validate_abstractions_ceiling_zero input yamlAbstractions :
  types.aai_MaxAbstractions input = 0 -> yamlAbstractions <> [] ->
  services.validate_abstractions input yamlAbstractions
  = Ok {| types.aao_Abstractions := [] |}.
Proof.
  intros Hmax Hne. unfold services.validate_abstractions. rewrite Hmax.
  destruct yamlAbstractions as [|ya rest]; [done|].
  replace (len (ya :: rest) =? 0) with false
    by (rewrite len_cons; pose proof (len_nonneg rest); lia).
  replace (0 <? len (ya :: rest)) with true
    by (rewrite len_cons; pose proof (len_nonneg rest); lia).
  done.
Qed.

End Abstractions.

Section Files.
Context {E : Env}.

Lemma keeps_files_ret {A} (a : A) : spec.keeps_files (ret a).
Proof. by intros w r w' [= <- <-]. Qed.

Lemma keeps_files_fail {A} e : spec.keeps_files (@fail A e).
Proof. by intros w r w' [= <- <-]. Qed.

Lemma keeps_files_lift {A} (x : result A) : spec.keeps_files (lift x).
Proof. by intros w r w' [= <- <-]. Qed.

Lemma keeps_files_bind {A B} (m : M A) (k : A -> M B) :
  spec.keeps_files m -> (forall a, spec.keeps_files (k a)) -> spec.keeps_files (bind m k).
Proof.
  intros Hm Hk w r w'. unfold bind. destruct (m w) as [[a|e|p] w1] eqn:H1.
  - intros H2. apply Hk in H2. apply Hm in H1. congruence.
  - intros [= <- <-]. by apply Hm in H1.
  - intros [= <- <-]. by apply Hm in H1.
Qed.

Lemma keeps_files_wrap {A} f (m : M A) : spec.keeps_files m -> spec.keeps_files (wrap f m).
Proof.
  intros Hm w r w'. unfold wrap. destruct (m w) as [[a|e|p] w1] eqn:H1;
    intros [= <- <-]; by apply Hm in H1.
Qed.

Lemma keeps_files_CallLLM c prompt sys : spec.keeps_files (llm.CallLLM c prompt sys).
Proof.
  intros w r w'. unfold llm.CallLLM.
  destruct (openrouter_CreateChatCompletion _ _ _ _) as [err|[|text choices]];
    by intros [= <- <-].
Qed.

Lemma keeps_files_ask prompt sys : spec.keeps_files (services.ask prompt sys).
Proof.
  apply keeps_files_bind; [apply keeps_files_wrap, keeps_files_lift|].
  intros c. apply keeps_files_wrap, keeps_files_CallLLM.
Qed.

Lemma keeps_files_if {A} (b : bool) (m1 m2 : M A) :
  spec.keeps_files m1 -> spec.keeps_files m2 -> spec.keeps_files (if b then m1 else m2).
Proof. by destruct b. Qed.

Lemma keeps_files_ReadFiles input : spec.keeps_files (services.ReadFiles input).
Proof.
  unfold services.ReadFiles. apply keeps_files_if; [apply keeps_files_fail|].
  destruct (utils_WalkDirectory _); [apply keeps_files_fail | apply keeps_files_ret].
Qed.

Lemma keeps_files_AnalyzeAbstractions input : spec.keeps_files (services.AnalyzeAbstractions input).
Proof.
  unfold services.AnalyzeAbstractions. apply keeps_files_if; [apply keeps_files_fail|].
  apply keeps_files_bind; [apply keeps_files_ask | intros; apply keeps_files_lift].
Qed.

Lemma keeps_files_AnalyzeRelationships input :
  spec.keeps_files (services.AnalyzeRelationships input).
Proof.
  unfold services.AnalyzeRelationships. apply keeps_files_if; [apply keeps_files_fail|].
  apply keeps_files_bind; [apply keeps_files_lift | intros].
  apply keeps_files_bind; [apply keeps_files_ask | intros; apply keeps_files_lift].
Qed.

Lemma keeps_files_OrderChapters input : spec.keeps_files (services.OrderChapters input).
Proof.
  unfold services.OrderChapters. apply keeps_files_if; [apply keeps_files_fail|].
  apply keeps_files_bind; [apply keeps_files_lift | intros].
  apply keeps_files_bind; [apply keeps_files_ask | intros; apply keeps_files_lift].
Qed.

Lemma keeps_files_WriteChapter input : spec.keeps_files (services.WriteChapter input).
Proof.
  unfold services.WriteChapter. apply keeps_files_if; [apply keeps_files_fail|].
  apply keeps_files_bind; [apply keeps_files_lift | intros].
  apply keeps_files_bind; [apply keeps_files_ask | intros; apply keeps_files_ret].
Qed.

Lemma keeps_files_write_loop files abstractions projectName i previousChapters orderedIndices :
  spec.keeps_files (workflow.write_loop files abstractions projectName i previousChapters
                 orderedIndices).
Proof.
  revert i previousChapters.
  induction orderedIndices as [|absIndex rest IH]; intros i previousChapters.
  - apply keeps_files_ret.
  - cbn [workflow.write_loop].
    apply keeps_files_bind; [apply keeps_files_lift | intros].
    apply keeps_files_bind; [apply keeps_files_wrap, keeps_files_WriteChapter | intros].
    apply keeps_files_bind; [apply IH | intros; apply keeps_files_ret].
Qed.

(** The chapters written by the loop are numbered from [i + 1] on. *)
Lemma write_loop_numbers files abstractions projectName i previousChapters orderedIndices
    w chapters w' :
  workflow.write_loop files abstractions projectName i previousChapters orderedIndices w
  = (Ok chapters, w') ->
  length chapters = length orderedIndices /\
  forall k chapter, chapters !! k = Some chapter ->
                    types.wco_ChapterNumber chapter = i + Z.of_nat k + 1.
Proof.
  revert i previousChapters w chapters.
  induction orderedIndices as [|absIndex rest IH]; intros i previousChapters w chapters.
  - intros [= <- <-]. split; [done|]. intros k c Hk. by rewrite lookup_nil in Hk.
  - cbn [workflow.write_loop]. unfold bind at 1, lift at 1.
    destruct (index abstractions absIndex) as [abstraction| |]; [|done..].
    unfold bind at 1, wrap at 1.
    destruct (services.WriteChapter _ w) as [[chapterOutput| |] w1] eqn:Hw; [|done..].
    unfold bind at 1.
    destruct (workflow.write_loop _ _ _ _ _ rest w1) as [[more| |] w2] eqn:Hm; [|done..].
    unfold ret. intros [= <- <-]. destruct (IH _ _ _ _ Hm) as [Hlen Hnum]. split.
    + simpl. by rewrite Hlen.
    + intros [|k] c Hk; simpl in Hk.
      * injection Hk as <-. revert Hw. unfold services.WriteChapter.
        case_bool_decide; [done|]. unfold bind at 1, lift at 1.
        destruct (services.WriteChapter_prompt _); [|done..].
        unfold bind. destruct (services.ask _ _ w) as [[?| |] ?]; [|done..].
        unfold ret. intros [= <- _]. simpl. lia.
      * apply Hnum in Hk. lia.
Qed.

End Files.

(** * The claims of the specification *)

Section Ordering.
Context {E : Env}.

(** C1. For every answer of the generator to the Sequencer over [n]
    abstractions, OrderChapters succeeds if and only if the references
    resolve to a permutation of [0 .. n-1], and it then returns that
    permutation: [n] indices, each of [0 .. n-1] once. Otherwise the
    first reference at fault decides the error: one that does not resolve,
    one out of range (with its value and position), one already met (with
    its value); and when every reference passes but some indices are
    left out, the error lists all of them. *)
Theorem OrderChapters_permutation
    (input : types.OrderChaptersInput) (w w' : World)
    (prompt response content : gostring) (yamlIndices : list yaml.value) :
  len (types.oci_Abstractions input) <> 0 ->
  services.OrderChapters_prompt input = Ok prompt ->
  services.ask prompt services.OrderChapters_system w = (Ok response, w') ->
  services.yamlContent response = Ok content ->
  yaml_Unmarshal_indices content = inr yamlIndices ->
  let n := len (types.oci_Abstractions input) in
  let outcome := (services.OrderChapters input w).1 in
  (forall order,
     outcome = Ok {| types.oco_OrderedIndices := order |} <->
     spec.resolves yamlIndices order /\ order ≡ₚ seqZ 0 n) /\
  (forall out,
     outcome = Ok out ->
     len (types.oco_OrderedIndices out) = n /\
     NoDup (types.oco_OrderedIndices out) /\
     forall i, 0 <= i < n -> i ∈ types.oco_OrderedIndices out) /\
  (forall pre idxs v post,
     yamlIndices = pre ++ v :: post -> spec.accepted n pre idxs ->
     (forall err, services.extractIndex v = Err err ->
        outcome = Err (ErrExtractIndexAt (len pre) err)) /\
     (forall idx, services.extractIndex v = Ok idx -> ~ (0 <= idx < n) ->
        outcome = Err (ErrIndexOutOfBounds idx (len pre))) /\
     (forall idx, services.extractIndex v = Ok idx -> 0 <= idx < n -> idx ∈ idxs ->
        outcome = Err (ErrDuplicateIndex idx))) /\
  (forall idxs,
     spec.accepted n yamlIndices idxs -> len idxs <> n ->
     exists missing,
       outcome = Err (ErrMissingAbstractions missing) /\
       missing <> [] /\ NoDup missing /\
       forall i, i ∈ missing <-> 0 <= i < n /\ i ∉ idxs).
Proof.
  intros Hn Hp Ha Hc Hy n outcome.
  assert (Hout : outcome = services.validate_order input yamlIndices).
  { unfold outcome. rewrite (OrderChapters_answered _ _ _ _ _ Hn Hp Ha).
    unfold services.order_of_response. rewrite Hc. cbn [rbind fst]. by rewrite Hy. }
  assert (Hn0 : 0 <= n) by apply len_nonneg.
  rewrite Hout. split; [|split; [|split]].
  - intros order. apply validate_order_Ok.
  - intros [order] [_ Hperm]%validate_order_Ok. fold n in Hperm. cbn.
    apply permutation_range in Hperm as (Hin & Hnd & Hlen); [|done].
    split; [done|]. split; [done|]. intros i Hi.
    destruct (decide (i ∈ order)) as [|Hni]; [done|]. exfalso.
    assert (Hsub : order ⊆+ seqZ 0 n).
    { apply NoDup_submseteq; [done|]. intros x Hx. rewrite Forall_forall in Hin.
      apply elem_of_seqZ. specialize (Hin x Hx). lia. }
    assert (Hperm : order ≡ₚ seqZ 0 n).
    { apply submseteq_length_Permutation; [done|]. rewrite length_seqZ. unfold len in Hlen. lia. }
    apply Hni. rewrite Hperm. apply elem_of_seqZ. lia.
  - intros pre idxs v post -> Hacc. apply validate_order_at. done.
  - intros idxs Hacc Hlen. exists (filter (fun i => i ∉ idxs) (seqZ 0 n)).
    split; [by apply validate_order_missing|].
    destruct Hacc as (Hr & Hin & Hnd).
    destruct (missing_nonempty n idxs Hn0 Hin Hnd Hlen) as (i & Hi & Hni).
    split; [|split].
    + intros Hnil. assert (Hi' : i ∈ filter (fun i => i ∉ idxs) (seqZ 0 n)).
      { apply list_elem_of_filter. split; [done|]. apply elem_of_seqZ. lia. }
      rewrite Hnil in Hi'. by apply elem_of_nil in Hi'.
    + apply NoDup_filter, NoDup_seqZ.
    + intros j. rewrite list_elem_of_filter, elem_of_seqZ. split; intros [? ?]; split; (done || lia).
Qed.

(** C2. In every successful run of the Abstraction Extractor, the
    abstraction at position [i] of the output has index [i], whatever the
    generator answered and whatever the decoder made of it. *)
Theorem AnalyzeAbstractions_index_is_position
    (input : types.AnalyzeAbstractionsInput) (w w' : World)
    (out : types.AnalyzeAbstractionsOutput) :
  services.AnalyzeAbstractions input w = (Ok out, w') ->
  forall i abs, types.aao_Abstractions out !! i = Some abs ->
                types.abs_Index abs = Z.of_nat i.
Proof.
  intros [yamlAbstractions Hv]%AnalyzeAbstractions_Ok_inv.
  by eapply validate_abstractions_index.
Qed.

End Ordering.

Lemma OrderChapters_permutation_witness :
  len (types.oci_Abstractions demo.order_input) <> 0 /\
  services.OrderChapters_prompt demo.order_input
    = Ok (demo.prompt_of (services.OrderChapters_prompt demo.order_input)) /\
  services.ask (E := demo.env) (demo.prompt_of (services.OrderChapters_prompt demo.order_input))
    services.OrderChapters_system (demo.world 2)
    = (Ok (demo.fenced demo.order_yaml), demo.world 3) /\
  services.yamlContent (demo.fenced demo.order_yaml) = Ok demo.order_yaml /\
  yaml_Unmarshal_indices (Env := demo.env) demo.order_yaml = inr demo.yamlIndices /\
  (services.OrderChapters (E := demo.env) demo.order_input (demo.world 2)).1
    = Ok {| types.oco_OrderedIndices := [1; 0] |}.
Proof.
  assert (H1 : len (types.oci_Abstractions demo.order_input) <> 0) by (by vm_compute).
  assert (H2 : services.OrderChapters_prompt demo.order_input
    = Ok (demo.prompt_of (services.OrderChapters_prompt demo.order_input))) by (by vm_compute).
  assert (H3 : services.ask (E := demo.env)
    (demo.prompt_of (services.OrderChapters_prompt demo.order_input))
    services.OrderChapters_system (demo.world 2)
    = (Ok (demo.fenced demo.order_yaml), demo.world 3)) by (by vm_compute).
  assert (H4 : services.yamlContent (demo.fenced demo.order_yaml) = Ok demo.order_yaml)
    by (by vm_compute).
  assert (H5 : yaml_Unmarshal_indices (Env := demo.env) demo.order_yaml = inr demo.yamlIndices)
    by (by vm_compute).
  repeat (split; [assumption|]).
  apply (OrderChapters_permutation (E := demo.env) _ _ _ _ _ _ _ H1 H2 H3 H4 H5).
  split.
  - repeat constructor.
  - change ([1; 0] ≡ₚ [0; 1]). apply perm_swap.
Defined.

Lemma AnalyzeAbstractions_index_is_position_witness :
  exists out,
    services.AnalyzeAbstractions (E := demo.env) (demo.abstractions_input 10) (demo.world 0)
      = (Ok out, demo.world 1) /\
    types.abs_Index <$> types.aao_Abstractions out !! 1%nat = Some 1.
Proof.
  eexists. split; [by vm_compute|].
  destruct (types.aao_Abstractions _ !! 1%nat) as [abs|] eqn:Habs; [|by vm_compute in Habs].
  simpl. f_equal.
  apply (AnalyzeAbstractions_index_is_position (E := demo.env)
           (demo.abstractions_input 10) (demo.world 0) (demo.world 1) _ eq_refl 1%nat abs Habs).
Defined.

Section Indices.
Context {E : Env}.

Lemma edges_accepted_of_ends n details ends :
  Forall2 spec.edge_resolves details ends -> Forall (spec.edge_in_bounds n) ends ->
  exists rels, Forall2 (spec.edge_accepted n) details rels.
Proof.
  induction 1 as [|yr [f t] details ends Hyr _ IH]; intros Hb.
  - exists []. constructor.
  - inversion Hb as [|? ? Hb1 Hb2]; subst. destruct (IH Hb2) as [rels Hrels].
    exists ({| types.rel_FromIndex := f; types.rel_ToIndex := t;
               types.rel_Label := yaml.yr_Label yr |} :: rels).
    constructor; [|done]. by split; [|split].
Qed.

(** C3. For every edge list decoded by the Relationship Extractor over
    [n] abstractions, the stage succeeds if and only if both ends of every
    edge lie within [0, n); it then returns the edges as they are, in
    order, self-references and repetitions included. An edge whose target
    is [n] fails the stage, with an out-of-bounds error naming the edge's
    position when it is the first edge at fault. *)
Theorem AnalyzeRelationships_bounds
    (input : types.AnalyzeRelationshipsInput) (w w' : World)
    (prompt response content : gostring) (yamlData : yaml.yamlRelationshipData) :
  len (types.ari_Abstractions input) <> 0 ->
  services.AnalyzeRelationships_prompt input = Ok prompt ->
  services.ask prompt services.AnalyzeRelationships_system w = (Ok response, w') ->
  services.yamlContent response = Ok content ->
  yaml_Unmarshal_relationships content = inr yamlData ->
  let n := len (types.ari_Abstractions input) in
  let outcome := (services.AnalyzeRelationships input w).1 in
  (forall out,
     outcome = Ok out <->
     types.rd_Summary out = yaml.yrd_Summary yamlData /\
     Forall2 (spec.edge_accepted n) (yaml.yrd_Details yamlData) (types.rd_Details out)) /\
  (forall ends,
     Forall2 spec.edge_resolves (yaml.yrd_Details yamlData) ends ->
     ((exists out, outcome = Ok out) <-> Forall (spec.edge_in_bounds n) ends)) /\
  (forall pre rels yr post fromIdx toIdx,
     yaml.yrd_Details yamlData = pre ++ yr :: post ->
     Forall2 (spec.edge_accepted n) pre rels ->
     services.extractIndex (yaml.yr_From yr) = Ok fromIdx ->
     services.extractIndex (yaml.yr_To yr) = Ok toIdx ->
     (~ (0 <= fromIdx < n) -> outcome = Err (ErrFromOutOfBounds fromIdx (len pre))) /\
     (0 <= fromIdx < n -> ~ (0 <= toIdx < n) ->
        outcome = Err (ErrToOutOfBounds toIdx (len pre)))) /\
  (forall yr,
     yr ∈ yaml.yrd_Details yamlData ->
     services.extractIndex (yaml.yr_To yr) = Ok n ->
     forall out, outcome <> Ok out).
Proof.
  intros Hn Hp Ha Hc Hy n outcome.
  assert (Hout : outcome = services.validate_relationships input yamlData).
  { unfold outcome. rewrite (AnalyzeRelationships_answered _ _ _ _ _ Hn Hp Ha).
    unfold services.relationships_of_response. rewrite Hc. cbn [rbind fst]. by rewrite Hy. }
  assert (H1 : forall out,
     outcome = Ok out <->
     types.rd_Summary out = yaml.yrd_Summary yamlData /\
     Forall2 (spec.edge_accepted n) (yaml.yrd_Details yamlData) (types.rd_Details out)).
  { intros out. rewrite Hout. unfold services.validate_relationships. fold n. split.
    - destruct (services.convert_relationships n 0 _) as [rels| |] eqn:Hr; [|done..].
      cbn [rbind]. intros [= <-]. split; [done|]. by eapply convert_relationships_Ok_inv.
    - intros [Hs Hrels]. rewrite (convert_relationships_Ok n 0 _ _ Hrels). cbn [rbind].
      destruct out. simpl in *. by subst. }
  split; [exact H1|]. split; [|split].
  - intros ends Hends. split.
    + intros [out [_ Hacc]%H1].
      assert (ends = map (fun rel => (types.rel_FromIndex rel, types.rel_ToIndex rel))
                       (types.rd_Details out)) as ->.
      { eapply edges_resolve_ends; [|exact Hends].
        eapply Forall2_impl; [exact Hacc|]. by intros yr rel (Hr & _ & _). }
      apply Forall_map. eapply Forall2_Forall_r; [exact Hacc|].
      apply Forall_forall. by intros yr _ rel (_ & Hb & _).
    + intros Hb. destruct (edges_accepted_of_ends n _ _ Hends Hb) as [rels Hrels].
      exists {| types.rd_Summary := yaml.yrd_Summary yamlData; types.rd_Details := rels |}.
      by apply H1.
  - intros pre rels yr post fromIdx toIdx Hd Hpre Hf Ht.
    rewrite Hout. unfold services.validate_relationships. fold n. rewrite Hd.
    rewrite (convert_relationships_at n pre rels yr post Hpre), Hf, Ht. split.
    + intros Hb%in_bounds_true. by rewrite Hb.
    + intros Hb1%in_bounds_false Hb2%in_bounds_true. by rewrite Hb1, Hb2.
  - intros yr Hyr Ht out [_ Hacc]%H1.
    apply list_elem_of_lookup in Hyr as [k Hk].
    destruct (Forall2_lookup_l _ _ _ _ _ Hacc Hk) as (rel & _ & (_ & Ht') & (_ & Hb) & _).
    simpl in Ht', Hb. rewrite Ht in Ht'. injection Ht' as Ht'. lia.
Qed.

(** C4. The resolver reads the integer [n], the string of [n] and the
    string of [n] followed by [" # "] and any text as the index [n]; in
    particular ["3"] and ["3 # Foo"] both resolve to [3]. It succeeds on
    the references and on nothing else, and any other value fails with an
    invalid-reference error. *)
Theorem extractIndex_format_agnostic :
  (forall n, services.extractIndex (yaml.VInt n) = Ok n) /\
  (forall n, spec.in_int_range n ->
     services.extractIndex (yaml.VString (strconv.Itoa n)) = Ok n) /\
  (forall n trailing, spec.in_int_range n ->
     services.extractIndex (yaml.VString (strconv.Itoa n ++ str " # " ++ trailing)) = Ok n) /\
  services.extractIndex (yaml.VString (str "3")) = Ok 3 /\
  services.extractIndex (yaml.VString (str "3 # Foo")) = Ok 3 /\
  (forall v n, services.extractIndex v = Ok n <-> spec.reference v n) /\
  (forall v,
     (exists n, services.extractIndex v = Ok n) \/
     (exists err, services.extractIndex v = Err err /\ spec.invalid_reference err)).
Proof.
  split; [done|]. split; [apply extractIndex_Itoa|]. split; [apply extractIndex_annotated|].
  split; [done|]. split; [done|]. split.
  - intros [m|s|type_name] n; cbn [spec.reference].
    + split; [by intros [= ->] | by intros ->].
    + rewrite extractIndex_string. apply atoi_Ok.
    + done.
  - intros [m|s|type_name].
    + left. by exists m.
    + rewrite extractIndex_string. unfold services.atoi.
      destruct (strconv.Atoi _) as [n|]; [left; by exists n|].
      right. eexists. split; [done|]. left. eauto.
    + right. eexists. split; [done|]. right. eauto.
Qed.

(** C10. In the Abstraction Extractor the check for an empty list comes
    before the ceiling is applied: the stage fails with "no abstractions
    identified" exactly when the decoded list is empty, and with a ceiling
    of [0] a non-empty decoded list gives a successful, empty output. *)
Theorem AnalyzeAbstractions_empty_check_before_ceiling
    (input : types.AnalyzeAbstractionsInput) (w w' : World)
    (response content : gostring) (yamlAbstractions : list yaml.yamlAbstraction) :
  len (types.aai_Files input) <> 0 ->
  services.ask (services.AnalyzeAbstractions_prompt input)
    services.AnalyzeAbstractions_system w = (Ok response, w') ->
  services.yamlContent response = Ok content ->
  yaml_Unmarshal_abstractions content = inr yamlAbstractions ->
  let outcome := (services.AnalyzeAbstractions input w).1 in
  (outcome = Err ErrNoAbstractionsIdentified <-> yamlAbstractions = []) /\
  (types.aai_MaxAbstractions input = 0 -> yamlAbstractions <> [] ->
     outcome = Ok {| types.aao_Abstractions := [] |}).
Proof.
  intros Hn Ha Hc Hy outcome.
  assert (Hout : outcome = services.validate_abstractions input yamlAbstractions).
  { unfold outcome. rewrite (AnalyzeAbstractions_answered _ _ _ _ Hn Ha).
    unfold services.abstractions_of_response. rewrite Hc. cbn [rbind fst]. by rewrite Hy. }
  rewrite Hout. split.
  - apply validate_abstractions_empty.
  - apply validate_abstractions_ceiling_zero.
Qed.

End Indices.

Lemma AnalyzeRelationships_bounds_witness :
  len (types.ari_Abstractions demo.relationships_input) <> 0 /\
  services.AnalyzeRelationships_prompt demo.relationships_input
    = Ok (demo.prompt_of (services.AnalyzeRelationships_prompt demo.relationships_input)) /\
  services.ask (E := demo.env)
    (demo.prompt_of (services.AnalyzeRelationships_prompt demo.relationships_input))
    services.AnalyzeRelationships_system (demo.world 1)
    = (Ok (demo.fenced demo.relationships_yaml), demo.world 2) /\
  services.yamlContent (demo.fenced demo.relationships_yaml) = Ok demo.relationships_yaml /\
  yaml_Unmarshal_relationships (Env := demo.env) demo.relationships_yaml = inr demo.yamlData /\
  (services.AnalyzeRelationships (E := demo.env) demo.relationships_input (demo.world 1)).1
    = Ok demo.relationships.
Proof.
  assert (H1 : len (types.ari_Abstractions demo.relationships_input) <> 0) by (by vm_compute).
  assert (H2 : services.AnalyzeRelationships_prompt demo.relationships_input
    = Ok (demo.prompt_of (services.AnalyzeRelationships_prompt demo.relationships_input)))
    by (by vm_compute).
  assert (H3 : services.ask (E := demo.env)
    (demo.prompt_of (services.AnalyzeRelationships_prompt demo.relationships_input))
    services.AnalyzeRelationships_system (demo.world 1)
    = (Ok (demo.fenced demo.relationships_yaml), demo.world 2)) by (by vm_compute).
  assert (H4 : services.yamlContent (demo.fenced demo.relationships_yaml)
    = Ok demo.relationships_yaml) by (by vm_compute).
  assert (H5 : yaml_Unmarshal_relationships (Env := demo.env) demo.relationships_yaml
    = inr demo.yamlData) by (by vm_compute).
  repeat (split; [assumption|]).
  apply (AnalyzeRelationships_bounds (E := demo.env) _ _ _ _ _ _ _ H1 H2 H3 H4 H5).
  split; [done|]. constructor; [|constructor].
  split; [by split|]. split; [|done]. split; simpl; by vm_compute.
Defined.

Lemma extractIndex_format_agnostic_witness :
  spec.in_int_range 7 /\
  services.extractIndex (yaml.VString (strconv.Itoa 7 ++ str " # " ++ str "Seven")) = Ok 7.
Proof.
  assert (H : spec.in_int_range 7) by (by vm_compute).
  split; [exact H|].
  destruct extractIndex_format_agnostic as (_ & _ & Hann & _). by apply Hann.
Defined.

Lemma AnalyzeAbstractions_empty_check_before_ceiling_witness :
  len (types.aai_Files (demo.abstractions_input 0)) <> 0 /\
  services.ask (E := demo.env) (services.AnalyzeAbstractions_prompt (demo.abstractions_input 0))
    services.AnalyzeAbstractions_system (demo.world 0)
    = (Ok (demo.fenced demo.abstractions_yaml), demo.world 1) /\
  services.yamlContent (demo.fenced demo.abstractions_yaml) = Ok demo.abstractions_yaml /\
  yaml_Unmarshal_abstractions (Env := demo.env) demo.abstractions_yaml
    = inr demo.yamlAbstractions /\
  types.aai_MaxAbstractions (demo.abstractions_input 0) = 0 /\
  demo.yamlAbstractions <> [] /\
  (services.AnalyzeAbstractions (E := demo.env) (demo.abstractions_input 0) (demo.world 0)).1
    = Ok {| types.aao_Abstractions := [] |}.
Proof.
  assert (H1 : len (types.aai_Files (demo.abstractions_input 0)) <> 0) by (by vm_compute).
  assert (H2 : services.ask (E := demo.env)
    (services.AnalyzeAbstractions_prompt (demo.abstractions_input 0))
    services.AnalyzeAbstractions_system (demo.world 0)
    = (Ok (demo.fenced demo.abstractions_yaml), demo.world 1)) by (by vm_compute).
  assert (H3 : services.yamlContent (demo.fenced demo.abstractions_yaml)
    = Ok demo.abstractions_yaml) by (by vm_compute).
  assert (H4 : yaml_Unmarshal_abstractions (Env := demo.env) demo.abstractions_yaml
    = inr demo.yamlAbstractions) by (by vm_compute).
  assert (H5 : types.aai_MaxAbstractions (demo.abstractions_input 0) = 0) by reflexivity.
  assert (H6 : demo.yamlAbstractions <> []) by discriminate.
  repeat (split; [assumption|]).
  by apply (AnalyzeAbstractions_empty_check_before_ceiling (E := demo.env) _ _ _ _ _ _
              H1 H2 H3 H4).
Defined.

Section Emission.
Context {E : Env}.

(** The emission step ends in a value or in an error of its own. *)
Lemma write_chapters_no_panic outputDir chapters w p w' :
  services.write_chapters outputDir chapters w <> (Panic p, w').
Proof.
  revert w p w'. induction chapters as [|chapter rest IH]; intros w p w'; [done|].
  cbn [services.write_chapters]. unfold bind at 1, wrap, services.WriteFile.
  destruct (os_WriteFile _ _ _); [done|]. unfold bind.
  destruct (services.write_chapters outputDir rest _) as [[files| |q] w1] eqn:Hr; [done..|].
  by apply IH in Hr.
Qed.

Lemma emission_outcome input w r w' :
  wrap ErrWriteMarkdownFiles (services.WriteMarkdownFiles input) w = (r, w') ->
  (exists out, r = Ok out) \/ (exists err, r = Err (ErrWriteMarkdownFiles err)).
Proof.
  unfold wrap, services.WriteMarkdownFiles. case_bool_decide.
  { intros [= <- <-]. right. eauto. }
  destruct (os_MkdirAll _). { intros [= <- <-]. right. eauto. }
  unfold bind.
  destruct (services.write_chapters _ _ w) as [[files|err|p] w1] eqn:Hw.
  - intros [= <- <-]. left. eauto.
  - intros [= <- <-]. right. eauto.
  - by apply write_chapters_no_panic in Hw.
Qed.

(** A run that fails before the emission step leaves the files on disk as
    they were. *)
Lemma Run_keeps_files_until_emission input w r w' :
  workflow.Run input w = (r, w') ->
  (forall out, r <> Ok out) -> (forall err, r <> Err (ErrWriteMarkdownFiles err)) ->
  w_files w' = w_files w.
Proof.
  unfold workflow.Run. intros HR Hok Herr. revert HR.
  set (projectName := if bool_decide (types.twi_ProjectName input = []) then _ else _).
  set (maxFiles := if types.twi_MaxFiles input =? 0 then _ else _).
  unfold bind at 1.
  destruct (wrap ErrReadFiles _ w) as [[filesOutput| |] w1] eqn:H1.
  2,3: intros [= <- <-]; revert H1; apply keeps_files_wrap, keeps_files_ReadFiles.
  apply keeps_files_wrap in H1; [|apply keeps_files_ReadFiles].
  destruct (len (types.rfo_Files filesOutput) =? 0). { intros [= <- <-]. done. }
  unfold bind at 1.
  destruct (wrap ErrAnalyzeAbstractions _ w1) as [[abstractionsOutput| |] w2] eqn:H2.
  2,3: intros [= <- <-]; rewrite <- H1; revert H2;
       apply keeps_files_wrap, keeps_files_AnalyzeAbstractions.
  apply keeps_files_wrap in H2; [|apply keeps_files_AnalyzeAbstractions].
  destruct (len (types.aao_Abstractions abstractionsOutput) =? 0).
  { intros [= <- <-]. congruence. }
  unfold bind at 1.
  destruct (wrap ErrAnalyzeRelationships _ w2) as [[relationships| |] w3] eqn:H3.
  2,3: intros [= <- <-]; rewrite <- H1, <- H2; revert H3;
       apply keeps_files_wrap, keeps_files_AnalyzeRelationships.
  apply keeps_files_wrap in H3; [|apply keeps_files_AnalyzeRelationships].
  unfold bind at 1.
  destruct (wrap ErrOrderChapters _ w3) as [[orderOutput| |] w4] eqn:H4.
  2,3: intros [= <- <-]; rewrite <- H1, <- H2, <- H3; revert H4;
       apply keeps_files_wrap, keeps_files_OrderChapters.
  apply keeps_files_wrap in H4; [|apply keeps_files_OrderChapters].
  unfold bind at 1.
  destruct (workflow.write_loop _ _ _ _ _ _ w4) as [[chapters| |] w5] eqn:H5.
  2,3: intros [= <- <-]; rewrite <- H1, <- H2, <- H3, <- H4; revert H5;
       apply keeps_files_write_loop.
  intros [[out ->]|[err ->]]%emission_outcome; [by destruct (Hok out) | by destruct (Herr err)].
Qed.

End Emission.

(** C5. The specification: a run in which a stage fails emits no chapter
    file, also when the emission step itself fails partway through the
    chapters. The code: in the run below every stage succeeds until the
    emission step, whose second write is refused; the run fails, and the
    file of the first chapter, absent before the run, stays on disk. *)
Theorem Run_emission_failure_leaves_files :
  let after := workflow.Run (E := demo.env) demo.input (demo.world 0) in
  after.1 = Err (ErrWriteMarkdownFiles (ErrWriteFile (str "02_node.md") demo.no_space_left)) /\
  w_files (demo.world 0) = ∅ /\
  w_files after.2 = {[ str "tutorial/01_flow.md" := demo.flow_chapter ]}.
Proof. cbv zeta. split; [|split]; vm_compute; exact eq_refl. Qed.

(** C6, as the specification states it, fails: with a tagged block first
    and an untagged block after it, the specification selects the content
    of the untagged block, the handler the first block with its tag. *)
Lemma yamlContent_fallback_counterexample :
  spec.claimed_candidate demo.tagged_first = Some (nl ++ str "- 0" ++ nl) /\
  services.yamlContent demo.tagged_first = Ok (str "json" ++ nl ++ str "{}" ++ nl) /\
  services.yamlContent demo.tagged_first <> Ok (nl ++ str "- 0" ++ nl).
Proof. split; [|split]; [by vm_compute..|]. by vm_compute. Qed.

Section FencedBlocks.
Context {E : Env}.

Lemma before_after sep s :
  strings.Contains s sep = true ->
  s = spec.before sep s ++ sep ++ spec.after sep s /\
  forall k, (k < length (spec.before sep s))%nat -> strings.HasPrefix (drop k s) sep = false.
Proof.
  intros [m Hm]%Contains_true. unfold spec.before, spec.after. rewrite Hm. split.
  - by apply Index_Some_split.
  - intros k Hk. apply (Index_Some_first s sep m k Hm).
    rewrite length_take in Hk. lia.
Qed.

Lemma before_absent_sep sep s : strings.Contains s sep = false -> spec.before sep s = s.
Proof. intros Hc%Contains_false. unfold spec.before. by rewrite Hc. Qed.

(** C6, amended. The handlers select the text to decode as follows. If
    the answer holds the fence [```yaml]: the text after its first
    occurrence, up to the next [```yaml] if there is one, and of that the
    text before the first fence. Otherwise, if the answer holds a fence:
    the text between the first fence and the next one (to the end when
    there is none), the tag of the first fence included. Otherwise the
    whole answer. Here [before] and [after] cut a text at the first
    occurrence of a separator. *)
Theorem yamlContent_selects :
  (forall response, services.yamlContent response = Ok (spec.candidate response)) /\
  (forall response,
     strings.Contains response (str "```yaml") = true ->
     spec.candidate response
     = spec.before fence (spec.before (str "```yaml") (spec.after (str "```yaml") response))) /\
  (forall response,
     strings.Contains response (str "```yaml") = false ->
     strings.Contains response fence = true ->
     spec.candidate response = spec.before fence (spec.after fence response)) /\
  (forall response,
     strings.Contains response fence = false -> spec.candidate response = response) /\
  (forall sep s,
     strings.Contains s sep = true ->
     s = spec.before sep s ++ sep ++ spec.after sep s /\
     forall k, (k < length (spec.before sep s))%nat ->
               strings.HasPrefix (drop k s) sep = false) /\
  (forall sep s, strings.Contains s sep = false -> spec.before sep s = s).
Proof.
  split; [apply yamlContent_candidate|]. split; [|split; [|split; [|split]]].
  - intros response H. unfold spec.candidate. by rewrite H.
  - intros response H1 H2. unfold spec.candidate. by rewrite H1, H2.
  - intros response H. unfold spec.candidate. rewrite H.
    destruct (strings.Contains response (str "```yaml")) eqn:Hy; [|done].
    exfalso. apply Contains_spec in Hy as (pre & post & ->).
    assert (strings.Contains (pre ++ str "```yaml" ++ post) fence = true); [|congruence].
    apply Contains_spec. exists pre, (str "yaml" ++ post). done.
  - apply before_after.
  - apply before_absent_sep.
Qed.

End FencedBlocks.

Lemma yamlContent_selects_witness :
  strings.Contains (demo.fenced demo.order_yaml) (str "```yaml") = true /\
  services.yamlContent (demo.fenced demo.order_yaml) = Ok demo.order_yaml.
Proof.
  assert (H : strings.Contains (demo.fenced demo.order_yaml) (str "```yaml") = true)
    by (by vm_compute).
  split; [exact H|].
  destruct yamlContent_selects as (Hc & Hy & _).
  rewrite Hc, (Hy _ H). by vm_compute.
Defined.

Section ChapterFiles.
Context {E : Env}.

Lemma WriteMarkdownFiles_Ok input w out w' :
  services.WriteMarkdownFiles input w = (Ok out, w') ->
  types.wmo_FilesWritten out
  = map (fun chapter =>
           filepath_Join (types.wmi_OutputDir input) (services.chapter_filename chapter))
        (types.wmi_Chapters input).
Proof.
  unfold services.WriteMarkdownFiles. case_bool_decide; [done|].
  destruct (os_MkdirAll _); [done|]. unfold bind.
  destruct (services.write_chapters _ _ w) as [[files| |] w1] eqn:Hw; [|done..].
  intros [= <- <-]. by apply write_chapters_Ok in Hw.
Qed.

(** C7. Sanitization of a name is: lowercase it, put ['_'] for every
    character outside [a-z0-9], collapse every run of ['_'] to one, trim
    the ['_'] at both ends. What it returns is made of [a-z], [0-9] and
    ['_'], holds no ["__"], and neither starts nor ends with ['_'].
    ["Node Abstraction!"] gives ["node_abstraction"] and ["__A--B__"] gives
    ["a_b"]. The file of a chapter is named by the two digits of its
    number, ['_'], the sanitized title and [".md"]; the emission step
    writes the chapters under these names, in order; and the chapters of a
    run are numbered from 1. *)
Theorem SanitizeFilename_spec :
  (forall name, utils.SanitizeFilename name = spec.sanitize name) /\
  (forall name,
     Forall spec.is_filename_byte (utils.SanitizeFilename name) /\
     strings.Contains (utils.SanitizeFilename name) (str "__") = false /\
     head (utils.SanitizeFilename name) <> Some spec.underscore /\
     last (utils.SanitizeFilename name) <> Some spec.underscore) /\
  utils.SanitizeFilename (str "Node Abstraction!") = str "node_abstraction" /\
  utils.SanitizeFilename (str "__A--B__") = str "a_b" /\
  (forall chapter,
     0 <= types.wco_ChapterNumber chapter <= 99 ->
     services.chapter_filename chapter
     = spec.two_digits (types.wco_ChapterNumber chapter) ++ str "_"
       ++ utils.SanitizeFilename (types.wco_Title chapter) ++ str ".md") /\
  (forall input w out w',
     services.WriteMarkdownFiles input w = (Ok out, w') ->
     types.wmo_FilesWritten out
     = map (fun chapter =>
              filepath_Join (types.wmi_OutputDir input) (services.chapter_filename chapter))
           (types.wmi_Chapters input)) /\
  (forall files abstractions projectName orderedIndices w chapters w',
     workflow.write_loop files abstractions projectName 0 [] orderedIndices w
     = (Ok chapters, w') ->
     length chapters = length orderedIndices /\
     forall k chapter, chapters !! k = Some chapter ->
                       types.wco_ChapterNumber chapter = Z.of_nat k + 1).
Proof.
  split; [apply SanitizeFilename_sanitize|]. split.
  { intros name. rewrite SanitizeFilename_sanitize.
    destruct (sanitize_properties name) as (Ha & Hd & Hh & Hl).
    split; [done|]. split; [|done]. by rewrite Contains_double, Hd. }
  split; [exact (proj1 SanitizeFilename_examples)|].
  split; [exact (proj2 SanitizeFilename_examples)|].
  split.
  { intros chapter Hn. rewrite chapter_filename_eq, verb_02d_two_digits; [reflexivity|exact Hn]. }
  split; [apply WriteMarkdownFiles_Ok|].
  intros files abstractions projectName orderedIndices w chapters w' Hl.
  apply write_loop_numbers in Hl as [Hlen Hnum]. split; [done|].
  intros k chapter Hk. apply Hnum in Hk. lia.
Qed.

End ChapterFiles.

Lemma SanitizeFilename_spec_witness :
  let chapter := {| types.wco_ChapterNumber := 7; types.wco_Title := str "Flow Control";
                    types.wco_Content := [] |} in
  0 <= types.wco_ChapterNumber chapter <= 99 /\
  services.chapter_filename (E := demo.env) chapter = str "07_flow_control.md".
Proof.
  intros chapter.
  assert (H : 0 <= types.wco_ChapterNumber chapter <= 99) by (simpl; lia).
  split; [exact H|].
  destruct (SanitizeFilename_spec (E := demo.env)) as (_ & _ & _ & _ & Hf & _).
  rewrite (Hf chapter H). vm_compute. exact eq_refl.
Defined.

Section PreviousChapters.
Context {E : Env}.

Lemma Contains_elem s sub c :
  strings.Contains s sub = true -> c ∈ sub -> c ∈ s.
Proof.
  rewrite Contains_spec. intros (pre & post & ->) Hc.
  rewrite !elem_of_app. auto.
Qed.

Lemma elem_of_interleave c parts args :
  c ∈ spec.interleave parts args ->
  (exists p, p ∈ parts /\ c ∈ p) \/ (exists a, a ∈ args /\ c ∈ a).
Proof.
  revert args. induction parts as [|p parts IH]; intros args; simpl.
  - by intros ?%elem_of_nil.
  - destruct args as [|a args].
    + intros Hc. left. exists p. split; [left | done].
    + rewrite !elem_of_app. intros [Hc|[Hc|Hc]].
      * left. exists p. split; [left | done].
      * right. exists a. split; [left | done].
      * apply IH in Hc as [(q & Hq & Hc)|(b & Hb & Hc)].
        -- left. exists q. split; [by right | done].
        -- right. exists b. split; [by right | done].
Qed.

Lemma WriteChapter_parts_no_V :
  Forall (fun p => "V"%char ∉ p) spec.WriteChapter_parts.
Proof. apply (bool_decide_unpack _). vm_compute. exact I. Qed.

Lemma caption_has_V : "V"%char ∈ spec.covered_caption.
Proof. apply (bool_decide_unpack _). vm_compute. exact I. Qed.

Lemma prompt_without_caption (args : list gostring) :
  Forall (fun a => "V"%char ∉ a) args ->
  strings.Contains (spec.interleave spec.WriteChapter_parts args) spec.covered_caption = false.
Proof.
  intros Hargs. apply not_true_is_false. intros Hc.
  apply (Contains_elem _ _ "V"%char) in Hc; [|apply caption_has_V].
  apply elem_of_interleave in Hc as [(p & Hp & Hc)|(a & Ha & Hc)].
  - pose proof WriteChapter_parts_no_V as H. rewrite Forall_forall in H. by apply (H p).
  - rewrite Forall_forall in Hargs. by apply (Hargs a).
Qed.

Lemma WriteChapter_parts_length : length spec.WriteChapter_parts = 7%nat.
Proof. vm_compute. exact eq_refl. Qed.

Lemma prompt_slot_inj a b c d x y f :
  spec.interleave spec.WriteChapter_parts [a; b; c; d; x; f]
  = spec.interleave spec.WriteChapter_parts [a; b; c; d; y; f] ->
  x = y.
Proof.
  pose proof WriteChapter_parts_length as Hl.
  destruct spec.WriteChapter_parts as [|p0 [|p1 [|p2 [|p3 [|p4 [|p5 [|p6 [|]]]]]]]];
    try discriminate Hl.
  apply interleave_slot_inj.
Qed.

(** C8. The prompt of a chapter built with a non-empty list of earlier
    chapters contains the caption of the block of covered concepts and, for
    every earlier chapter, its line, hence its name and its summary. Built
    with an empty list, the block is the empty text: the prompt is the fixed
    text around the project name, the abstraction's name and description and
    its files, and holds no caption as long as these texts hold none of its
    letters ['V']. The two prompts of the same abstraction differ. *)
Theorem WriteChapter_prompt_previous_chapters :
  (forall input prompt,
     types.wci_PreviousChapters input <> [] ->
     services.WriteChapter_prompt input = Ok prompt ->
     strings.Contains prompt spec.covered_caption = true /\
     forall prev, prev ∈ types.wci_PreviousChapters input ->
       strings.Contains prompt (spec.covered_line prev) = true /\
       strings.Contains prompt (types.cs_Name prev) = true /\
       strings.Contains prompt (types.cs_Summary prev) = true) /\
  (forall input prompt,
     types.wci_PreviousChapters input = [] ->
     services.WriteChapter_prompt input = Ok prompt ->
     services.previousChaptersContext (types.wci_PreviousChapters input) = [] /\
     exists files,
       services.fileContext (types.wci_Files input)
         (types.abs_FileIndices (types.wci_Abstraction input)) = Ok files /\
       prompt = spec.interleave spec.WriteChapter_parts
                  [types.wci_ProjectName input;
                   types.abs_Name (types.wci_Abstraction input);
                   types.abs_Description (types.wci_Abstraction input);
                   str "Related code files:" ++ nl ++ nl ++ files;
                   [];
                   types.abs_Name (types.wci_Abstraction input)] /\
       (Forall (fun text => "V"%char ∉ text)
          [types.wci_ProjectName input;
           types.abs_Name (types.wci_Abstraction input);
           types.abs_Description (types.wci_Abstraction input);
           files] ->
        strings.Contains prompt spec.covered_caption = false)) /\
  (forall input previousChapters prompt,
     previousChapters <> [] ->
     services.WriteChapter_prompt (spec.with_previous input []) = Ok prompt ->
     services.WriteChapter_prompt (spec.with_previous input previousChapters) <> Ok prompt).
Proof.
  split; [|split].
  - intros input prompt Hne Hp.
    pose proof (prompt_contains_context _ _ Hp) as Hc.
    destruct (types.wci_PreviousChapters input) as [|p ps] eqn:Hps; [done|].
    rewrite previousChaptersContext_cons in Hc.
    split.
    { eapply Contains_trans; [exact Hc|].
      apply Contains_app_r, Contains_app_r, Contains_app_l, Contains_refl. }
    intros prev Hprev.
    assert (Hline : strings.Contains prompt (spec.covered_line prev) = true).
    { eapply Contains_trans; [exact Hc|].
      apply Contains_app_r, Contains_app_r, Contains_app_r, Contains_app_r.
      apply Contains_concat. by apply list_elem_of_fmap_2. }
    split; [done|]. split.
    + eapply Contains_trans; [exact Hline | apply covered_line_name].
    + eapply Contains_trans; [exact Hline | apply covered_line_summary].
  - intros input prompt Hnil Hp.
    apply WriteChapter_prompt_Ok in Hp as (files & Hf & ->).
    rewrite Hnil. split; [apply previousChaptersContext_nil|].
    exists files. split; [done|]. rewrite previousChaptersContext_nil. split; [done|].
    intros HV. apply prompt_without_caption.
    apply Forall_cons in HV as [H1 HV]. apply Forall_cons in HV as [H2 HV].
    apply Forall_cons in HV as [H3 HV]. apply Forall_cons in HV as [H4 _].
    assert (Hhead : "V"%char ∉ str "Related code files:" ++ nl ++ nl).
    { apply (bool_decide_unpack _). vm_compute. exact I. }
    apply Forall_cons; split; [done|]. apply Forall_cons; split; [done|].
    apply Forall_cons; split; [done|]. apply Forall_cons; split.
    { rewrite !app_assoc. apply not_elem_of_app. split; [|done].
      by rewrite <- !app_assoc. }
    apply Forall_cons; split; [apply not_elem_of_nil|].
    apply Forall_cons; split; [done|]. constructor.
  - intros input previousChapters prompt Hne Hp Hq.
    apply WriteChapter_prompt_Ok in Hp as (files & Hf & ->).
    apply WriteChapter_prompt_Ok in Hq as (files' & Hf' & Hq).
    unfold spec.with_previous in Hf, Hf', Hq.
    cbn [types.wci_Files types.wci_Abstraction types.wci_PreviousChapters
         types.wci_ProjectName] in Hf, Hf', Hq.
    rewrite Hf in Hf'. injection Hf' as <-.
    apply prompt_slot_inj in Hq.
    destruct previousChapters as [|p ps]; [done|].
    rewrite previousChaptersContext_nil, previousChaptersContext_cons in Hq.
    discriminate Hq.
Qed.

End PreviousChapters.

Lemma WriteChapter_prompt_previous_chapters_witness :
  let input := demo.chapter_input [0; 1] [demo.flow_summary] in
  let prompt := demo.prompt_of (services.WriteChapter_prompt input) in
  types.wci_PreviousChapters input <> [] /\
  services.WriteChapter_prompt input = Ok prompt /\
  strings.Contains prompt (types.cs_Summary demo.flow_summary) = true.
Proof.
  intros input prompt.
  assert (Hne : types.wci_PreviousChapters input <> []) by (simpl; discriminate).
  assert (Hp : services.WriteChapter_prompt input = Ok prompt)
    by (vm_compute; exact eq_refl).
  split; [exact Hne|]. split; [exact Hp|].
  destruct (WriteChapter_prompt_previous_chapters) as (Hfull & _ & _).
  destruct (Hfull input prompt Hne Hp) as (_ & Hprev).
  destruct (Hprev demo.flow_summary) as (_ & _ & Hs); [simpl; left|exact Hs].
Defined.

Section FileIndices.
Context {E : Env}.

Lemma abstractionList_below_size files abstractions :
  services.abstractionList (map (spec.abstraction_below_size files) abstractions)
  = services.abstractionList abstractions.
Proof.
  unfold services.abstractionList. rewrite map_map. done.
Qed.

Lemma WriteChapter_prompt_below_size input :
  services.WriteChapter_prompt (spec.WriteChapter_below_size input)
  = services.WriteChapter_prompt input.
Proof.
  unfold services.WriteChapter_prompt, spec.WriteChapter_below_size,
    spec.abstraction_below_size.
  cbn [types.wci_Files types.wci_Abstraction types.wci_PreviousChapters
       types.wci_ProjectName types.abs_FileIndices types.abs_Name types.abs_Description].
  by rewrite <- fileContext_below_size.
Qed.

Lemma AnalyzeRelationships_prompt_below_size input :
  services.AnalyzeRelationships_prompt (spec.AnalyzeRelationships_below_size input)
  = services.AnalyzeRelationships_prompt input.
Proof.
  unfold services.AnalyzeRelationships_prompt, spec.AnalyzeRelationships_below_size.
  cbn [types.ari_Files types.ari_Abstractions types.ari_ProjectName].
  by rewrite <- codeContext_below_size, abstractionList_below_size.
Qed.

Lemma WriteChapter_below_size_eq input w :
  services.WriteChapter (spec.WriteChapter_below_size input) w = services.WriteChapter input w.
Proof.
  unfold services.WriteChapter. rewrite WriteChapter_prompt_below_size. done.
Qed.

Lemma AnalyzeRelationships_below_size_eq input w :
  services.AnalyzeRelationships (spec.AnalyzeRelationships_below_size input) w
  = services.AnalyzeRelationships input w.
Proof.
  unfold services.AnalyzeRelationships.
  rewrite AnalyzeRelationships_prompt_below_size.
  unfold spec.AnalyzeRelationships_below_size at 1.
  cbn [types.ari_Abstractions]. unfold len. rewrite length_map.
  destruct (_ =? 0); [done|].
  unfold bind. destruct (lift _ w) as [[prompt| |] w1]; [|done..].
  destruct (services.ask _ _ w1) as [[response| |] w2]; [|done..].
  unfold services.relationships_of_response, services.validate_relationships.
  unfold spec.AnalyzeRelationships_below_size.
  cbn [types.ari_Abstractions]. unfold len. by rewrite length_map.
Qed.

(** C9. Both builders of a prompt's file context check a file index
    against the size of the corpus only: an index at or past the size is
    passed over, so that the composer and the relationship extractor behave
    on an input as on the input with these indices removed. When every file
    index is non-negative the context is built; a negative file index is
    not checked and makes the read of the corpus go out of range, in the
    context builders and in the two handlers. *)
Theorem file_index_upper_bound_only :
  (forall input w,
     services.WriteChapter input w
     = services.WriteChapter (spec.WriteChapter_below_size input) w) /\
  (forall input w,
     services.AnalyzeRelationships input w
     = services.AnalyzeRelationships (spec.AnalyzeRelationships_below_size input) w) /\
  (forall files fileIndices,
     Forall (fun fileIdx => len files <= fileIdx) fileIndices ->
     services.fileContext files fileIndices = Ok [] /\
     services.relatedFiles files fileIndices = Ok []) /\
  (forall files abs,
     spec.file_indices_nonneg abs ->
     exists context,
       services.fileContext files (types.abs_FileIndices abs) = Ok context) /\
  (forall files abstractions,
     Forall spec.file_indices_nonneg abstractions ->
     exists context, services.codeContext files abstractions = Ok context) /\
  (forall files pre fileIdx post,
     Forall (fun i => 0 <= i) pre -> fileIdx < 0 ->
     services.fileContext files (pre ++ fileIdx :: post)
     = Panic (IndexOutOfRange fileIdx (len files)) /\
     services.relatedFiles files (pre ++ fileIdx :: post)
     = Panic (IndexOutOfRange fileIdx (len files))) /\
  (forall input w pre fileIdx post,
     types.abs_Name (types.wci_Abstraction input) <> [] ->
     types.abs_FileIndices (types.wci_Abstraction input) = pre ++ fileIdx :: post ->
     Forall (fun i => 0 <= i) pre -> fileIdx < 0 ->
     services.WriteChapter input w
     = (Panic (IndexOutOfRange fileIdx (len (types.wci_Files input))), w)) /\
  (forall input w before abs after pre fileIdx post,
     types.ari_Abstractions input = before ++ abs :: after ->
     Forall spec.file_indices_nonneg before ->
     types.abs_FileIndices abs = pre ++ fileIdx :: post ->
     Forall (fun i => 0 <= i) pre -> fileIdx < 0 ->
     services.AnalyzeRelationships input w
     = (Panic (IndexOutOfRange fileIdx (len (types.ari_Files input))), w)).
Proof.
  split; [by intros; rewrite WriteChapter_below_size_eq|].
  split; [by intros; rewrite AnalyzeRelationships_below_size_eq|].
  split.
  { intros files fileIndices Hall.
    rewrite fileContext_below_size, relatedFiles_below_size.
    replace (spec.below_size files fileIndices) with (@nil Z); [done|].
    unfold spec.below_size. induction Hall as [|i l Hi Hl IH]; [done|].
    rewrite filter_cons. destruct (decide _); [lia | done]. }
  split; [intros files abs Habs; by apply fileContext_safe|].
  split; [intros files abstractions Habs; by apply codeContext_safe|].
  split.
  { intros files pre fileIdx post Hpre Hneg.
    by rewrite fileContext_negative, relatedFiles_negative. }
  split.
  - intros input w pre fileIdx post Hname Hidx Hpre Hneg.
    unfold services.WriteChapter. rewrite bool_decide_eq_false_2 by done.
    unfold services.WriteChapter_prompt.
    rewrite Hidx, fileContext_negative by done. done.
  - intros input w before abs after pre fileIdx post Habs Hbefore Hidx Hpre Hneg.
    unfold services.AnalyzeRelationships.
    replace (len (types.ari_Abstractions input) =? 0) with false.
    2:{ symmetry. apply Z.eqb_neq. rewrite Habs, len_app, len_cons.
        pose proof (len_nonneg before). pose proof (len_nonneg after). lia. }
    unfold services.AnalyzeRelationships_prompt.
    rewrite Habs, (codeContext_negative _ _ _ _ pre fileIdx post) by done. done.
Qed.

End FileIndices.

Lemma file_index_upper_bound_only_witness :
  let input := demo.chapter_input [0; 7; -1; 1] [] in
  types.abs_Name (types.wci_Abstraction input) <> [] /\
  types.abs_FileIndices (types.wci_Abstraction input) = [0; 7] ++ -1 :: [1] /\
  Forall (fun i => 0 <= i) [0; 7] /\
  -1 < 0 /\
  services.WriteChapter (E := demo.env) input (demo.world 0)
  = (Panic (IndexOutOfRange (-1) 3), demo.world 0).
Proof.
  intros input.
  assert (Hname : types.abs_Name (types.wci_Abstraction input) <> [])
    by (simpl; discriminate).
  assert (Hidx : types.abs_FileIndices (types.wci_Abstraction input) = [0; 7] ++ -1 :: [1])
    by reflexivity.
  assert (Hpre : Forall (fun i => 0 <= i) [0; 7])
    by (apply Forall_cons; split; [lia|]; apply Forall_cons; split; [lia|]; constructor).
  assert (Hneg : -1 < 0) by lia.
  split; [exact Hname|]. split; [exact Hidx|]. split; [exact Hpre|]. split; [exact Hneg|].
  destruct (file_index_upper_bound_only (E := demo.env)) as (_ & _ & _ & _ & _ & _ & Hw & _).
  exact (Hw input (demo.world 0) [0; 7] (-1) [1] Hname Hidx Hpre Hneg).
Defined.

(** * Further properties of the code *)

(** ** The outcomes of the handlers *)

Section Generator.
Context {E : Env}.

Lemma extractIndex_no_panic v p : services.extractIndex v <> Panic p.
Proof.
  destruct v as [n|s|t]; [done| |done].
  rewrite extractIndex_string. unfold services.atoi. by destruct (strconv.Atoi _).
Qed.

Lemma yamlContent_no_panic response p : services.yamlContent response <> Panic p.
Proof. by rewrite yamlContent_candidate. Qed.

(** The outcomes of [ask]: the request is counted as soon as the client
    exists, whatever the generator answers. *)
Lemma ask_outcome prompt sys w r w' :
  services.ask prompt sys w = (r, w') ->
  w_files w' = w_files w /\
  ((r = Err (ErrCreateLLMClient ErrApiKeyNotSet) /\ w' = w /\
    os_Getenv (str "OPENROUTER_API_KEY") = []) \/
   (os_Getenv (str "OPENROUTER_API_KEY") <> [] /\
    w_requests w' = S (w_requests w) /\
    ((exists response, r = Ok response) \/
     (exists err, r = Err (ErrLLMCallFailed err))))).
Proof.
  unfold services.ask, bind, wrap, lift, llm.NewClient.
  case_bool_decide as Hkey.
  - intros [= <- <-]. split; [done|]. by left.
  - unfold llm.CallLLM.
    destruct (openrouter_CreateChatCompletion _ _ _ _) as [err|[|text choices]];
      intros [= <- <-]; (split; [done|]); right; (split; [done|]); (split; [done|]);
      eauto.
Qed.

Lemma ask_no_panic prompt sys w p w' : services.ask prompt sys w <> (Panic p, w').
Proof.
  intros H. apply ask_outcome in H as [_ [(H & _)|(_ & _ & [[? H]|[? H]])]]; discriminate.
Qed.

Lemma ask_Ok prompt sys w response w' :
  services.ask prompt sys w = (Ok response, w') ->
  w_files w' = w_files w /\ w_requests w' = S (w_requests w).
Proof.
  intros H. apply ask_outcome in H as [Hf [(H & _)|(_ & Hr & _)]]; [discriminate | done].
Qed.

End Generator.

Section AbstractionsFacts.
Context {E : Env}.

Lemma find_invalid_None nfiles (l : list Z) :
  find (fun fileIdx => (fileIdx <? 0) || (nfiles <=? fileIdx)) l = None <->
  Forall (fun fileIdx => 0 <= fileIdx < nfiles) l.
Proof.
  induction l as [|x l IH]; simpl; [by split; [constructor|]|].
  destruct ((x <? 0) || (nfiles <=? x)) eqn:Hx.
  - split; [done|]. intros [Hx' _]%Forall_cons. apply in_bounds_true in Hx. done.
  - rewrite IH, Forall_cons. apply in_bounds_false in Hx. tauto.
Qed.

Lemma convert_abstractions_no_panic nfiles i yamlAbstractions p :
  services.convert_abstractions nfiles i yamlAbstractions <> Panic p.
Proof.
  revert i p. induction yamlAbstractions as [|ya rest IH]; intros i p;
    cbn [services.convert_abstractions]; [done|].
  destruct (find _ _); [done|].
  destruct (services.convert_abstractions nfiles (i + 1) rest) eqn:Hr; [done..|].
  by apply IH in Hr.
Qed.

(** The abstractions that pass the check are the decoded ones, numbered
    from [i], each with file indices of the corpus. *)
Lemma convert_abstractions_Ok nfiles i yamlAbstractions abstractions :
  services.convert_abstractions nfiles i yamlAbstractions = Ok abstractions <->
  Forall (fun ya => Forall (fun fileIdx => 0 <= fileIdx < nfiles) (yaml.ya_Files ya))
    yamlAbstractions /\
  abstractions
  = imap (fun k ya => {| types.abs_Index := i + Z.of_nat k;
                         types.abs_Name := yaml.ya_Name ya;
                         types.abs_Description := yaml.ya_Description ya;
                         types.abs_FileIndices := yaml.ya_Files ya |}) yamlAbstractions.
Proof.
  revert i abstractions.
  induction yamlAbstractions as [|ya rest IH]; intros i abstractions;
    cbn [services.convert_abstractions].
  - split; [by intros [= <-] | by intros [_ ->]].
  - destruct (find _ _) as [bad|] eqn:Hfind.
    + split; [done|]. intros [[Hya _]%Forall_cons _].
      apply find_invalid_None in Hya. congruence.
    + apply find_invalid_None in Hfind.
      destruct (services.convert_abstractions nfiles (i + 1) rest) as [more| |] eqn:Hr;
        cbn [rbind].
      * apply IH in Hr as [Hrest ->]. rewrite Forall_cons. cbn [imap].
        rewrite Z.add_0_r.
        assert (Heq : forall l,
          imap (fun k ya0 => {| types.abs_Index := i + 1 + Z.of_nat k;
                         types.abs_Name := yaml.ya_Name ya0;
                         types.abs_Description := yaml.ya_Description ya0;
                         types.abs_FileIndices := yaml.ya_Files ya0 |}) l
          = imap ((fun k ya0 => {| types.abs_Index := i + Z.of_nat k;
                         types.abs_Name := yaml.ya_Name ya0;
                         types.abs_Description := yaml.ya_Description ya0;
                         types.abs_FileIndices := yaml.ya_Files ya0 |}) ∘ S) l).
        { intros l. apply imap_ext. intros k x _. simpl. f_equal. lia. }
        rewrite Heq. split; [intros [= <-]; done | intros [_ ->]; done].
      * split; [done|]. intros [[_ Hrest]%Forall_cons _].
        assert (exists a, services.convert_abstractions nfiles (i + 1) rest = Ok a) as [a Ha];
          [|congruence].
        eexists. apply IH. done.
      * by apply convert_abstractions_no_panic in Hr.
Qed.

End AbstractionsFacts.

Section AbstractionsStage.
Context {E : Env}.

(** The abstractions kept under the ceiling [maxAbstractions >= 0]. *)
Lemma validate_abstractions_kept input yamlAbstractions :
  0 <= types.aai_MaxAbstractions input -> yamlAbstractions <> [] ->
  services.validate_abstractions input yamlAbstractions
  = (abstractions <-r
       services.convert_abstractions (len (types.aai_Files input)) 0
         (take (Z.to_nat (types.aai_MaxAbstractions input)) yamlAbstractions) ;;
     Ok {| types.aao_Abstractions := abstractions |}).
Proof.
  intros Hmax Hne. unfold services.validate_abstractions.
  replace (len yamlAbstractions =? 0) with false.
  2:{ symmetry. apply Z.eqb_neq. destruct yamlAbstractions; [done|]. rewrite len_cons.
      pose proof (len_nonneg yamlAbstractions). lia. }
  destruct (types.aai_MaxAbstractions input <? len yamlAbstractions) eqn:Hlt.
  - replace (types.aai_MaxAbstractions input <? 0) with false by (symmetry; apply Z.ltb_ge; lia).
    done.
  - apply Z.ltb_ge in Hlt. rewrite take_ge; [done|]. unfold len in Hlt. lia.
Qed.

Lemma validate_abstractions_negative input yamlAbstractions :
  types.aai_MaxAbstractions input < 0 -> yamlAbstractions <> [] ->
  services.validate_abstractions input yamlAbstractions
  = Panic (SliceBoundsOutOfRange (types.aai_MaxAbstractions input) (len yamlAbstractions)).
Proof.
  intros Hmax Hne. unfold services.validate_abstractions.
  replace (len yamlAbstractions =? 0) with false.
  2:{ symmetry. apply Z.eqb_neq. destruct yamlAbstractions; [done|]. rewrite len_cons.
      pose proof (len_nonneg yamlAbstractions). lia. }
  pose proof (len_nonneg yamlAbstractions).
  replace (types.aai_MaxAbstractions input <? len yamlAbstractions) with true
    by (symmetry; apply Z.ltb_lt; lia).
  replace (types.aai_MaxAbstractions input <? 0) with true by (symmetry; apply Z.ltb_lt; lia).
  done.
Qed.

Lemma validate_abstractions_no_panic input yamlAbstractions p :
  0 <= types.aai_MaxAbstractions input ->
  services.validate_abstractions input yamlAbstractions <> Panic p.
Proof.
  intros Hmax. destruct yamlAbstractions as [|ya rest]; [done|].
  rewrite validate_abstractions_kept by done.
  destruct (services.convert_abstractions _ _ _) eqn:Hc; [done..|].
  by apply convert_abstractions_no_panic in Hc.
Qed.

Lemma validate_abstractions_Ok input yamlAbstractions out :
  0 <= types.aai_MaxAbstractions input ->
  services.validate_abstractions input yamlAbstractions = Ok out ->
  yamlAbstractions <> [] /\
  Forall (valid.abstraction (len (types.aai_Files input))) (types.aao_Abstractions out) /\
  len (types.aao_Abstractions out)
  = Z.min (len yamlAbstractions) (types.aai_MaxAbstractions input).
Proof.
  intros Hmax Hv. destruct yamlAbstractions as [|ya rest]; [done|]. split; [done|].
  rewrite validate_abstractions_kept in Hv by done.
  destruct (services.convert_abstractions _ _ _) as [abstractions| |] eqn:Hc; [|done..].
  injection Hv as <-. cbn [types.aao_Abstractions].
  apply convert_abstractions_Ok in Hc as [Hall ->]. split.
  - apply Forall_forall. intros abs (k & ya' & -> & Hk)%elem_of_lookup_imap.
    unfold valid.abstraction. cbn [types.abs_FileIndices].
    rewrite Forall_forall in Hall. apply Hall. by eapply list_elem_of_lookup_2.
  - unfold len. rewrite length_imap, length_take. lia.
Qed.

Lemma AnalyzeAbstractions_outcome input w r w' :
  services.AnalyzeAbstractions input w = (r, w') ->
  (r = Err ErrNoFilesProvided /\ w' = w /\ types.aai_Files input = []) \/
  (types.aai_Files input <> [] /\
   exists r0, services.ask (services.AnalyzeAbstractions_prompt input)
                services.AnalyzeAbstractions_system w = (r0, w') /\
     match r0 with
     | Ok response => r = services.abstractions_of_response input response
     | Err err => r = Err err
     | Panic p => r = Panic p
     end).
Proof.
  unfold services.AnalyzeAbstractions.
  destruct (len (types.aai_Files input) =? 0) eqn:Hn.
  - intros [= <- <-]. left. apply Z.eqb_eq in Hn.
    destruct (types.aai_Files input); [done|]. rewrite len_cons in Hn.
    pose proof (len_nonneg l). lia.
  - intros H. right. split.
    { intros Hnil. rewrite Hnil in Hn. done. }
    unfold bind in H.
    destruct (services.ask _ _ w) as [[response|err|p] w1];
      [unfold lift in H|..]; injection H as <- <-; (eexists; split; [reflexivity|done]).
Qed.

Lemma abstractions_of_response_no_panic input response p :
  0 <= types.aai_MaxAbstractions input ->
  services.abstractions_of_response input response <> Panic p.
Proof.
  intros Hmax. unfold services.abstractions_of_response. rewrite yamlContent_candidate.
  cbn [rbind]. destruct (yaml_Unmarshal_abstractions _); [done|].
  by apply validate_abstractions_no_panic.
Qed.

Lemma AnalyzeAbstractions_no_panic input w p w' :
  0 <= types.aai_MaxAbstractions input ->
  services.AnalyzeAbstractions input w <> (Panic p, w').
Proof.
  intros Hmax H. apply AnalyzeAbstractions_outcome in H as [(H & _)|(_ & r0 & Ha & H)];
    [done|].
  destruct r0 as [response|err|q]; [|done|by apply ask_no_panic in Ha].
  symmetry in H. by apply abstractions_of_response_no_panic in H.
Qed.

Lemma AnalyzeAbstractions_Ok input w out w' :
  0 <= types.aai_MaxAbstractions input ->
  services.AnalyzeAbstractions input w = (Ok out, w') ->
  Forall (valid.abstraction (len (types.aai_Files input))) (types.aao_Abstractions out) /\
  len (types.aao_Abstractions out) <= types.aai_MaxAbstractions input /\
  (0 < types.aai_MaxAbstractions input -> types.aao_Abstractions out <> []) /\
  w_files w' = w_files w /\ w_requests w' = S (w_requests w).
Proof.
  intros Hmax H. apply AnalyzeAbstractions_outcome in H as [(H & _)|(_ & r0 & Ha & H)];
    [done|].
  destruct r0 as [response|err|q]; [|done..].
  apply ask_Ok in Ha as [Hf Hr]. symmetry in H.
  unfold services.abstractions_of_response in H. rewrite yamlContent_candidate in H.
  cbn [rbind] in H. destruct (yaml_Unmarshal_abstractions _) as [|ya]; [done|].
  apply validate_abstractions_Ok in H as (Hne & Hall & Hlen); [|done].
  split; [done|]. split; [lia|]. split; [|done].
  intros Hpos Hnil. rewrite Hnil in Hlen. rewrite len_nil in Hlen.
  destruct ya; [done|]. rewrite len_cons in Hlen. pose proof (len_nonneg ya). lia.
Qed.

End AbstractionsStage.

Section RelationshipsStage.
Context {E : Env}.

Lemma valid_abstraction_nonneg nfiles abs :
  valid.abstraction nfiles abs -> spec.file_indices_nonneg abs.
Proof.
  unfold valid.abstraction, spec.file_indices_nonneg. intros H.
  eapply Forall_impl; [exact H|]. intros x. simpl. lia.
Qed.

Lemma valid_abstractions_nonneg nfiles abstractions :
  Forall (valid.abstraction nfiles) abstractions ->
  Forall spec.file_indices_nonneg abstractions.
Proof. intros H. eapply Forall_impl; [exact H|]. apply valid_abstraction_nonneg. Qed.

Lemma convert_relationships_no_panic n i details p :
  services.convert_relationships n i details <> Panic p.
Proof.
  revert i p. induction details as [|yr rest IH]; intros i p;
    cbn [services.convert_relationships]; [done|].
  destruct (services.extractIndex (yaml.yr_From yr)) eqn:Hf;
    [|done|by apply extractIndex_no_panic in Hf].
  destruct (services.extractIndex (yaml.yr_To yr)) eqn:Ht;
    [|done|by apply extractIndex_no_panic in Ht].
  destruct (_ || _); [done|]. destruct (_ || _); [done|].
  destruct (services.convert_relationships n (i + 1) rest) eqn:Hr; [done..|].
  by apply IH in Hr.
Qed.

Lemma relationships_of_response_no_panic input response p :
  services.relationships_of_response input response <> Panic p.
Proof.
  unfold services.relationships_of_response. rewrite yamlContent_candidate. cbn [rbind].
  destruct (yaml_Unmarshal_relationships _); [done|].
  unfold services.validate_relationships.
  destruct (services.convert_relationships _ _ _) eqn:Hr; [done..|].
  by apply convert_relationships_no_panic in Hr.
Qed.

Lemma relationships_of_response_Ok input response out :
  services.relationships_of_response input response = Ok out ->
  Forall (valid.relationship (len (types.ari_Abstractions input))) (types.rd_Details out).
Proof.
  unfold services.relationships_of_response. rewrite yamlContent_candidate. cbn [rbind].
  destruct (yaml_Unmarshal_relationships _) as [|yamlData]; [done|].
  unfold services.validate_relationships.
  destruct (services.convert_relationships _ _ _) as [rels| |] eqn:Hr; [|done..].
  cbn [rbind]. intros [= <-]. cbn [types.rd_Details].
  apply convert_relationships_Ok_inv in Hr.
  eapply Forall2_Forall_r; [exact Hr|]. apply Forall_forall.
  intros yr _ rel (_ & Hb & _). exact Hb.
Qed.

Lemma AnalyzeRelationships_outcome input w r w' :
  services.AnalyzeRelationships input w = (r, w') ->
  (r = Err ErrNoAbstractionsProvided /\ w' = w /\ types.ari_Abstractions input = []) \/
  (types.ari_Abstractions input <> [] /\
   match services.AnalyzeRelationships_prompt input with
   | Ok prompt =>
     exists r0, services.ask prompt services.AnalyzeRelationships_system w = (r0, w') /\
       match r0 with
       | Ok response => r = services.relationships_of_response input response
       | Err err => r = Err err
       | Panic p => r = Panic p
       end
   | Err err => r = Err err /\ w' = w
   | Panic p => r = Panic p /\ w' = w
   end).
Proof.
  unfold services.AnalyzeRelationships.
  destruct (len (types.ari_Abstractions input) =? 0) eqn:Hn.
  - intros [= <- <-]. left. apply Z.eqb_eq in Hn.
    destruct (types.ari_Abstractions input); [done|]. rewrite len_cons in Hn.
    pose proof (len_nonneg l). lia.
  - intros H. right. split.
    { intros Hnil. rewrite Hnil in Hn. done. }
    unfold bind at 1, lift at 1 in H.
    destruct (services.AnalyzeRelationships_prompt input) as [prompt|err|p];
      [|by injection H as <- <-..].
    unfold bind in H.
    destruct (services.ask _ _ w) as [[response|err|p] w1];
      [unfold lift in H|..]; injection H as <- <-; (eexists; split; [reflexivity|done]).
Qed.

Lemma AnalyzeRelationships_no_panic input w p w' :
  Forall spec.file_indices_nonneg (types.ari_Abstractions input) ->
  services.AnalyzeRelationships input w <> (Panic p, w').
Proof.
  intros Hall H. apply AnalyzeRelationships_outcome in H as [(H & _)|(_ & H)]; [done|].
  unfold services.AnalyzeRelationships_prompt in H.
  destruct (codeContext_safe (types.ari_Files input) _ Hall) as [context Hc].
  rewrite Hc in H. cbn [rbind] in H. destruct H as (r0 & Ha & H).
  destruct r0 as [response|err|q]; [|done|by apply ask_no_panic in Ha].
  symmetry in H. by apply relationships_of_response_no_panic in H.
Qed.

Lemma AnalyzeRelationships_Ok input w out w' :
  services.AnalyzeRelationships input w = (Ok out, w') ->
  Forall (valid.relationship (len (types.ari_Abstractions input))) (types.rd_Details out) /\
  w_files w' = w_files w /\ w_requests w' = S (w_requests w).
Proof.
  intros H. apply AnalyzeRelationships_outcome in H as [(H & _)|(_ & H)]; [done|].
  destruct (services.AnalyzeRelationships_prompt input) as [prompt|err|p];
    [|by destruct H..].
  destruct H as (r0 & Ha & H). destruct r0 as [response|err|q]; [|done..].
  apply ask_Ok in Ha as [Hf Hr]. symmetry in H.
  apply relationships_of_response_Ok in H. done.
Qed.

End RelationshipsStage.

Section OrderStage.
Context {E : Env}.

Lemma relationshipLines_safe abstractions details :
  Forall (valid.relationship (len abstractions)) details ->
  exists lines, services.relationshipLines abstractions details = Ok lines.
Proof.
  induction 1 as [|rel rest [Hf Ht] _ [lines IH]]; [by eexists|].
  cbn [services.relationshipLines].
  destruct (index_below abstractions _ Hf) as [from ->].
  destruct (index_below abstractions _ Ht) as [to ->].
  cbn [rbind]. rewrite IH. cbn [rbind]. by eexists.
Qed.

(** The first relationship with an end outside the abstraction list stops
    the listing with an out-of-range read. *)
Lemma relationshipLines_out_of_range abstractions pre rel post :
  Forall (valid.relationship (len abstractions)) pre ->
  ~ valid.relationship (len abstractions) rel ->
  services.relationshipLines abstractions (pre ++ rel :: post)
  = Panic (IndexOutOfRange
             (if bool_decide (0 <= types.rel_FromIndex rel < len abstractions)
              then types.rel_ToIndex rel else types.rel_FromIndex rel)
             (len abstractions)).
Proof.
  intros Hpre Hrel. induction Hpre as [|r pre [Hf Ht] _ IH].
  - cbn [app services.relationshipLines]. case_bool_decide as Hfrom.
    + destruct (index_below abstractions _ Hfrom) as [from ->]. cbn [rbind].
      rewrite index_out_of_range; [done|]. unfold valid.relationship in Hrel. lia.
    + rewrite index_out_of_range; [done|]. lia.
  - cbn [app services.relationshipLines].
    destruct (index_below abstractions _ Hf) as [from ->].
    destruct (index_below abstractions _ Ht) as [to ->].
    cbn [rbind]. by rewrite IH.
Qed.

Lemma order_loop_no_panic n i seen vals p :
  services.order_loop n i seen vals <> Panic p.
Proof.
  revert i seen p. induction vals as [|v rest IH]; intros i seen p;
    cbn [services.order_loop]; [done|].
  destruct (services.extractIndex v) eqn:Hv; [|done|by apply extractIndex_no_panic in Hv].
  destruct (_ || _); [done|]. case_bool_decide; [done|].
  destruct (services.order_loop n (i + 1) _ rest) eqn:Hr; [done..|].
  by apply IH in Hr.
Qed.

Lemma order_of_response_no_panic input response p :
  services.order_of_response input response <> Panic p.
Proof.
  unfold services.order_of_response. rewrite yamlContent_candidate. cbn [rbind].
  destruct (yaml_Unmarshal_indices _); [done|].
  unfold services.validate_order.
  destruct (services.order_loop _ _ _ _) eqn:Hr;
    [|done|by apply order_loop_no_panic in Hr].
  cbn [rbind]. by case_bool_decide.
Qed.

Lemma order_of_response_Ok input response out :
  services.order_of_response input response = Ok out ->
  types.oco_OrderedIndices out ≡ₚ seqZ 0 (len (types.oci_Abstractions input)).
Proof.
  unfold services.order_of_response. rewrite yamlContent_candidate. cbn [rbind].
  destruct (yaml_Unmarshal_indices _) as [|vals]; [done|].
  destruct out as [order]. intros [_ H]%validate_order_Ok. done.
Qed.

Lemma OrderChapters_outcome input w r w' :
  services.OrderChapters input w = (r, w') ->
  (r = Err ErrNoAbstractionsProvided /\ w' = w /\ types.oci_Abstractions input = []) \/
  (types.oci_Abstractions input <> [] /\
   match services.OrderChapters_prompt input with
   | Ok prompt =>
     exists r0, services.ask prompt services.OrderChapters_system w = (r0, w') /\
       match r0 with
       | Ok response => r = services.order_of_response input response
       | Err err => r = Err err
       | Panic p => r = Panic p
       end
   | Err err => r = Err err /\ w' = w
   | Panic p => r = Panic p /\ w' = w
   end).
Proof.
  unfold services.OrderChapters.
  destruct (len (types.oci_Abstractions input) =? 0) eqn:Hn.
  - intros [= <- <-]. left. apply Z.eqb_eq in Hn.
    destruct (types.oci_Abstractions input); [done|]. rewrite len_cons in Hn.
    pose proof (len_nonneg l). lia.
  - intros H. right. split.
    { intros Hnil. rewrite Hnil in Hn. done. }
    unfold bind at 1, lift at 1 in H.
    destruct (services.OrderChapters_prompt input) as [prompt|err|p];
      [|by injection H as <- <-..].
    unfold bind in H.
    destruct (services.ask _ _ w) as [[response|err|p] w1];
      [unfold lift in H|..]; injection H as <- <-; (eexists; split; [reflexivity|done]).
Qed.

Lemma OrderChapters_prompt_safe input :
  Forall (valid.relationship (len (types.oci_Abstractions input)))
    (types.rd_Details (types.oci_Relationships input)) ->
  exists prompt, services.OrderChapters_prompt input = Ok prompt.
Proof.
  intros Hall. unfold services.OrderChapters_prompt.
  destruct (relationshipLines_safe _ _ Hall) as [lines ->]. cbn [rbind]. by eexists.
Qed.

Lemma OrderChapters_no_panic input w p w' :
  Forall (valid.relationship (len (types.oci_Abstractions input)))
    (types.rd_Details (types.oci_Relationships input)) ->
  services.OrderChapters input w <> (Panic p, w').
Proof.
  intros Hall H. apply OrderChapters_outcome in H as [(H & _)|(_ & H)]; [done|].
  destruct (OrderChapters_prompt_safe _ Hall) as [prompt Hp]. rewrite Hp in H.
  destruct H as (r0 & Ha & H).
  destruct r0 as [response|err|q]; [|done|by apply ask_no_panic in Ha].
  symmetry in H. by apply order_of_response_no_panic in H.
Qed.

Lemma OrderChapters_Ok input w out w' :
  services.OrderChapters input w = (Ok out, w') ->
  types.oco_OrderedIndices out ≡ₚ seqZ 0 (len (types.oci_Abstractions input)) /\
  w_files w' = w_files w /\ w_requests w' = S (w_requests w).
Proof.
  intros H. apply OrderChapters_outcome in H as [(H & _)|(_ & H)]; [done|].
  destruct (services.OrderChapters_prompt input) as [prompt|err|p];
    [|by destruct H..].
  destruct H as (r0 & Ha & H). destruct r0 as [response|err|q]; [|done..].
  apply ask_Ok in Ha as [Hf Hr]. symmetry in H.
  apply order_of_response_Ok in H. done.
Qed.

End OrderStage.

Section ChapterStage.
Context {E : Env}.

Lemma WriteChapter_outcome input w r w' :
  services.WriteChapter input w = (r, w') ->
  (r = Err ErrAbstractionNameRequired /\ w' = w /\
   types.abs_Name (types.wci_Abstraction input) = []) \/
  (types.abs_Name (types.wci_Abstraction input) <> [] /\
   match services.WriteChapter_prompt input with
   | Ok prompt =>
     exists r0, services.ask prompt services.WriteChapter_system w = (r0, w') /\
       match r0 with
       | Ok response =>
         r = Ok {| types.wco_ChapterNumber := types.wci_ChapterNumber input;
                   types.wco_Title := types.abs_Name (types.wci_Abstraction input);
                   types.wco_Content := services.cleanup_response response |}
       | Err err => r = Err err
       | Panic p => r = Panic p
       end
   | Err err => r = Err err /\ w' = w
   | Panic p => r = Panic p /\ w' = w
   end).
Proof.
  unfold services.WriteChapter. case_bool_decide as Hname.
  - intros [= <- <-]. by left.
  - intros H. right. split; [done|].
    unfold bind at 1, lift at 1 in H.
    destruct (services.WriteChapter_prompt input) as [prompt|err|p];
      [|by injection H as <- <-..].
    unfold bind in H.
    destruct (services.ask _ _ w) as [[response|err|p] w1];
      [unfold ret in H|..]; injection H as <- <-; (eexists; split; [reflexivity|done]).
Qed.

Lemma WriteChapter_prompt_safe input :
  spec.file_indices_nonneg (types.wci_Abstraction input) ->
  exists prompt, services.WriteChapter_prompt input = Ok prompt.
Proof.
  intros Hall. unfold services.WriteChapter_prompt.
  destruct (fileContext_safe (types.wci_Files input) _ Hall) as [context ->].
  cbn [rbind]. by eexists.
Qed.

Lemma WriteChapter_no_panic input w p w' :
  spec.file_indices_nonneg (types.wci_Abstraction input) ->
  services.WriteChapter input w <> (Panic p, w').
Proof.
  intros Hall H. apply WriteChapter_outcome in H as [(H & _)|(_ & H)]; [done|].
  destruct (WriteChapter_prompt_safe _ Hall) as [prompt Hp]. rewrite Hp in H.
  destruct H as (r0 & Ha & H).
  destruct r0 as [response|err|q]; [done|done|by apply ask_no_panic in Ha].
Qed.

Lemma WriteChapter_Ok input w out w' :
  services.WriteChapter input w = (Ok out, w') ->
  types.wco_ChapterNumber out = types.wci_ChapterNumber input /\
  types.wco_Title out = types.abs_Name (types.wci_Abstraction input) /\
  types.wco_Title out <> [] /\
  w_files w' = w_files w /\ w_requests w' = S (w_requests w).
Proof.
  intros H. apply WriteChapter_outcome in H as [(H & _)|(Hname & H)]; [done|].
  destruct (services.WriteChapter_prompt input) as [prompt|err|p];
    [|by destruct H..].
  destruct H as (r0 & Ha & H). destruct r0 as [response|err|q]; [|done..].
  apply ask_Ok in Ha as [Hf Hr]. injection H as ->. done.
Qed.

(** The input of the chapter at place [k] of the loop. *)
Lemma write_loop_Ok files abstractions projectName i previousChapters orderedIndices
    w chapters w' :
  workflow.write_loop files abstractions projectName i previousChapters orderedIndices w
  = (Ok chapters, w') ->
  length chapters = length orderedIndices /\
  w_files w' = w_files w /\
  w_requests w' = (w_requests w + length orderedIndices)%nat /\
  forall k chapter, chapters !! k = Some chapter ->
    exists absIndex abstraction w1 w2,
      orderedIndices !! k = Some absIndex /\
      index abstractions absIndex = Ok abstraction /\
      services.WriteChapter
        {| types.wci_Abstraction := abstraction;
           types.wci_Files := files;
           types.wci_PreviousChapters :=
             previousChapters ++ map workflow.chapter_summary (take k chapters);
           types.wci_ProjectName := projectName;
           types.wci_ChapterNumber := i + Z.of_nat k + 1 |} w1 = (Ok chapter, w2).
Proof.
  revert i previousChapters w chapters.
  induction orderedIndices as [|absIndex rest IH]; intros i previousChapters w chapters;
    cbn [workflow.write_loop].
  - intros [= <- <-]. split; [done|]. split; [done|]. split; [simpl; lia|].
    intros k chapter Hk. by rewrite lookup_nil in Hk.
  - unfold bind at 1, lift at 1.
    destruct (index abstractions absIndex) as [abstraction| |] eqn:Hidx; [|done..].
    unfold bind at 1.
    destruct (wrap _ _ w) as [[chapterOutput| |] w1] eqn:Hw; [|done..].
    assert (Hw' : services.WriteChapter
        {| types.wci_Abstraction := abstraction; types.wci_Files := files;
           types.wci_PreviousChapters := previousChapters;
           types.wci_ProjectName := projectName;
           types.wci_ChapterNumber := i + 1 |} w = (Ok chapterOutput, w1)).
    { unfold wrap in Hw. destruct (services.WriteChapter _ w) as [[?| |] ?]; by simplify_eq. }
    clear Hw. unfold bind.
    destruct (workflow.write_loop _ _ _ _ _ rest w1) as [[more| |] w2] eqn:Hm; [|done..].
    unfold ret. intros [= <- <-].
    apply IH in Hm as (Hlen & Hf & Hr & Hk).
    pose proof (WriteChapter_Ok _ _ _ _ Hw') as (_ & _ & _ & Hf1 & Hr1).
    split; [simpl; lia|]. split; [congruence|]. split; [simpl; lia|].
    intros [|k] chapter Hc.
    + injection Hc as <-. exists absIndex, abstraction, w, w1.
      split; [done|]. split; [done|]. cbn [take map].
      rewrite app_nil_r, Z.add_0_r. done.
    + cbn [lookup list_lookup] in Hc. destruct (Hk k chapter Hc) as (a & ab & u1 & u2 & H1 & H2 & H3).
      exists a, ab, u1, u2. split; [done|]. split; [done|].
      cbn [take map]. rewrite <- app_assoc in H3. cbn [app] in H3.
      replace (i + Z.of_nat (S k) + 1) with (i + 1 + Z.of_nat k + 1) by lia. done.
Qed.

Lemma write_loop_no_panic files abstractions projectName i previousChapters orderedIndices
    w p w' :
  Forall (fun absIndex => 0 <= absIndex < len abstractions) orderedIndices ->
  Forall spec.file_indices_nonneg abstractions ->
  workflow.write_loop files abstractions projectName i previousChapters orderedIndices w
  <> (Panic p, w').
Proof.
  intros Hord Habs. revert i previousChapters w p w'.
  induction Hord as [|absIndex rest Hidx _ IH]; intros i previousChapters w p w';
    cbn [workflow.write_loop]; [done|].
  unfold bind at 1, lift at 1.
  destruct (index_below abstractions _ Hidx) as [abstraction Ha]. rewrite Ha.
  assert (Hnn : spec.file_indices_nonneg abstraction).
  { rewrite Forall_forall in Habs. apply Habs.
    unfold index in Ha. destruct (_ || _); [done|].
    destruct (abstractions !! _) eqn:Hl; [|done]. injection Ha as ->.
    by eapply list_elem_of_lookup_2. }
  unfold bind at 1.
  destruct (wrap _ _ w) as [[chapterOutput|err|q] w1] eqn:Hw; [|done|].
  - unfold bind.
    destruct (workflow.write_loop _ _ _ _ _ rest w1) as [[more| |] w2] eqn:Hm; [done..|].
    by apply IH in Hm.
  - unfold wrap in Hw.
    destruct (services.WriteChapter _ w) as [[?| |] ?] eqn:Hc; simplify_eq.
    by apply WriteChapter_no_panic in Hc.
Qed.

Lemma write_loop_Err files abstractions projectName i previousChapters orderedIndices
    w err w' :
  workflow.write_loop files abstractions projectName i previousChapters orderedIndices w
  = (Err err, w') ->
  exists k cause, err = ErrWriteChapter k cause /\ i < k <= i + len orderedIndices.
Proof.
  revert i previousChapters w.
  induction orderedIndices as [|absIndex rest IH]; intros i previousChapters w;
    cbn [workflow.write_loop]; [done|].
  unfold bind at 1, lift at 1.
  destruct (index abstractions absIndex) as [abstraction|e|] eqn:Hidx; [| |done].
  2:{ unfold index in Hidx. destruct (_ || _); [done|]. by destruct (abstractions !! _). }
  unfold bind at 1. rewrite len_cons. pose proof (len_nonneg rest).
  destruct (wrap _ _ w) as [[chapterOutput|e|] w1] eqn:Hw; [| |done].
  - unfold bind.
    destruct (workflow.write_loop _ _ _ _ _ rest w1) as [[more|e|] w2] eqn:Hm; [done| |done].
    intros [= <- <-]. apply IH in Hm as (k & cause & -> & Hk).
    exists k, cause. split; [done|]. lia.
  - intros [= <- <-]. unfold wrap in Hw.
    destruct (services.WriteChapter _ w) as [[?|e'|] ?]; simplify_eq.
    exists (i + 1), e'. split; [done|]. lia.
Qed.

End ChapterStage.

(** ** A run, stage by stage *)

Section Wrap.
Context {E : Env}.

Lemma wrap_Ok {A} f (m : M A) w a w' : wrap f m w = (Ok a, w') <-> m w = (Ok a, w').
Proof. unfold wrap. destruct (m w) as [[?|?|?] ?]; split; intros H; by simplify_eq. Qed.

Lemma wrap_Panic {A} f (m : M A) w p w' :
  wrap f m w = (Panic p, w') <-> m w = (Panic p, w').
Proof. unfold wrap. destruct (m w) as [[?|?|?] ?]; split; intros H; by simplify_eq. Qed.

Lemma wrap_Err {A} f (m : M A) w err w' :
  wrap f m w = (Err err, w') <-> exists cause, err = f cause /\ m w = (Err cause, w').
Proof.
  unfold wrap. destruct (m w) as [[?|e|?] ?]; split.
  all: try (intros H; by simplify_eq).
  all: try (intros (cause & _ & H); by simplify_eq).
  - intros [= <- <-]. eauto.
  - intros (cause & -> & [= -> ->]). done.
Qed.

Lemma ReadFiles_outcome input w r w' :
  services.ReadFiles input w = (r, w') ->
  w' = w /\
  ((exists out, r = Ok out) \/ (exists err, r = Err err)).
Proof.
  unfold services.ReadFiles. case_bool_decide.
  - intros [= <- <-]. eauto.
  - destruct (utils_WalkDirectory _); intros [= <- <-]; eauto.
Qed.

Lemma WriteMarkdownFiles_no_panic input w p w' :
  services.WriteMarkdownFiles input w <> (Panic p, w').
Proof.
  intros H.
  assert (H' : wrap ErrWriteMarkdownFiles (services.WriteMarkdownFiles input) w = (Panic p, w'))
    by by apply wrap_Panic.
  apply emission_outcome in H' as [[? ?]|[? ?]]; discriminate.
Qed.

End Wrap.

Section RunFacts.
Context {E : Env}.

Lemma Run_stages input :
  workflow.Run input
  = (filesOutput <- wrap ErrReadFiles (services.ReadFiles (stages.fileReaderInput input)) ;;
     stages.analyze input filesOutput).
Proof. reflexivity. Qed.

(** The stages of a successful run. *)
Lemma Run_Ok_inv input w out w' :
  workflow.Run input w = (Ok out, w') ->
  exists filesOutput abstractionsOutput w2 relationships w3 orderOutput w4 chapters w5,
    services.ReadFiles (stages.fileReaderInput input) w = (Ok filesOutput, w) /\
    services.AnalyzeAbstractions (stages.abstractionInput input filesOutput) w
    = (Ok abstractionsOutput, w2) /\
    services.AnalyzeRelationships
      (stages.relationshipInput input filesOutput abstractionsOutput) w2
    = (Ok relationships, w3) /\
    services.OrderChapters (stages.orderInput input abstractionsOutput relationships) w3
    = (Ok orderOutput, w4) /\
    workflow.write_loop (types.rfo_Files filesOutput)
      (types.aao_Abstractions abstractionsOutput) (stages.projectName input) 0 []
      (types.oco_OrderedIndices orderOutput) w4 = (Ok chapters, w5) /\
    services.WriteMarkdownFiles (stages.writerInput input chapters) w5 = (Ok out, w').
Proof.
  rewrite Run_stages. unfold bind at 1.
  destruct (wrap ErrReadFiles _ w) as [[filesOutput| |] w1] eqn:H1; [|done..].
  apply wrap_Ok in H1. pose proof (ReadFiles_outcome _ _ _ _ H1) as [-> _].
  unfold stages.analyze. destruct (_ =? 0); [done|]. unfold bind at 1.
  destruct (wrap ErrAnalyzeAbstractions _ w) as [[abstractionsOutput| |] w2] eqn:H2; [|done..].
  apply wrap_Ok in H2. destruct (_ =? 0); [done|].
  unfold stages.compose. unfold bind at 1.
  destruct (wrap ErrAnalyzeRelationships _ w2) as [[relationships| |] w3] eqn:H3; [|done..].
  apply wrap_Ok in H3. unfold bind at 1.
  destruct (wrap ErrOrderChapters _ w3) as [[orderOutput| |] w4] eqn:H4; [|done..].
  apply wrap_Ok in H4. unfold stages.write, bind.
  destruct (workflow.write_loop _ _ _ _ _ _ w4) as [[chapters| |] w5] eqn:H5; [|done..].
  intros H6%wrap_Ok.
  by exists filesOutput, abstractionsOutput, w2, relationships, w3, orderOutput, w4, chapters, w5.
Qed.

Lemma permutation_in_range (order : list Z) n :
  0 <= n -> order ≡ₚ seqZ 0 n -> Forall (fun idx => 0 <= idx < n) order.
Proof. intros Hn H. by apply permutation_range in H as (? & _). Qed.

(** X1. A run never ends in a panic: no step reads a list out of range or
    cuts one out of bounds, whatever the generator answers, because every
    stage checks the indices that the later stages use. *)
Theorem Run_never_panics (input : types.TutorialWorkflowInput) (w w' : World) (p : panic) :
  workflow.Run input w <> (Panic p, w').
Proof.
  rewrite Run_stages. unfold bind at 1.
  destruct (wrap ErrReadFiles _ w) as [[filesOutput| |q] w1] eqn:H1; [|done|].
  2:{ apply wrap_Panic, ReadFiles_outcome in H1 as [_ [[? ?]|[? ?]]]; discriminate. }
  unfold stages.analyze. destruct (_ =? 0); [done|]. unfold bind at 1.
  destruct (wrap ErrAnalyzeAbstractions _ w1) as [[abstractionsOutput| |q] w2] eqn:H2; [|done|].
  2:{ apply wrap_Panic, AnalyzeAbstractions_no_panic in H2; [done|]. simpl. lia. }
  apply wrap_Ok, AnalyzeAbstractions_Ok in H2 as (Hvalid & _); [|simpl; lia].
  cbn [stages.abstractionInput types.aai_Files] in Hvalid.
  apply valid_abstractions_nonneg in Hvalid.
  destruct (_ =? 0); [done|].
  unfold stages.compose. unfold bind at 1.
  destruct (wrap ErrAnalyzeRelationships _ w2) as [[relationships| |q] w3] eqn:H3; [|done|].
  2:{ by apply wrap_Panic, AnalyzeRelationships_no_panic in H3. }
  apply wrap_Ok, AnalyzeRelationships_Ok in H3 as (Hrels & _).
  unfold bind at 1.
  destruct (wrap ErrOrderChapters _ w3) as [[orderOutput| |q] w4] eqn:H4; [|done|].
  2:{ by apply wrap_Panic, OrderChapters_no_panic in H4. }
  apply wrap_Ok, OrderChapters_Ok in H4 as (Hperm & _).
  apply permutation_in_range in Hperm; [|apply len_nonneg].
  unfold stages.write, bind.
  destruct (workflow.write_loop _ _ _ _ _ _ w4) as [[chapters| |q] w5] eqn:H5; [|done|].
  2:{ by apply write_loop_no_panic in H5. }
  intros H6%wrap_Panic. by apply WriteMarkdownFiles_no_panic in H6.
Qed.

(** X2. The error of a failed run names the step that failed: reading
    the files, finding none, one of the three analyses, the writing of a
    chapter, with its number between 1 and 10, or the emission. The check
    of the abstraction list for emptiness made by the run itself never
    fires: the Abstraction Extractor, given the ceiling 10, returns no
    empty list. *)
Theorem Run_error_names_stage (input : types.TutorialWorkflowInput) (w w' : World)
    (err : error) :
  workflow.Run input w = (Err err, w') ->
  (exists cause, err = ErrReadFiles cause) \/
  err = ErrNoFilesFound \/
  (exists cause, err = ErrAnalyzeAbstractions cause) \/
  (exists cause, err = ErrAnalyzeRelationships cause) \/
  (exists cause, err = ErrOrderChapters cause) \/
  (exists k cause, err = ErrWriteChapter k cause /\ 1 <= k <= 10) \/
  (exists cause, err = ErrWriteMarkdownFiles cause).
Proof.
  rewrite Run_stages. unfold bind at 1.
  destruct (wrap ErrReadFiles _ w) as [[filesOutput|e|] w1] eqn:H1; [| |done].
  2:{ intros [= <- <-]. apply wrap_Err in H1 as (cause & -> & _). eauto. }
  unfold stages.analyze. destruct (_ =? 0). { intros [= <- <-]. eauto. }
  unfold bind at 1.
  destruct (wrap ErrAnalyzeAbstractions _ w1) as [[abstractionsOutput|e|] w2] eqn:H2; [| |done].
  2:{ intros [= <- <-]. apply wrap_Err in H2 as (cause & -> & _). eauto 10. }
  apply wrap_Ok, AnalyzeAbstractions_Ok in H2 as (_ & Hlen & Hne & _); [|simpl; lia].
  cbn [stages.abstractionInput types.aai_MaxAbstractions] in Hlen, Hne.
  destruct (_ =? 0) eqn:H0.
  { apply Z.eqb_eq in H0. destruct (types.aao_Abstractions abstractionsOutput); [|done].
    exfalso. by apply Hne. }
  unfold stages.compose. unfold bind at 1.
  destruct (wrap ErrAnalyzeRelationships _ w2) as [[relationships|e|] w3] eqn:H3; [| |done].
  2:{ intros [= <- <-]. apply wrap_Err in H3 as (cause & -> & _). eauto 10. }
  unfold bind at 1.
  destruct (wrap ErrOrderChapters _ w3) as [[orderOutput|e|] w4] eqn:H4; [| |done].
  2:{ intros [= <- <-]. apply wrap_Err in H4 as (cause & -> & _). eauto 10. }
  apply wrap_Ok, OrderChapters_Ok in H4 as (Hperm & _).
  apply Permutation_length in Hperm. rewrite length_seqZ in Hperm.
  cbn [stages.orderInput types.oci_Abstractions] in Hperm.
  unfold stages.write, bind.
  destruct (workflow.write_loop _ _ _ _ _ _ w4) as [[chapters|e|] w5] eqn:H5; [| |done].
  2:{ intros [= <- <-]. apply write_loop_Err in H5 as (k & cause & -> & Hk).
      do 5 right. left. exists k, cause. split; [done|]. unfold len in *. lia. }
  intros (cause & -> & _)%wrap_Err. eauto 10.
Qed.

End RunFacts.

Lemma Run_error_names_stage_witness :
  exists cause, (workflow.Run (E := demo.env) demo.input (demo.world 0)).1
                = Err (ErrWriteMarkdownFiles cause).
Proof.
  destruct (Run_error_names_stage (E := demo.env) demo.input (demo.world 0)
              (workflow.Run (E := demo.env) demo.input (demo.world 0)).2
              (ErrWriteMarkdownFiles (ErrWriteFile (str "02_node.md") demo.no_space_left)))
    as [H|[H|[H|[H|[H|[H|H]]]]]].
  - vm_compute. reflexivity.
  - destruct H as [? H]. discriminate H.
  - discriminate H.
  - destruct H as [? H]. discriminate H.
  - destruct H as [? H]. discriminate H.
  - destruct H as [? H]. discriminate H.
  - destruct H as (? & ? & H & _). discriminate H.
  - destruct H as [cause H]. exists cause. injection H as <-. vm_compute. reflexivity.
Defined.

Lemma Run_never_panics_witness :
  workflow.Run (E := demo.env) demo.input (demo.world 0)
  <> (Panic (IndexOutOfRange 2 2), demo.world 3).
Proof. apply (Run_never_panics (E := demo.env)). Defined.

(** ** The files on disk *)

Section Disk.
Context {E : Env}.

Lemma written_cons outputDir chapter rest files :
  disk.written outputDir (chapter :: rest) files
  = disk.written outputDir rest
      (<[disk.path outputDir chapter := types.wco_Content chapter]> files).
Proof. reflexivity. Qed.

Lemma written_app outputDir pre post files :
  disk.written outputDir (pre ++ post) files
  = disk.written outputDir post (disk.written outputDir pre files).
Proof. apply foldl_app. Qed.

Lemma written_untouched outputDir chapters files p :
  p ∉ map (disk.path outputDir) chapters ->
  disk.written outputDir chapters files !! p = files !! p.
Proof.
  revert files. induction chapters as [|c rest IH]; intros files Hp; [done|].
  cbn [map] in Hp. apply not_elem_of_cons in Hp as [Hne Hp].
  rewrite written_cons, IH by done. by rewrite lookup_insert_ne.
Qed.

Lemma written_last outputDir pre chapter post files :
  disk.path outputDir chapter ∉ map (disk.path outputDir) post ->
  disk.written outputDir (pre ++ chapter :: post) files !! disk.path outputDir chapter
  = Some (types.wco_Content chapter).
Proof.
  intros Hp. rewrite written_app, written_cons, written_untouched by done.
  apply lookup_insert_eq.
Qed.

(** What the loop over the chapters does to the world: the writes of a
    prefix of the list, the whole of it when every write is accepted. *)
Lemma write_chapters_outcome outputDir chapters w r w' :
  services.write_chapters outputDir chapters w = (r, w') ->
  exists pre post,
    chapters = pre ++ post /\
    disk.writable outputDir pre (w_files w) /\
    w' = {| w_files := disk.written outputDir pre (w_files w);
            w_requests := w_requests w |} /\
    match post with
    | [] => r = Ok (map (disk.path outputDir) chapters)
    | chapter :: _ =>
      exists cause,
        os_WriteFile (disk.written outputDir pre (w_files w))
          (disk.path outputDir chapter) (types.wco_Content chapter) = Some cause /\
        r = Err (ErrWriteFile (services.chapter_filename chapter) cause)
    end.
Proof.
  revert w r w'. induction chapters as [|c rest IH]; intros w r w';
    cbn [services.write_chapters].
  - intros [= <- <-]. exists [], []. split; [done|]. split; [done|]. split; [|done].
    by destruct w.
  - unfold bind at 1, wrap, services.WriteFile.
    fold (disk.path outputDir c).
    destruct (os_WriteFile (w_files w) _ _) as [cause|] eqn:Hos.
    + intros [= <- <-]. exists [], (c :: rest). split; [done|]. split; [done|].
      split; [by destruct w|]. exists cause. done.
    + unfold bind.
      destruct (services.write_chapters outputDir rest _) as [r1 w1] eqn:Hr.
      apply IH in Hr as (pre & post & -> & Hacc & -> & Hpost).
      cbn [w_files w_requests] in *.
      intros Hres. exists (c :: pre), post. split; [done|]. split; [done|].
      destruct post as [|c' post'].
      * rewrite Hpost in Hres. unfold ret in Hres. injection Hres as <- <-. done.
      * destruct Hpost as (cause & Hc & ->). injection Hres as <- <-.
        split; [done|]. exists cause. done.
Qed.

Lemma write_chapters_accepted outputDir chapters w :
  disk.writable outputDir chapters (w_files w) ->
  services.write_chapters outputDir chapters w
  = (Ok (map (disk.path outputDir) chapters),
     {| w_files := disk.written outputDir chapters (w_files w);
        w_requests := w_requests w |}).
Proof.
  revert w. induction chapters as [|c rest IH]; intros w Hacc;
    cbn [services.write_chapters].
  - unfold ret. by destruct w.
  - destruct Hacc as [Hc Hrest]. unfold bind at 1, wrap, services.WriteFile.
    fold (disk.path outputDir c). rewrite Hc. unfold bind.
    rewrite (IH {| w_files := <[disk.path outputDir c:=types.wco_Content c]> (w_files w);
                   w_requests := w_requests w |} Hrest). done.
Qed.

Lemma write_chapters_refused outputDir pre chapter post cause w :
  disk.writable outputDir pre (w_files w) ->
  os_WriteFile (disk.written outputDir pre (w_files w))
    (disk.path outputDir chapter) (types.wco_Content chapter) = Some cause ->
  services.write_chapters outputDir (pre ++ chapter :: post) w
  = (Err (ErrWriteFile (services.chapter_filename chapter) cause),
     {| w_files := disk.written outputDir pre (w_files w);
        w_requests := w_requests w |}).
Proof.
  revert w. induction pre as [|c rest IH]; intros w Hacc Hos;
    cbn [app services.write_chapters].
  - unfold bind at 1, wrap, services.WriteFile. fold (disk.path outputDir chapter).
    cbn [disk.written foldl] in Hos. rewrite Hos. by destruct w.
  - destruct Hacc as [Hc Hrest]. unfold bind at 1, wrap, services.WriteFile.
    fold (disk.path outputDir c). rewrite Hc. unfold bind.
    rewrite (IH {| w_files := <[disk.path outputDir c:=types.wco_Content c]> (w_files w);
                   w_requests := w_requests w |} Hrest Hos). done.
Qed.

(** The world after the emission step, whatever its outcome. *)
Lemma WriteMarkdownFiles_files input w r w' :
  services.WriteMarkdownFiles input w = (r, w') ->
  exists pre,
    w_files w' = disk.written (types.wmi_OutputDir input) pre (w_files w).
Proof.
  unfold services.WriteMarkdownFiles. case_bool_decide.
  { intros [= <- <-]. by exists []. }
  destruct (os_MkdirAll _). { intros [= <- <-]. by exists []. }
  unfold bind. destruct (services.write_chapters _ _ w) as [r1 w1] eqn:Hw.
  apply write_chapters_outcome in Hw as (pre & post & _ & _ & -> & _).
  destruct r1; intros [= <- <-]; by exists pre.
Qed.

Lemma WriteMarkdownFiles_requests input w r w' :
  services.WriteMarkdownFiles input w = (r, w') -> w_requests w' = w_requests w.
Proof.
  unfold services.WriteMarkdownFiles. case_bool_decide.
  { by intros [= <- <-]. }
  destruct (os_MkdirAll _). { by intros [= <- <-]. }
  unfold bind. destruct (services.write_chapters _ _ w) as [r1 w1] eqn:Hw.
  apply write_chapters_outcome in Hw as (pre & post & _ & _ & -> & _).
  by destruct r1; intros [= <- <-].
Qed.

End Disk.

Section RunResults.
Context {E : Env}.

Lemma two_digits_inj n m :
  0 <= n <= 99 -> 0 <= m <= 99 -> spec.two_digits n = spec.two_digits m -> n = m.
Proof.
  intros Hn Hm. unfold spec.two_digits. intros [= H1 H2].
  apply (f_equal byte_val) in H1, H2.
  pose proof (Z.div_mod n 10). pose proof (Z.div_mod m 10).
  pose proof (Z.mod_pos_bound n 10). pose proof (Z.mod_pos_bound m 10).
  assert (0 <= n / 10 < 10) by (split; [apply Z.div_pos; lia | apply Z.div_lt_upper_bound; lia]).
  assert (0 <= m / 10 < 10) by (split; [apply Z.div_pos; lia | apply Z.div_lt_upper_bound; lia]).
  rewrite !byte_val_of in H1, H2 by lia. lia.
Qed.

Lemma chapter_filename_two_digits chapter :
  0 <= types.wco_ChapterNumber chapter <= 99 ->
  services.chapter_filename chapter
  = spec.two_digits (types.wco_ChapterNumber chapter) ++ str "_"
    ++ utils.SanitizeFilename (types.wco_Title chapter) ++ str ".md".
Proof. intros Hn. by rewrite chapter_filename_eq, verb_02d_two_digits. Qed.

Lemma chapter_filename_number c1 c2 :
  0 <= types.wco_ChapterNumber c1 <= 99 -> 0 <= types.wco_ChapterNumber c2 <= 99 ->
  services.chapter_filename c1 = services.chapter_filename c2 ->
  types.wco_ChapterNumber c1 = types.wco_ChapterNumber c2.
Proof.
  intros H1 H2. rewrite !chapter_filename_two_digits by done.
  intros H. apply two_digits_inj; [done..|].
  unfold spec.two_digits in *. by injection H as -> ->.
Qed.

Lemma numbered_filenames_NoDup (chapters : list types.WriteChapterOutput) :
  (length chapters <= 99)%nat ->
  (forall k chapter, chapters !! k = Some chapter ->
                     types.wco_ChapterNumber chapter = Z.of_nat k + 1) ->
  NoDup (map services.chapter_filename chapters).
Proof.
  intros Hlen Hnum. apply NoDup_alt. intros i j name Hi Hj.
  rewrite list_lookup_fmap in Hi, Hj.
  destruct (chapters !! i) as [ci|] eqn:Hci; [|done].
  destruct (chapters !! j) as [cj|] eqn:Hcj; [|done].
  injection Hi as Hi. injection Hj as Hj.
  pose proof (lookup_lt_Some _ _ _ Hci). pose proof (lookup_lt_Some _ _ _ Hcj).
  pose proof (Hnum _ _ Hci) as Hni. pose proof (Hnum _ _ Hcj) as Hnj.
  assert (types.wco_ChapterNumber ci = types.wco_ChapterNumber cj); [|lia].
  apply chapter_filename_number; [lia..|congruence].
Qed.

Lemma WriteMarkdownFiles_Ok_inv input w out w' :
  services.WriteMarkdownFiles input w = (Ok out, w') ->
  types.wmi_OutputDir input <> [] /\
  types.wmo_FilesWritten out
  = map (disk.path (types.wmi_OutputDir input)) (types.wmi_Chapters input) /\
  w' = {| w_files := disk.written (types.wmi_OutputDir input) (types.wmi_Chapters input)
                       (w_files w);
          w_requests := w_requests w |}.
Proof.
  unfold services.WriteMarkdownFiles. case_bool_decide as Hdir; [done|].
  destruct (os_MkdirAll _); [done|]. unfold bind.
  destruct (services.write_chapters _ _ w) as [r w1] eqn:Hw.
  apply write_chapters_outcome in Hw as (pre & post & Hch & _ & -> & Hpost).
  destruct post as [|c post'].
  - rewrite Hpost. unfold ret. intros [= <- <-]. rewrite app_nil_r in Hch. by subst pre.
  - destruct Hpost as (cause & _ & ->). done.
Qed.

End RunResults.

Section RunSuccess.
Context {E : Env}.

(** X3. A successful run: between one and ten abstractions were
    identified; the order is a permutation of their indices; there is one
    chapter for each place of the order, titled after the abstraction at
    that place and numbered from 1; the chapters have pairwise different
    file names, of the form two digits, ['_'], sanitized title, [".md"];
    the files written are theirs, in order, and the disk holds them; and
    the generator was sent three requests and one more for each chapter. *)
Theorem Run_success input w out w' :
  workflow.Run input w = (Ok out, w') ->
  exists filesOutput abstractionsOutput w2 order chapters,
    services.ReadFiles (stages.fileReaderInput input) w = (Ok filesOutput, w) /\
    services.AnalyzeAbstractions (stages.abstractionInput input filesOutput) w
    = (Ok abstractionsOutput, w2) /\
    let abstractions := types.aao_Abstractions abstractionsOutput in
    1 <= len abstractions <= 10 /\
    order ≡ₚ seqZ 0 (len abstractions) /\
    length chapters = length abstractions /\
    (forall k chapter, chapters !! k = Some chapter ->
       exists absIndex abstraction,
         order !! k = Some absIndex /\
         index abstractions absIndex = Ok abstraction /\
         types.wco_Title chapter = types.abs_Name abstraction /\
         types.wco_ChapterNumber chapter = Z.of_nat k + 1 /\
         services.chapter_filename chapter
         = spec.two_digits (Z.of_nat k + 1) ++ str "_"
           ++ utils.SanitizeFilename (types.abs_Name abstraction) ++ str ".md") /\
    NoDup (map services.chapter_filename chapters) /\
    types.wmo_FilesWritten out = map (disk.path (types.twi_OutputDir input)) chapters /\
    w_files w' = disk.written (types.twi_OutputDir input) chapters (w_files w) /\
    w_requests w' = (w_requests w + 3 + length abstractions)%nat.
Proof.
  intros (filesOutput & abstractionsOutput & w2 & relationships & w3 & orderOutput & w4
          & chapters & w5 & H1 & H2 & H3 & H4 & H5 & H6)%Run_Ok_inv.
  exists filesOutput, abstractionsOutput, w2, (types.oco_OrderedIndices orderOutput), chapters.
  split; [done|]. split; [done|]. intros abstractions.
  apply AnalyzeAbstractions_Ok in H2 as (_ & Hmax & Hne & Hf2 & Hr2); [|simpl; lia].
  cbn [stages.abstractionInput types.aai_MaxAbstractions] in Hmax, Hne.
  apply AnalyzeRelationships_Ok in H3 as (_ & Hf3 & Hr3).
  apply OrderChapters_Ok in H4 as (Hperm & Hf4 & Hr4).
  cbn [stages.orderInput types.oci_Abstractions] in Hperm.
  pose proof (write_loop_Ok _ _ _ _ _ _ _ _ _ H5) as (Hlen & Hf5 & Hr5 & Hk).
  apply WriteMarkdownFiles_Ok_inv in H6 as (_ & Hout & ->).
  cbn [stages.writerInput types.wmi_OutputDir types.wmi_Chapters] in Hout |- *.
  assert (Hn : length (types.oco_OrderedIndices orderOutput) = length abstractions).
  { apply Permutation_length in Hperm. rewrite length_seqZ in Hperm.
    unfold len in Hperm. fold abstractions in Hperm. lia. }
  assert (Hnum : forall k chapter, chapters !! k = Some chapter ->
                   types.wco_ChapterNumber chapter = Z.of_nat k + 1).
  { intros k chapter Hc. destruct (Hk k chapter Hc) as (a & ab & u1 & u2 & _ & _ & Hw).
    apply WriteChapter_Ok in Hw as (Hnum & _). rewrite Hnum. simpl. lia. }
  split.
  { split; [|done]. pose proof (len_nonneg abstractions).
    assert (abstractions <> []) as Hne' by (apply Hne; lia).
    destruct abstractions; [done|]. rewrite len_cons. pose proof (len_nonneg abstractions). lia. }
  split; [done|]. split; [lia|]. split.
  { intros k chapter Hc. pose proof (Hnum k chapter Hc) as Hnk.
    destruct (Hk k chapter Hc) as (a & ab & u1 & u2 & Ha & Hab & Hw).
    apply WriteChapter_Ok in Hw as (_ & Htitle & _). cbn in Htitle.
    exists a, ab. split; [done|]. split; [done|]. split; [done|]. split; [done|].
    pose proof (lookup_lt_Some _ _ _ Hc) as Hlt. unfold len in Hmax.
    fold abstractions in Hmax.
    rewrite chapter_filename_two_digits by lia. by rewrite Hnk, Htitle. }
  split.
  { apply numbered_filenames_NoDup; [|done]. unfold len in Hmax. fold abstractions in Hmax. lia. }
  split; [done|]. split.
  { cbn [w_files]. congruence. }
  cbn [w_requests]. lia.
Qed.

(** X4. With the API key not set, a run that finds files stops at the
    first analysis: the error is that of the abstraction step around that
    of the client, no request is sent and the disk is left as it was. *)
Theorem Run_without_api_key input w filesOutput :
  os_Getenv (str "OPENROUTER_API_KEY") = [] ->
  services.ReadFiles (stages.fileReaderInput input) w = (Ok filesOutput, w) ->
  types.rfo_Files filesOutput <> [] ->
  workflow.Run input w
  = (Err (ErrAnalyzeAbstractions (ErrCreateLLMClient ErrApiKeyNotSet)), w).
Proof.
  intros Hkey Hread Hne. rewrite Run_stages. unfold bind at 1.
  rewrite (proj2 (wrap_Ok _ _ _ _ _) Hread).
  unfold stages.analyze.
  replace (len (types.rfo_Files filesOutput) =? 0) with false.
  2:{ symmetry. apply Z.eqb_neq. destruct (types.rfo_Files filesOutput); [done|].
      rewrite len_cons. pose proof (len_nonneg l). lia. }
  unfold bind at 1.
  destruct (wrap ErrAnalyzeAbstractions _ w) as [r w1] eqn:Hw.
  unfold wrap in Hw.
  destruct (services.AnalyzeAbstractions _ w) as [r0 w0] eqn:Ha.
  apply AnalyzeAbstractions_outcome in Ha as [(_ & _ & Hnil)|(_ & r1 & Hask & Hr0)].
  { by cbn in Hnil. }
  apply ask_outcome in Hask as [_ [(-> & -> & _)|(Hset & _)]]; [|done].
  subst r0. by injection Hw as <- <-.
Qed.

(** X5. The defaults of a run: a run on an input is the run on the input
    with the project name and the file ceiling filled in, the name from the
    last element of the repository path ([Project] when that is [.] or
    [/]), the ceiling [100] for [0]. *)
Theorem Run_defaults input w :
  stages.projectName input <> [] ->
  workflow.Run input w
  = workflow.Run {| types.twi_LocalRepoPath := types.twi_LocalRepoPath input;
                    types.twi_OutputDir := types.twi_OutputDir input;
                    types.twi_MaxFiles := stages.maxFiles input;
                    types.twi_ProjectName := stages.projectName input |} w.
Proof.
  intros Hne. rewrite !Run_stages.
  set (input' := {| types.twi_LocalRepoPath := types.twi_LocalRepoPath input;
                    types.twi_OutputDir := types.twi_OutputDir input;
                    types.twi_MaxFiles := stages.maxFiles input;
                    types.twi_ProjectName := stages.projectName input |}).
  assert (Hp : stages.projectName input' = stages.projectName input).
  { unfold stages.projectName at 1. cbn [input' types.twi_ProjectName].
    by rewrite bool_decide_eq_false_2. }
  assert (Hm : stages.maxFiles input' = stages.maxFiles input).
  { unfold stages.maxFiles at 1. cbn [input' types.twi_MaxFiles].
    unfold stages.maxFiles. destruct (types.twi_MaxFiles input =? 0) eqn:H0; [done|].
    by rewrite H0. }
  assert (Hr : stages.fileReaderInput input' = stages.fileReaderInput input).
  { unfold stages.fileReaderInput. by rewrite Hm. }
  rewrite Hr. unfold bind. destruct (wrap ErrReadFiles _ w) as [[filesOutput| |] w1]; [|done..].
  unfold stages.analyze, stages.compose, stages.write, stages.abstractionInput,
    stages.relationshipInput, stages.orderInput, stages.writerInput.
  by rewrite Hp.
Qed.

End RunSuccess.

Lemma Run_success_witness :
  exists out w',
    workflow.Run (E := runs.accepting) demo.input (demo.world 0) = (Ok out, w') /\
    types.wmo_FilesWritten out = [str "tutorial/01_flow.md"; str "tutorial/02_node.md"] /\
    w_requests w' = 5%nat.
Proof.
  assert (H : exists out w',
    workflow.Run (E := runs.accepting) demo.input (demo.world 0) = (Ok out, w') /\
    types.wmo_FilesWritten out = [str "tutorial/01_flow.md"; str "tutorial/02_node.md"]).
  { vm_compute. eexists _, _. split; reflexivity. }
  destruct H as (out & w' & H & Hfiles). exists out, w'. split; [exact H|].
  split; [exact Hfiles|].
  destruct (Run_success (E := runs.accepting) _ _ _ _ H)
    as (fo & ao & w2 & order & chapters & _ & _ & _ & _ & Hlen & _ & _ & Hfw & _ & Hr).
  rewrite Hr. rewrite Hfw in Hfiles. apply (f_equal length) in Hfiles.
  rewrite length_map in Hfiles. simpl in Hfiles. simpl. lia.
Defined.

Lemma Run_without_api_key_witness :
  workflow.Run (E := runs.keyless) demo.input (demo.world 0)
  = (Err (ErrAnalyzeAbstractions (ErrCreateLLMClient ErrApiKeyNotSet)), demo.world 0).
Proof.
  apply (Run_without_api_key (E := runs.keyless) demo.input (demo.world 0)
           {| types.rfo_Files := demo.files |}).
  - reflexivity.
  - vm_compute. reflexivity.
  - simpl. discriminate.
Defined.

Lemma Run_defaults_witness :
  workflow.Run (E := demo.env) demo.input (demo.world 0)
  = workflow.Run (E := demo.env)
      {| types.twi_LocalRepoPath := str "repo"; types.twi_OutputDir := str "tutorial";
         types.twi_MaxFiles := 100; types.twi_ProjectName := str "flow" |} (demo.world 0).
Proof.
  apply (Run_defaults (E := demo.env) demo.input (demo.world 0)). simpl. discriminate.
Defined.

Section Accounting.
Context {E : Env}.

(** A call of the generator counts for one request at most. *)
Lemma ask_requests prompt sys w r w' :
  services.ask prompt sys w = (r, w') ->
  w_files w' = w_files w /\ (w_requests w <= w_requests w' <= S (w_requests w))%nat.
Proof.
  intros H. apply ask_outcome in H as [Hf [(_ & -> & _)|(_ & Hr & _)]]; split; (done || lia).
Qed.

Lemma AnalyzeAbstractions_requests input w r w' :
  services.AnalyzeAbstractions input w = (r, w') ->
  w_files w' = w_files w /\ (w_requests w <= w_requests w' <= S (w_requests w))%nat.
Proof.
  intros H. apply AnalyzeAbstractions_outcome in H as [(_ & -> & _)|(_ & r0 & Ha & _)].
  - split; [done | lia].
  - by apply ask_requests in Ha.
Qed.

Lemma AnalyzeRelationships_requests input w r w' :
  services.AnalyzeRelationships input w = (r, w') ->
  w_files w' = w_files w /\ (w_requests w <= w_requests w' <= S (w_requests w))%nat.
Proof.
  intros H. apply AnalyzeRelationships_outcome in H as [(_ & -> & _)|(_ & H)].
  - split; [done | lia].
  - destruct (services.AnalyzeRelationships_prompt input).
    + destruct H as (r0 & Ha & _). by apply ask_requests in Ha.
    + destruct H as [_ ->]. split; [done | lia].
    + destruct H as [_ ->]. split; [done | lia].
Qed.

Lemma OrderChapters_requests input w r w' :
  services.OrderChapters input w = (r, w') ->
  w_files w' = w_files w /\ (w_requests w <= w_requests w' <= S (w_requests w))%nat.
Proof.
  intros H. apply OrderChapters_outcome in H as [(_ & -> & _)|(_ & H)].
  - split; [done | lia].
  - destruct (services.OrderChapters_prompt input).
    + destruct H as (r0 & Ha & _). by apply ask_requests in Ha.
    + destruct H as [_ ->]. split; [done | lia].
    + destruct H as [_ ->]. split; [done | lia].
Qed.

Lemma WriteChapter_requests input w r w' :
  services.WriteChapter input w = (r, w') ->
  w_files w' = w_files w /\ (w_requests w <= w_requests w' <= S (w_requests w))%nat.
Proof.
  intros H. apply WriteChapter_outcome in H as [(_ & -> & _)|(_ & H)].
  - split; [done | lia].
  - destruct (services.WriteChapter_prompt input).
    + destruct H as (r0 & Ha & _). by apply ask_requests in Ha.
    + destruct H as [_ ->]. split; [done | lia].
    + destruct H as [_ ->]. split; [done | lia].
Qed.

Lemma wrap_world {A} f (m : M A) w r w' :
  wrap f m w = (r, w') -> exists r0, m w = (r0, w').
Proof.
  unfold wrap. destruct (m w) as [[?|?|?] w1]; intros [= <- <-]; by eexists.
Qed.

Lemma write_loop_requests files abstractions projectName i previousChapters orderedIndices
    w r w' :
  workflow.write_loop files abstractions projectName i previousChapters orderedIndices w
  = (r, w') ->
  w_files w' = w_files w /\
  (w_requests w <= w_requests w' <= w_requests w + length orderedIndices)%nat.
Proof.
  revert i previousChapters w r w'.
  induction orderedIndices as [|absIndex rest IH]; intros i previousChapters w r w';
    cbn [workflow.write_loop].
  - intros [= <- <-]. split; [done | simpl; lia].
  - unfold bind at 1, lift at 1.
    destruct (index abstractions absIndex) as [abstraction| |];
      [|intros [= <- <-]; split; [done | simpl; lia]..].
    unfold bind at 1.
    destruct (wrap _ _ w) as [r1 w1] eqn:Hw.
    apply wrap_world in Hw as Hw'. destruct Hw' as [r0 Hc].
    apply WriteChapter_requests in Hc as [Hf1 Hr1].
    destruct r1 as [chapterOutput| |];
      [|intros [= <- <-]; split; [done | simpl; lia]..].
    unfold bind.
    destruct (workflow.write_loop _ _ _ _ _ rest w1) as [r2 w2] eqn:Hm.
    apply IH in Hm as [Hf2 Hr2].
    destruct r2; intros [= <- <-]; (split; [congruence | simpl; lia]).
Qed.

(** Every outcome of a run: either the run stopped before the emission
    step, with the disk as it was, or it reached the emission step with at
    most ten chapters. At most thirteen requests were sent by then. *)
Lemma Run_outcome input w r w' :
  workflow.Run input w = (r, w') ->
  (w_files w' = w_files w /\
   (w_requests w <= w_requests w' <= w_requests w + 13)%nat) \/
  (exists chapters w5,
     (length chapters <= 10)%nat /\ w_files w5 = w_files w /\
     (w_requests w <= w_requests w5 <= w_requests w + 13)%nat /\
     wrap ErrWriteMarkdownFiles
       (services.WriteMarkdownFiles (stages.writerInput input chapters)) w5 = (r, w')).
Proof.
  rewrite Run_stages. unfold bind at 1.
  destruct (wrap ErrReadFiles _ w) as [r1 w1] eqn:H1.
  apply wrap_world in H1 as H1'. destruct H1' as [r1' H1'].
  apply ReadFiles_outcome in H1' as [-> _].
  destruct r1 as [filesOutput| |]; [|intros [= <- <-]; left; split; [done | lia]..].
  unfold stages.analyze.
  destruct (_ =? 0); [intros [= <- <-]; left; split; [done | lia]|].
  unfold bind at 1.
  destruct (wrap ErrAnalyzeAbstractions _ w) as [r2 w2] eqn:H2.
  apply wrap_world in H2 as H2'. destruct H2' as [r2' H2'].
  apply AnalyzeAbstractions_requests in H2' as [Hf2 Hr2].
  destruct r2 as [abstractionsOutput| |]; [|intros [= <- <-]; left; split; [done | lia]..].
  apply wrap_Ok, AnalyzeAbstractions_Ok in H2 as (_ & Hmax & _); [|simpl; lia].
  cbn [stages.abstractionInput types.aai_MaxAbstractions] in Hmax.
  destruct (_ =? 0); [intros [= <- <-]; left; split; [done | lia]|].
  unfold stages.compose. unfold bind at 1.
  destruct (wrap ErrAnalyzeRelationships _ w2) as [r3 w3] eqn:H3.
  apply wrap_world in H3 as H3'. destruct H3' as [r3' H3'].
  apply AnalyzeRelationships_requests in H3' as [Hf3 Hr3].
  destruct r3 as [relationships| |];
    [|intros [= <- <-]; left; split; [congruence | lia]..].
  unfold bind at 1.
  destruct (wrap ErrOrderChapters _ w3) as [r4 w4] eqn:H4.
  apply wrap_world in H4 as H4'. destruct H4' as [r4' H4'].
  apply OrderChapters_requests in H4' as [Hf4 Hr4].
  destruct r4 as [orderOutput| |];
    [|intros [= <- <-]; left; split; [congruence | lia]..].
  apply wrap_Ok, OrderChapters_Ok in H4 as (Hperm & _).
  apply Permutation_length in Hperm. rewrite length_seqZ in Hperm.
  cbn [stages.orderInput types.oci_Abstractions] in Hperm. unfold len in Hmax, Hperm.
  unfold stages.write, bind.
  destruct (workflow.write_loop _ _ _ _ _ _ w4) as [r5 w5] eqn:H5.
  pose proof (write_loop_requests _ _ _ _ _ _ _ _ _ H5) as [Hf5 Hr5].
  destruct r5 as [chapters| |];
    [|intros [= <- <-]; left; split; [congruence | lia]..].
  apply write_loop_Ok in H5 as (Hlen & _).
  intros H6. right. exists chapters, w5.
  split; [lia|]. split; [congruence|]. split; [lia|]. done.
Qed.

(** X6. The cost of a run: whatever its outcome, a run sends at most
    thirteen requests to the generator, one for each of the three
    analyses and one for each of at most ten chapters. *)
Theorem Run_sends_at_most_13_requests (input : types.TutorialWorkflowInput)
    (w : World) :
  let after := (workflow.Run input w).2 in
  (w_requests w <= w_requests after <= w_requests w + 13)%nat.
Proof.
  intros after. unfold after.
  destruct (workflow.Run input w) as [r w'] eqn:H. cbn [snd].
  apply Run_outcome in H as [[_ H]|(chapters & w5 & _ & _ & Hr & H)]; [done|].
  apply wrap_world in H as [r0 H].
  apply WriteMarkdownFiles_requests in H. rewrite H. done.
Qed.

(** X7. The only files a run touches are chapter files: whatever its
    outcome, a path whose content differs after the run is the path of a
    chapter's file in the output directory. *)
Theorem Run_writes_only_chapter_files (input : types.TutorialWorkflowInput)
    (w : World) (p : gostring) :
  let after := (workflow.Run input w).2 in
  w_files after !! p <> w_files w !! p ->
  exists chapter, p = disk.path (types.twi_OutputDir input) chapter.
Proof.
  intros after Hp. unfold after in Hp.
  destruct (workflow.Run input w) as [r w'] eqn:H. cbn [snd] in Hp.
  apply Run_outcome in H as [[Hf _]|(chapters & w5 & _ & Hf & _ & H)]; [congruence|].
  apply wrap_world in H as [r0 H].
  apply WriteMarkdownFiles_files in H as (pre & Hw).
  cbn [stages.writerInput types.wmi_OutputDir] in Hw.
  destruct (decide (p ∈ map (disk.path (types.twi_OutputDir input)) pre)) as [Hin|Hout].
  - apply list_elem_of_fmap in Hin as (chapter & -> & _). by exists chapter.
  - exfalso. apply Hp. rewrite Hw, written_untouched by done. by rewrite Hf.
Qed.

End Accounting.

Lemma Run_writes_only_chapter_files_witness :
  exists chapter,
    str "tutorial/01_flow.md" = disk.path (E := demo.env) (str "tutorial") chapter.
Proof.
  apply (Run_writes_only_chapter_files (E := demo.env) demo.input (demo.world 0)).
  vm_compute. discriminate.
Defined.

(** ** The handlers *)

Section AbstractionsCeiling.
Context {E : Env}.

Lemma find_first_invalid nfiles (ok : list Z) fileIdx rest :
  Forall (fun i => 0 <= i < nfiles) ok -> ~ (0 <= fileIdx < nfiles) ->
  find (fun i => (i <? 0) || (nfiles <=? i)) (ok ++ fileIdx :: rest) = Some fileIdx.
Proof.
  intros Hok Hbad. induction Hok as [|x ok Hx _ IH]; cbn [app find].
  - apply in_bounds_true in Hbad. by rewrite Hbad.
  - apply in_bounds_false in Hx. by rewrite Hx.
Qed.

Lemma convert_abstractions_first_invalid nfiles i pre ya post ok fileIdx rest :
  Forall (fun ya => Forall (fun i => 0 <= i < nfiles) (yaml.ya_Files ya)) pre ->
  yaml.ya_Files ya = ok ++ fileIdx :: rest ->
  Forall (fun i => 0 <= i < nfiles) ok -> ~ (0 <= fileIdx < nfiles) ->
  services.convert_abstractions nfiles i (pre ++ ya :: post)
  = Err (ErrInvalidFileIndex fileIdx (yaml.ya_Name ya)).
Proof.
  intros Hpre Hfiles Hok Hbad. revert i.
  induction Hpre as [|y pre Hy _ IH]; intros i; cbn [app services.convert_abstractions].
  - by rewrite Hfiles, find_first_invalid.
  - apply find_invalid_None in Hy. rewrite Hy, IH. done.
Qed.

(** X8. The ceiling of the Abstraction Extractor. With a ceiling
    [maxAbstractions >= 0] the stage succeeds exactly when the decoded list
    is not empty and every file index of its first [maxAbstractions]
    entries is an index of the corpus; the output is these entries, in
    order, numbered from 0: the entries past the ceiling are not checked.
    The first file index out of range among the entries kept is the one
    the error names, with the name of its entry. A negative ceiling makes
    the cut of a non-empty list go out of bounds. *)
Theorem AnalyzeAbstractions_ceiling
    (input : types.AnalyzeAbstractionsInput) (w w' : World)
    (response content : gostring) (yamlAbstractions : list yaml.yamlAbstraction) :
  len (types.aai_Files input) <> 0 ->
  services.ask (services.AnalyzeAbstractions_prompt input)
    services.AnalyzeAbstractions_system w = (Ok response, w') ->
  services.yamlContent response = Ok content ->
  yaml_Unmarshal_abstractions content = inr yamlAbstractions ->
  let nfiles := len (types.aai_Files input) in
  let maxAbstractions := types.aai_MaxAbstractions input in
  let kept := take (Z.to_nat maxAbstractions) yamlAbstractions in
  let in_corpus := fun ya : yaml.yamlAbstraction =>
    Forall (fun fileIdx => 0 <= fileIdx < nfiles) (yaml.ya_Files ya) in
  let outcome := (services.AnalyzeAbstractions input w).1 in
  (0 <= maxAbstractions ->
   forall out,
     outcome = Ok out <->
     yamlAbstractions <> [] /\ Forall in_corpus kept /\
     types.aao_Abstractions out
     = imap (fun k ya => {| types.abs_Index := Z.of_nat k;
                            types.abs_Name := yaml.ya_Name ya;
                            types.abs_Description := yaml.ya_Description ya;
                            types.abs_FileIndices := yaml.ya_Files ya |}) kept) /\
  (0 <= maxAbstractions ->
   forall pre ya post ok fileIdx rest,
     kept = pre ++ ya :: post -> Forall in_corpus pre ->
     yaml.ya_Files ya = ok ++ fileIdx :: rest ->
     Forall (fun i => 0 <= i < nfiles) ok -> ~ (0 <= fileIdx < nfiles) ->
     outcome = Err (ErrInvalidFileIndex fileIdx (yaml.ya_Name ya))) /\
  (maxAbstractions < 0 -> yamlAbstractions <> [] ->
   outcome = Panic (SliceBoundsOutOfRange maxAbstractions (len yamlAbstractions))).
Proof.
  intros Hn Ha Hc Hy nfiles maxAbstractions kept in_corpus outcome.
  assert (Hout : outcome = services.validate_abstractions input yamlAbstractions).
  { unfold outcome. rewrite (AnalyzeAbstractions_answered _ _ _ _ Hn Ha).
    unfold services.abstractions_of_response. rewrite Hc. cbn [rbind fst]. by rewrite Hy. }
  rewrite Hout. split; [|split].
  - intros Hmax out. destruct (decide (yamlAbstractions = [])) as [->|Hne].
    { split; [done | by intros [? _]]. }
    rewrite validate_abstractions_kept by done. fold nfiles maxAbstractions kept.
    destruct (services.convert_abstractions nfiles 0 kept) as [abstractions| |] eqn:Hconv;
      cbn [rbind].
    + apply convert_abstractions_Ok in Hconv as [Hall ->]. split.
      * intros [= <-]. done.
      * intros (_ & _ & Heq). destruct out as [abstractions]. cbn in Heq. by subst.
    + split; [done|]. intros (_ & Hall & _).
      assert (exists a, services.convert_abstractions nfiles 0 kept = Ok a) as [a Hconv'];
        [|congruence].
      eexists. apply convert_abstractions_Ok. done.
    + by apply convert_abstractions_no_panic in Hconv.
  - intros Hmax pre ya post ok fileIdx rest Hkept Hpre Hfiles Hok Hbad.
    assert (Hne : yamlAbstractions <> []).
    { intros ->. subst kept. rewrite take_nil in Hkept. by destruct pre. }
    rewrite validate_abstractions_kept by done. fold nfiles maxAbstractions kept.
    rewrite Hkept, (convert_abstractions_first_invalid _ _ _ _ _ ok fileIdx rest) by done.
    done.
  - apply validate_abstractions_negative.
Qed.

End AbstractionsCeiling.

Lemma AnalyzeAbstractions_ceiling_witness :
  (services.AnalyzeAbstractions (E := demo.env) (demo.abstractions_input 1) (demo.world 0)).1
  = Ok {| types.aao_Abstractions :=
            [ {| types.abs_Index := 0; types.abs_Name := str "Node";
                 types.abs_Description := str "One step of a flow";
                 types.abs_FileIndices := [0; 1] |} ] |}.
Proof.
  assert (H1 : len (types.aai_Files (demo.abstractions_input 1)) <> 0) by (by vm_compute).
  assert (H2 : services.ask (E := demo.env)
    (services.AnalyzeAbstractions_prompt (demo.abstractions_input 1))
    services.AnalyzeAbstractions_system (demo.world 0)
    = (Ok (demo.fenced demo.abstractions_yaml), demo.world 1)) by (by vm_compute).
  assert (H3 : services.yamlContent (demo.fenced demo.abstractions_yaml)
    = Ok demo.abstractions_yaml) by (by vm_compute).
  assert (H4 : yaml_Unmarshal_abstractions (Env := demo.env) demo.abstractions_yaml
    = inr demo.yamlAbstractions) by (by vm_compute).
  destruct (AnalyzeAbstractions_ceiling (E := demo.env) _ _ _ _ _ _ H1 H2 H3 H4)
    as (Hok & _ & _).
  apply Hok; [simpl; lia|]. split; [discriminate|]. split; [|reflexivity].
  apply Forall_cons. split; [|constructor].
  apply (bool_decide_unpack _). vm_compute. exact I.
Defined.

Section Handlers.
Context {E : Env}.

(** X9. The Sequencer reads the abstraction list at both ends of every
    relationship without a check. When every end is an index of the list,
    the prompt is built. Otherwise the first end out of range stops the
    handler with an out-of-range read, before any request is sent. *)
Theorem OrderChapters_reads_relationship_ends
    (input : types.OrderChaptersInput) (w : World) :
  types.oci_Abstractions input <> [] ->
  let n := len (types.oci_Abstractions input) in
  let details := types.rd_Details (types.oci_Relationships input) in
  (Forall (valid.relationship n) details ->
   exists prompt, services.OrderChapters_prompt input = Ok prompt) /\
  (forall pre rel post,
     details = pre ++ rel :: post ->
     Forall (valid.relationship n) pre -> ~ valid.relationship n rel ->
     services.OrderChapters input w
     = (Panic (IndexOutOfRange
                 (if bool_decide (0 <= types.rel_FromIndex rel < n)
                  then types.rel_ToIndex rel else types.rel_FromIndex rel) n), w)).
Proof.
  intros Hne n details. split; [apply OrderChapters_prompt_safe|].
  intros pre rel post Hd Hpre Hrel. unfold services.OrderChapters.
  replace (len (types.oci_Abstractions input) =? 0) with false.
  2:{ symmetry. apply Z.eqb_neq. destruct (types.oci_Abstractions input); [done|].
      rewrite len_cons. pose proof (len_nonneg l). lia. }
  unfold services.OrderChapters_prompt. fold details. rewrite Hd.
  rewrite relationshipLines_out_of_range by done. done.
Qed.

(** X10. The files read from the repository are those the walk found, in
    order: the file at place [k] has index [k], and the path and content
    of the [k]-th file found. Reading changes nothing in the world. *)
Theorem ReadFiles_indexes_files (input : types.ReadFilesInput) (w w' : World)
    (out : types.ReadFilesOutput) :
  services.ReadFiles input w = (Ok out, w') ->
  w' = w /\ types.rfi_RepoPath input <> [] /\
  exists fileInfos,
    utils_WalkDirectory
      {| utils_types.wdo_RootPath := types.rfi_RepoPath input;
         utils_types.wdo_IncludePatterns := types.rfi_IncludePatterns input;
         utils_types.wdo_ExcludePatterns := types.rfi_ExcludePatterns input;
         utils_types.wdo_MaxFileSize := types.rfi_MaxFileSize input;
         utils_types.wdo_MaxFiles := types.rfi_MaxFiles input |} = inr fileInfos /\
    types.rfo_Files out
    = imap (fun k info => {| types.fc_Index := Z.of_nat k;
                             types.fc_Path := utils_types.fi_RelativePath info;
                             types.fc_Content := utils_types.fi_Content info |}) fileInfos.
Proof.
  unfold services.ReadFiles. case_bool_decide as Hpath; [done|].
  destruct (utils_WalkDirectory _) as [err|fileInfos]; [done|].
  intros [= <- <-]. split; [done|]. split; [done|]. exists fileInfos. split; [done|].
  cbn [types.rfo_Files].
  assert (Hgen : forall i,
    services.indexed_files i fileInfos
    = imap (fun k info => {| types.fc_Index := i + Z.of_nat k;
                             types.fc_Path := utils_types.fi_RelativePath info;
                             types.fc_Content := utils_types.fi_Content info |}) fileInfos).
  { induction fileInfos as [|info rest IH]; intros i; [done|].
    cbn [services.indexed_files imap]. rewrite Z.add_0_r, IH. f_equal.
    apply imap_ext. intros k x _. simpl. f_equal. lia. }
  rewrite Hgen. apply imap_ext. intros k x _. done.
Qed.

(** X11. The chapters of a run are composed one after the other: the
    chapter at place [k] is the answer to the composer for the abstraction
    at place [k] of the order, with chapter number [k + 1] and, as earlier
    chapters, the summaries of the [k] chapters before it, in order. *)
Theorem write_loop_passes_earlier_summaries
    (files : list types.FileContent) (abstractions : list types.Abstraction)
    (projectName : gostring) (orderedIndices : list Z) (w w' : World)
    (chapters : list types.WriteChapterOutput) :
  workflow.write_loop files abstractions projectName 0 [] orderedIndices w
  = (Ok chapters, w') ->
  length chapters = length orderedIndices /\
  forall k chapter, chapters !! k = Some chapter ->
    exists absIndex abstraction w1 w2,
      orderedIndices !! k = Some absIndex /\
      index abstractions absIndex = Ok abstraction /\
      services.WriteChapter
        {| types.wci_Abstraction := abstraction;
           types.wci_Files := files;
           types.wci_PreviousChapters := map workflow.chapter_summary (take k chapters);
           types.wci_ProjectName := projectName;
           types.wci_ChapterNumber := Z.of_nat k + 1 |} w1 = (Ok chapter, w2).
Proof.
  intros (Hlen & _ & _ & Hk)%write_loop_Ok. split; [done|].
  intros k chapter Hc. destruct (Hk k chapter Hc) as (a & ab & w1 & w2 & H1 & H2 & H3).
  exists a, ab, w1, w2. split; [done|]. split; [done|].
  cbn [app] in H3. by rewrite Z.add_0_l in H3.
Qed.


(** X13. The disk after a successful emission: a path that is not among
    the files written holds what it held before; the path of a chapter
    holds that chapter's content, unless a later chapter of the list is
    written to the same path. *)
Theorem WriteMarkdownFiles_last_write_wins
    (input : types.WriteMarkdownFilesInput) (w w' : World)
    (out : types.WriteMarkdownFilesOutput) :
  services.WriteMarkdownFiles input w = (Ok out, w') ->
  let outputDir := types.wmi_OutputDir input in
  (forall p, p ∉ types.wmo_FilesWritten out -> w_files w' !! p = w_files w !! p) /\
  (forall pre chapter post,
     types.wmi_Chapters input = pre ++ chapter :: post ->
     disk.path outputDir chapter ∉ map (disk.path outputDir) post ->
     w_files w' !! disk.path outputDir chapter = Some (types.wco_Content chapter)).
Proof.
  intros H outputDir.
  unfold services.WriteMarkdownFiles in H. fold outputDir in H.
  case_bool_decide as Hdir; [done|].
  destruct (os_MkdirAll outputDir); [done|]. unfold bind in H.
  destruct (services.write_chapters _ _ w) as [r1 w1] eqn:Hw.
  apply write_chapters_outcome in Hw as (pre & post & Hch & _ & -> & Hpost).
  destruct post as [|c post']; [|by destruct Hpost as (? & _ & ->)].
  rewrite Hpost in H. unfold ret in H. injection H as <- <-.
  rewrite app_nil_r in Hch. subst pre. cbn [types.wmo_FilesWritten w_files]. split.
  - intros p Hp. by apply written_untouched.
  - intros pre chapter post -> Hlast. by apply written_last.
Qed.


End Handlers.

Lemma OrderChapters_reads_relationship_ends_witness :
  services.OrderChapters (E := demo.env)
    {| types.oci_Abstractions := demo.abstractions;
       types.oci_Relationships :=
         {| types.rd_Summary := [];
            types.rd_Details := [ {| types.rel_FromIndex := 0; types.rel_ToIndex := 2;
                                     types.rel_Label := str "uses" |} ] |};
       types.oci_ProjectName := str "flow" |} (demo.world 2)
  = (Panic (IndexOutOfRange 2 2), demo.world 2).
Proof.
  set (rel := {| types.rel_FromIndex := 0; types.rel_ToIndex := 2;
                 types.rel_Label := str "uses" |}).
  set (input := {| types.oci_Abstractions := demo.abstractions;
                   types.oci_Relationships :=
                     {| types.rd_Summary := []; types.rd_Details := [rel] |};
                   types.oci_ProjectName := str "flow" |}).
  assert (Hne : types.oci_Abstractions input <> []) by (simpl; discriminate).
  assert (Hrel : ~ valid.relationship (len (types.oci_Abstractions input)) rel).
  { unfold valid.relationship. simpl. unfold len. simpl. lia. }
  exact (proj2 (OrderChapters_reads_relationship_ends (E := demo.env) input (demo.world 2) Hne)
           [] rel [] eq_refl (Forall_nil_2 _) Hrel).
Defined.

Lemma ReadFiles_indexes_files_witness :
  exists out,
    services.ReadFiles (E := demo.env)
      {| types.rfi_RepoPath := str "repo"; types.rfi_IncludePatterns := [];
         types.rfi_ExcludePatterns := []; types.rfi_MaxFileSize := 0;
         types.rfi_MaxFiles := 0 |} (demo.world 0) = (Ok out, demo.world 0) /\
    types.fc_Index <$> types.rfo_Files out = [0; 1; 2].
Proof.
  assert (H : exists out,
    services.ReadFiles (E := demo.env)
      {| types.rfi_RepoPath := str "repo"; types.rfi_IncludePatterns := [];
         types.rfi_ExcludePatterns := []; types.rfi_MaxFileSize := 0;
         types.rfi_MaxFiles := 0 |} (demo.world 0) = (Ok out, demo.world 0)).
  { vm_compute. by eexists. }
  destruct H as (out & H). exists out. split; [exact H|].
  destruct (ReadFiles_indexes_files (E := demo.env) _ _ _ _ H)
    as (_ & _ & fileInfos & Hw & ->).
  injection Hw as <-. reflexivity.
Defined.

Lemma write_loop_passes_earlier_summaries_witness :
  exists chapters w',
    workflow.write_loop (E := demo.env) demo.files demo.abstractions (str "flow") 0 []
      [1; 0] (demo.world 3) = (Ok chapters, w') /\
    length chapters = 2%nat.
Proof.
  assert (H : exists chapters w',
    workflow.write_loop (E := demo.env) demo.files demo.abstractions (str "flow") 0 []
      [1; 0] (demo.world 3) = (Ok chapters, w')).
  { vm_compute. by eexists _, _. }
  destruct H as (chapters & w' & H). exists chapters, w'. split; [exact H|].
  by destruct (write_loop_passes_earlier_summaries (E := demo.env) _ _ _ _ _ _ _ H) as [-> _].
Defined.


Lemma WriteMarkdownFiles_last_write_wins_witness :
  exists out w',
    services.WriteMarkdownFiles (E := runs.accepting)
      {| types.wmi_OutputDir := str "tutorial";
         types.wmi_Chapters :=
           [ {| types.wco_ChapterNumber := 1; types.wco_Title := str "Flow";
                types.wco_Content := demo.flow_chapter |};
             {| types.wco_ChapterNumber := 1; types.wco_Title := str "flow!";
                types.wco_Content := demo.node_chapter |} ] |} (demo.world 5)
    = (Ok out, w') /\
    w_files w' !! str "tutorial/01_flow.md" = Some demo.node_chapter /\
    w_files w' !! str "tutorial/02_node.md" = None.
Proof.
  assert (H : exists out w',
    services.WriteMarkdownFiles (E := runs.accepting)
      {| types.wmi_OutputDir := str "tutorial";
         types.wmi_Chapters :=
           [ {| types.wco_ChapterNumber := 1; types.wco_Title := str "Flow";
                types.wco_Content := demo.flow_chapter |};
             {| types.wco_ChapterNumber := 1; types.wco_Title := str "flow!";
                types.wco_Content := demo.node_chapter |} ] |} (demo.world 5)
    = (Ok out, w') /\
    types.wmo_FilesWritten out = [str "tutorial/01_flow.md"; str "tutorial/01_flow.md"]).
  { vm_compute. eexists _, _. split; reflexivity. }
  destruct H as (out & w' & H & Hout). exists out, w'. split; [exact H|].
  destruct (WriteMarkdownFiles_last_write_wins (E := runs.accepting) _ _ _ _ H) as [Hframe Hlast].
  split.
  - apply (Hlast [ {| types.wco_ChapterNumber := 1; types.wco_Title := str "Flow";
                      types.wco_Content := demo.flow_chapter |} ]
                 {| types.wco_ChapterNumber := 1; types.wco_Title := str "flow!";
                    types.wco_Content := demo.node_chapter |} []); [reflexivity|].
    apply not_elem_of_nil.
  - rewrite Hframe; [reflexivity|]. rewrite Hout.
    apply (bool_decide_unpack _). vm_compute. exact I.
Defined.


(** ** Texts and names *)

Section Removal.
Implicit Types s : gostring.

Lemma filter_all {A} (P : A -> Prop) `{forall x, Decision (P x)} (l : list A) :
  Forall P l -> filter P l = l.
Proof. induction 1 as [|x l Hx _ IH]; [done|]. by rewrite filter_cons_True, IH. Qed.

(** [ReplaceAll] with the empty string as replacement drops every byte [c]. *)
Lemma replace_loop_remove n s c :
  (length s <= n)%nat ->
  strings.replace_loop n s [c] [] = filter (fun x => x <> c) s.
Proof.
  revert s. induction n as [|n IH]; intros s Hn.
  - destruct s; [done | simpl in Hn; lia].
  - cbn [strings.replace_loop]. destruct (strings.Index s [c]) as [j|] eqn:Hj.
    + pose proof (Index_Some_split _ _ _ Hj) as Hs.
      pose proof (Index_Some_bound _ _ _ Hj) as Hb. cbn [length] in Hb, Hs.
      assert (Hfresh : Forall (fun x => x <> c) (take j s)).
      { apply Forall_forall. intros x Hx Heq. subst x.
        apply list_elem_of_lookup in Hx as [k Hk].
        pose proof (lookup_lt_Some _ _ _ Hk) as Hlt. rewrite length_take in Hlt.
        rewrite lookup_take_Some in Hk. destruct Hk as [Hk _].
        apply HasPrefix_singleton in Hk.
        rewrite (Index_Some_first _ _ _ k Hj) in Hk; [done | lia]. }
      rewrite IH by (rewrite length_drop; simpl; lia).
      cbn [length app].
      assert (Hf : filter (fun x => x <> c) s
                   = take j s ++ filter (fun x => x <> c) (drop (j + 1) s)).
      { rewrite Hs at 1. rewrite filter_app, (filter_all _ _ Hfresh). f_equal.
        cbn [app]. rewrite filter_cons_False; [done|]. intros H. by apply H. }
      by rewrite Hf.
    + symmetry. apply filter_all.
      apply Forall_forall. intros x Hx Heq. subst x.
      apply list_elem_of_lookup in Hx as [k Hk]. apply HasPrefix_singleton in Hk.
      by rewrite (Index_None _ _ k Hj) in Hk.
Qed.

Lemma ReplaceAll_remove s c :
  strings.ReplaceAll s [c] [] = filter (fun x => x <> c) s.
Proof. by apply replace_loop_remove. Qed.

End Removal.

Section Trimming.
Implicit Types s : gostring.

Lemma scan_space_suffix s :
  exists b, match strings.scan_space s with
            | strings.Stop rest | strings.NonASCII rest => rest = drop b s
            end.
Proof.
  induction s as [|c t [b IH]]; [by exists O|].
  cbn [strings.scan_space]. destruct (utf8.RuneSelf <=? byte_val c); [by exists O|].
  destruct (strings.asciiSpace _); [|by exists O].
  exists (S b). exact IH.
Qed.

Lemma TrimLeftFunc_suffix s f : exists b, strings.TrimLeftFunc s f = drop b s.
Proof.
  unfold strings.TrimLeftFunc. destruct (strings.indexFunc s f false) as [i|].
  - by eexists.
  - exists (length s). by rewrite drop_all.
Qed.

Lemma TrimRightFunc_prefix s f : exists a, strings.TrimRightFunc s f = take a s.
Proof.
  unfold strings.TrimRightFunc. destruct (strings.lastIndexFunc s f false) as [i|].
  - destruct (utf8.RuneSelf <=? byte_at s i); [|by eexists].
    destruct (utf8.DecodeRuneInString _) as [r wid]. by eexists.
  - by exists O.
Qed.

(** [TrimSpace] returns a slice of its argument. *)
Lemma TrimSpace_slice s : exists a b, strings.TrimSpace s = take a (drop b s).
Proof.
  unfold strings.TrimSpace. destruct (scan_space_suffix s) as [b Hb].
  destruct (strings.scan_space s) as [rest|rest]; subst rest.
  - destruct (scan_space_suffix (rev (drop b s))) as [k Hk].
    destruct (strings.scan_space (rev (drop b s))) as [r|r]; subst r.
    + exists (length (drop b s) - k)%nat, b. by rewrite List.skipn_rev, rev_involutive.
    + destruct (TrimRightFunc_prefix (rev (drop k (rev (drop b s)))) unicode.IsSpace)
        as [a ->].
      rewrite List.skipn_rev, rev_involutive, take_take. by eexists _, b.
  - unfold strings.TrimFunc.
    destruct (TrimLeftFunc_suffix (drop b s) unicode.IsSpace) as [b' ->].
    destruct (TrimRightFunc_prefix (drop b' (drop b s)) unicode.IsSpace) as [a ->].
    rewrite drop_drop. by eexists _, _.
Qed.

Lemma TrimSpace_length s : (length (strings.TrimSpace s) <= length s)%nat.
Proof.
  destruct (TrimSpace_slice s) as (a & b & ->). rewrite length_take, length_drop. lia.
Qed.

Lemma TrimSpace_elem s c : c ∈ strings.TrimSpace s -> c ∈ s.
Proof.
  destruct (TrimSpace_slice s) as (a & b & ->).
  intros H. by apply subseteq_take, subseteq_drop in H.
Qed.

End Trimming.

Section Affixes.
Implicit Types s : gostring.

Lemma HasSuffix_app s suffix : strings.HasSuffix (s ++ suffix) suffix = true.
Proof. unfold strings.HasSuffix. rewrite rev_app_distr. apply HasPrefix_app. Qed.

Lemma TrimPrefix_app s prefix : strings.TrimPrefix (prefix ++ s) prefix = s.
Proof. unfold strings.TrimPrefix. by rewrite HasPrefix_app, drop_app_length. Qed.

Lemma TrimSuffix_app s suffix : strings.TrimSuffix (s ++ suffix) suffix = s.
Proof.
  unfold strings.TrimSuffix. rewrite HasSuffix_app, length_app.
  replace (length s + length suffix - length suffix)%nat with (length s) by lia.
  apply take_app_length.
Qed.

Lemma backtick_plain : spec.is_plain "`"%char.
Proof. unfold spec.is_plain, spec.is_ascii_space. vm_compute. intuition congruence. Qed.

End Affixes.

Section Texts.

Lemma markdown_not_prefix inner :
  strings.HasPrefix inner (str "markdown") = false ->
  strings.HasPrefix (inner ++ fence) (str "markdown") = false.
Proof.
  intros Hn. apply not_true_is_false. intros [k Hk]%HasPrefix_prefix.
  apply not_true_iff_false in Hn. apply Hn. apply HasPrefix_prefix.
  destruct (decide (8 <= length inner)%nat) as [Hlen|Hlen].
  - exists (take (length inner - 8) k).
    apply (f_equal (take (length inner))) in Hk.
    rewrite take_app_length in Hk. rewrite Hk at 1.
    rewrite take_app. change (length (str "markdown")) with 8%nat.
    rewrite take_ge by (change (length (str "markdown")) with 8%nat; lia). done.
  - exfalso. apply (f_equal (fun l => l !! length inner)) in Hk.
    rewrite lookup_app_r, Nat.sub_diag in Hk by lia. cbn [fence str] in Hk.
    rewrite lookup_app_l in Hk by (change (length (str "markdown")) with 8%nat; lia).
    assert (Hall : Forall (fun c => c <> "`"%char) (str "markdown")).
    { apply (bool_decide_unpack _). vm_compute. exact I. }
    rewrite Forall_forall in Hall. symmetry in Hk. 
    apply list_elem_of_lookup_2 in Hk. by apply Hall in Hk.
Qed.

(** X15. The answer of the generator is unwrapped: white space around it is
    dropped; a fence opened with [```markdown] and its closing fence are
    dropped, and so are a fence opened with plain [```] and its closing
    fence, the text between them is then trimmed; an answer that does not
    start with a fence is kept as it is. *)
Theorem cleanup_response_unwraps (l r inner : gostring) :
  Forall spec.is_ascii_space l -> Forall spec.is_ascii_space r ->
  services.cleanup_response (l ++ str "```markdown" ++ inner ++ fence ++ r)
  = strings.TrimSpace inner /\
  (strings.HasPrefix inner (str "markdown") = false ->
   services.cleanup_response (l ++ fence ++ inner ++ fence ++ r) = strings.TrimSpace inner) /\
  (forall c t d t',
     inner = c :: t -> inner = t' ++ [d] -> spec.is_plain c -> spec.is_plain d ->
     strings.HasPrefix inner fence = false ->
     services.cleanup_response (l ++ inner ++ r) = inner).
Proof.
  intros Hl Hr. split; [|split].
  - unfold services.cleanup_response.
    assert (Ht : strings.TrimSpace (l ++ str "```markdown" ++ inner ++ fence ++ r)
                 = str "```markdown" ++ inner ++ fence).
    { replace (l ++ str "```markdown" ++ inner ++ fence ++ r)
        with (l ++ (str "```markdown" ++ inner ++ fence) ++ r)
        by (by rewrite <- !app_assoc).
      apply (TrimSpace_between l r "`"%char (str "``markdown" ++ inner ++ fence) "`"%char
               Hl Hr backtick_plain backtick_plain); [reflexivity|].
      exists (str "```markdown" ++ inner ++ str "``"). by rewrite <- !app_assoc. }
    rewrite Ht, HasPrefix_app, TrimPrefix_app, TrimSuffix_app. done.
  - intros Hmd. unfold services.cleanup_response.
    assert (Ht : strings.TrimSpace (l ++ fence ++ inner ++ fence ++ r)
                 = fence ++ inner ++ fence).
    { replace (l ++ fence ++ inner ++ fence ++ r)
        with (l ++ (fence ++ inner ++ fence) ++ r)
        by (by rewrite <- !app_assoc).
      apply (TrimSpace_between l r "`"%char (str "``" ++ inner ++ fence) "`"%char
               Hl Hr backtick_plain backtick_plain); [reflexivity|].
      exists (fence ++ inner ++ str "``"). by rewrite <- !app_assoc. }
    rewrite Ht.
    replace (strings.HasPrefix (fence ++ inner ++ fence) (str "```markdown"))
      with (strings.HasPrefix (inner ++ fence) (str "markdown")) by done.
    rewrite markdown_not_prefix by done.
    rewrite HasPrefix_app, TrimPrefix_app, TrimSuffix_app. done.
  - intros c t d t' Hc Hd Hpc Hpd Hf. unfold services.cleanup_response.
    rewrite (TrimSpace_between l r c t d Hl Hr Hpc Hpd inner Hc (ex_intro _ t' Hd)).
    assert (Hm : strings.HasPrefix inner (str "```markdown") = false).
    { apply not_true_is_false. intros [k Hk]%HasPrefix_prefix.
      apply not_true_iff_false in Hf. apply Hf. apply HasPrefix_prefix.
      exists (str "markdown" ++ k). by rewrite Hk. }
    by rewrite Hm, Hf.
Qed.

(** X16. The summary of a chapter handed to the chapters after it: the
    content, cut to its first 200 bytes and [...] when it is longer, with
    every [#] removed, then trimmed. It carries the chapter's title, holds
    no [#], is at most 203 bytes long, and is no longer than a content of
    at most 200 bytes. *)
Theorem chapter_summary_bounded (chapterOutput : types.WriteChapterOutput) :
  let content := types.wco_Content chapterOutput in
  let summary := workflow.chapter_summary chapterOutput in
  types.cs_Name summary = types.wco_Title chapterOutput /\
  types.cs_Summary summary
  = strings.TrimSpace
      (filter (fun c => c <> "#"%char)
         (if 200 <? len content then take 200 content ++ str "..." else content)) /\
  ("#"%char ∉ types.cs_Summary summary) /\
  len (types.cs_Summary summary) <= 203 /\
  (len content <= 200 -> len (types.cs_Summary summary) <= len content).
Proof.
  intros content summary.
  assert (Hs : types.cs_Summary summary
    = strings.TrimSpace
      (filter (fun c => c <> "#"%char)
         (if 200 <? len content then take 200 content ++ str "..." else content))).
  { unfold summary, workflow.chapter_summary. cbn [types.cs_Summary].
    change (str "#") with ["#"%char]. rewrite ReplaceAll_remove. done. }
  split; [done|]. split; [done|]. rewrite Hs. split.
  { intros H%TrimSpace_elem. apply list_elem_of_filter in H as [H _]. done. }
  assert (Hlen : len (strings.TrimSpace
      (filter (fun c => c <> "#"%char)
         (if 200 <? len content then take 200 content ++ str "..." else content)))
    <= (if 200 <? len content then 203 else len content)).
  { pose proof (TrimSpace_length
      (filter (fun c => c <> "#"%char)
         (if 200 <? len content then take 200 content ++ str "..." else content))) as H1.
    pose proof (length_filter (fun c => c <> "#"%char)
         (if 200 <? len content then take 200 content ++ str "..." else content)) as H2.
    unfold len in *. destruct (200 <? Z.of_nat (length content)) eqn:Hc.
    + apply Z.ltb_lt in Hc. rewrite length_app, length_take in H2.
      change (length (str "...")) with 3%nat in H2. lia.
    + apply Z.ltb_ge in Hc. lia. }
  split.
  - destruct (200 <? len content) eqn:Hc; [done|]. apply Z.ltb_ge in Hc. lia.
  - intros Hc. destruct (200 <? len content) eqn:Hlt; [|done].
    apply Z.ltb_lt in Hlt. lia.
Qed.

End Texts.

Lemma cleanup_response_unwraps_witness :
  services.cleanup_response
    (nl ++ str "```markdown" ++ (nl ++ str "# Flow" ++ nl) ++ fence ++ nl)
  = str "# Flow".
Proof.
  assert (Hs : Forall spec.is_ascii_space nl).
  { apply Forall_cons. split; [|constructor]. split; [by vm_compute|reflexivity]. }
  destruct (cleanup_response_unwraps nl nl (nl ++ str "# Flow" ++ nl) Hs Hs) as [-> _].
  vm_compute. exact eq_refl.
Defined.

Section FileNames.
Context {E : Env}.
Import spec.

Lemma filename_byte_ascii c : is_filename_byte c -> byte_val c < 128.
Proof.
  intros [H|[H| ->]]; [lia..|]. by vm_compute.
Qed.

Lemma filename_byte_not_upper c :
  is_filename_byte c -> strings.isUpperByte (byte_val c) = false.
Proof.
  unfold strings.isUpperByte. intros [H|[H| ->]].
  - apply andb_false_iff. right. apply Z.leb_gt. lia.
  - apply andb_false_iff. left. apply Z.leb_gt. lia.
  - by vm_compute.
Qed.

Lemma ToLower_filename f s :
  Forall is_filename_byte s -> strings.ToLower f s = s.
Proof.
  intros Hs. unfold strings.ToLower.
  replace (forallb (fun c => byte_val c <? utf8.RuneSelf) s) with true.
  2:{ symmetry. apply forallb_forall. intros c Hc%list_elem_of_In.
      rewrite Forall_forall in Hs. apply Z.ltb_lt.
      change utf8.RuneSelf with 128. by apply filename_byte_ascii, Hs. }
  induction Hs as [|c t Hc _ IH]; [done|]. cbn [map].
  by rewrite (filename_byte_not_upper c Hc), IH.
Qed.

Lemma range_from_ascii i s :
  Forall (fun c => byte_val c < 128) s ->
  map snd (utf8.range_from 0 i s) = map byte_val s.
Proof.
  intros Hs. revert i. induction Hs as [|c t Hc _ IH]; intros i; [done|].
  cbn [utf8.range_from utf8.DecodeRuneInString].
  unfold utf8.first. replace (byte_val c <? 128) with true by (symmetry; apply Z.ltb_lt; lia).
  change (Z.to_nat (1 - 1)) with O. cbn [map snd]. by rewrite IH.
Qed.

Lemma sanitize_rune_filename c :
  is_filename_byte c -> utils.sanitize_rune (byte_val c) = byte_val c.
Proof.
  unfold utils.sanitize_rune. intros [H|[H| ->]].
  - replace ((97 <=? byte_val c) && (byte_val c <=? 122)) with true; [done|].
    symmetry. apply andb_true_iff. split; apply Z.leb_le; lia.
  - replace ((48 <=? byte_val c) && (byte_val c <=? 57)) with true;
      [by rewrite orb_true_r|].
    symmetry. apply andb_true_iff. split; apply Z.leb_le; lia.
  - by vm_compute.
Qed.

Lemma map_chars_filename s : Forall is_filename_byte s -> map_chars s = s.
Proof.
  intros Hs. unfold map_chars, utf8.range.
  rewrite <- (map_map snd (fun r => byte_of (utils.sanitize_rune r))).
  rewrite range_from_ascii.
  2:{ eapply Forall_impl; [exact Hs|]. apply filename_byte_ascii. }
  rewrite map_map.
  induction Hs as [|c t Hc _ IH]; [done|].
  cbn [map]. by rewrite (sanitize_rune_filename c Hc), byte_of_val, IH.
Qed.

Lemma head_starts s : head s <> Some underscore -> starts_with_underscore s = false.
Proof. destruct s as [|c t]; [done|]. simpl. intros H. case_bool_decide; congruence. Qed.

Lemma trim_fixed s :
  head s <> Some underscore -> last s <> Some underscore -> trim s = s.
Proof.
  intros Hh Hl. unfold trim. rewrite (drop_underscores_id s) by by apply head_starts.
  rewrite drop_underscores_id; [apply rev_involutive|].
  apply head_starts. by rewrite <- last_head_rev.
Qed.

Lemma sanitize_fixed s :
  Forall is_filename_byte s -> no_double_underscore s = true ->
  head s <> Some underscore -> last s <> Some underscore ->
  sanitize s = s.
Proof.
  intros Ha Hd Hh Hl. unfold sanitize.
  rewrite ToLower_filename, map_chars_filename, collapse_fixed by done.
  by apply trim_fixed.
Qed.

(** X17. Sanitizing a sanitized name changes nothing; and a name made of
    [a-z], [0-9] and single inner ['_'] is its own sanitization. *)
Theorem SanitizeFilename_idempotent :
  (forall name,
     utils.SanitizeFilename (utils.SanitizeFilename name) = utils.SanitizeFilename name) /\
  (forall name,
     Forall is_filename_byte name ->
     strings.Contains name (str "__") = false ->
     head name <> Some underscore -> last name <> Some underscore ->
     utils.SanitizeFilename name = name).
Proof.
  split.
  - intros name. rewrite !SanitizeFilename_sanitize.
    destruct (sanitize_properties (E := E) name) as (Ha & Hd & Hh & Hl).
    by apply sanitize_fixed.
  - intros name Ha Hd Hh Hl. rewrite SanitizeFilename_sanitize.
    apply sanitize_fixed; try done.
    rewrite Contains_double in Hd. by destruct (no_double_underscore name).
Qed.

End FileNames.

Lemma SanitizeFilename_idempotent_witness :
  utils.SanitizeFilename (E := demo.env) (str "node_abstraction") = str "node_abstraction".
Proof.
  destruct (SanitizeFilename_idempotent (E := demo.env)) as [_ H]. apply H.
  - apply (bool_decide_unpack _). vm_compute. exact I.
  - vm_compute. exact eq_refl.
  - simpl. discriminate.
  - vm_compute. discriminate.
Defined.

(** ** The walk of the repository *)

Section Walk.
Context {F : filewalker.FileSystem}.
Import filewalker.

Lemma omap_cons_eq {A B} (f : A -> option B) (x : A) (l : list A) :
  omap f (x :: l) = match f x with Some y => y :: omap f l | None => omap f l end.
Proof. reflexivity. Qed.

Implicit Types (opts : utils_types.WalkDirectoryOptions) (files : list utils_types.FileInfo).

Lemma compile_Ok patterns globs :
  compile patterns = inr globs <->
  Forall2 (fun pattern g => glob_Compile pattern = inr g) patterns globs.
Proof.
  revert globs. induction patterns as [|pattern rest IH]; intros globs; cbn [compile].
  - split; [intros [= <-]; constructor | by intros ->%Forall2_nil_inv_l].
  - destruct (glob_Compile pattern) as [err|g] eqn:Hg.
    + split; [done|]. intros (g & gs & Hc & _ & _)%Forall2_cons_inv_l. congruence.
    + destruct (compile rest) as [bad|gs] eqn:Hrest.
      * split; [done|]. intros (g' & gs & _ & Hgs & _)%Forall2_cons_inv_l.
        apply IH in Hgs. done.
      * split.
        -- intros [= <-]. constructor; [done|]. by apply IH.
        -- intros (g' & gs' & Hc & Hgs & ->)%Forall2_cons_inv_l.
           apply IH in Hgs. congruence.
Qed.

Lemma compile_first_invalid pre globs pattern err post :
  Forall2 (fun pattern g => glob_Compile pattern = inr g) pre globs ->
  glob_Compile pattern = inl err ->
  compile (pre ++ pattern :: post) = inl (pattern, err).
Proof.
  intros Hpre Hbad. induction Hpre as [|p g pre globs Hp _ IH]; cbn [app compile].
  - by rewrite Hbad.
  - by rewrite Hp, IH.
Qed.

(** What the callback does with a visit the walk can reach. *)
Lemma walkFn_reachable opts includeGlobs excludeGlobs absRoot files v :
  reachable absRoot v ->
  walkFn opts includeGlobs excludeGlobs absRoot files v
  = match selected opts includeGlobs excludeGlobs absRoot v with
    | Some file =>
      if (0 <? utils_types.wdo_MaxFiles opts) && (utils_types.wdo_MaxFiles opts <=? len files)
      then SkipAll else Nil (files ++ [file])
    | None =>
      match filepath_Rel absRoot (v_path v) with
      | inr relPath =>
        if eligible opts includeGlobs excludeGlobs (filepath_ToSlash relPath) v
           && (0 <? utils_types.wdo_MaxFiles opts)
           && (utils_types.wdo_MaxFiles opts <=? len files)
        then SkipAll else Nil files
      | inl _ => Nil files
      end
    end.
Proof.
  intros [Herr Hrel]. unfold walkFn, selected, eligible. rewrite Herr.
  destruct (v_IsDir v) eqn:Hdir.
  { cbn [negb andb]. by destruct (filepath_Rel absRoot (v_path v)). }
  destruct (Hrel eq_refl) as [relPath ->]. cbn [negb andb].
  destruct (existsb _ excludeGlobs); [done|]. cbn [negb andb].
  assert (Hinc : (0 <? len includeGlobs) = negb (bool_decide (includeGlobs = []))).
  { destruct includeGlobs; [done|]. rewrite len_cons.
    pose proof (len_nonneg includeGlobs). rewrite bool_decide_eq_false_2 by done.
    apply Z.ltb_lt. lia. }
  rewrite Hinc.
  destruct (bool_decide (includeGlobs = [])) eqn:Hnil; cbn [negb andb orb].
  - destruct ((0 <? utils_types.wdo_MaxFileSize opts)
              && (utils_types.wdo_MaxFileSize opts <? v_Size v)) eqn:Hsize.
    + apply andb_true_iff in Hsize as [H1%Z.ltb_lt H2%Z.ltb_lt].
      replace ((utils_types.wdo_MaxFileSize opts <=? 0)
               || (v_Size v <=? utils_types.wdo_MaxFileSize opts)) with false; [done|].
      symmetry. apply orb_false_iff. split; apply Z.leb_gt; lia.
    + replace ((utils_types.wdo_MaxFileSize opts <=? 0)
               || (v_Size v <=? utils_types.wdo_MaxFileSize opts)) with true.
      2:{ symmetry. apply andb_false_iff in Hsize as [H%Z.ltb_ge|H%Z.ltb_ge];
            apply orb_true_iff; [left|right]; apply Z.leb_le; lia. }
      cbn [andb]. destruct (os_ReadFile (v_path v)); [|done].
      by destruct ((0 <? _) && (_ <=? _)).
  - destruct (existsb _ includeGlobs); cbn [negb andb]; [|done].
    destruct ((0 <? utils_types.wdo_MaxFileSize opts)
              && (utils_types.wdo_MaxFileSize opts <? v_Size v)) eqn:Hsize.
    + apply andb_true_iff in Hsize as [H1%Z.ltb_lt H2%Z.ltb_lt].
      replace ((utils_types.wdo_MaxFileSize opts <=? 0)
               || (v_Size v <=? utils_types.wdo_MaxFileSize opts)) with false; [done|].
      symmetry. apply orb_false_iff. split; apply Z.leb_gt; lia.
    + replace ((utils_types.wdo_MaxFileSize opts <=? 0)
               || (v_Size v <=? utils_types.wdo_MaxFileSize opts)) with true.
      2:{ symmetry. apply andb_false_iff in Hsize as [H%Z.ltb_ge|H%Z.ltb_ge];
            apply orb_true_iff; [left|right]; apply Z.leb_le; lia. }
      cbn [andb]. destruct (os_ReadFile (v_path v)); [|done].
      by destruct ((0 <? _) && (_ <=? _)).
Qed.

(** A callback that fails has met a visit the walk cannot reach. *)
Lemma walkFn_Failed opts includeGlobs excludeGlobs absRoot files v err :
  walkFn opts includeGlobs excludeGlobs absRoot files v = Failed err ->
  ~ reachable absRoot v.
Proof.
  intros H Hr. rewrite walkFn_reachable in H by done.
  destruct (selected _ _ _ _ v); [by destruct (_ && _)|].
  destruct (filepath_Rel _ _); [done|]. by destruct (_ && _ && _).
Qed.

Lemma walk_reachable opts includeGlobs excludeGlobs absRoot files visits :
  Forall (reachable absRoot) visits ->
  walk opts includeGlobs excludeGlobs absRoot files visits
  = inr (found opts includeGlobs excludeGlobs absRoot files visits).
Proof.
  intros Hv. revert files. induction Hv as [|v rest Hr _ IH]; intros files.
  - cbn [walk]. unfold found. change (omap _ []) with (@nil utils_types.FileInfo).
    rewrite take_nil. destruct (0 <? _); by rewrite app_nil_r.
  - cbn [walk]. rewrite walkFn_reachable by done. unfold found.
    rewrite (omap_cons_eq (selected opts includeGlobs excludeGlobs absRoot) v rest).
    destruct (selected opts includeGlobs excludeGlobs absRoot v) as [file|] eqn:Hsel.
    + destruct (0 <? utils_types.wdo_MaxFiles opts) eqn:Hlim; cbn [andb].
      * destruct (utils_types.wdo_MaxFiles opts <=? len files) eqn:Hfull.
        -- apply Z.leb_le in Hfull.
           replace (Z.to_nat (utils_types.wdo_MaxFiles opts - len files)) with O by lia.
           by rewrite take_0, app_nil_r.
        -- apply Z.leb_gt in Hfull. rewrite IH. unfold found. rewrite Hlim.
           rewrite len_app, len_cons, len_nil.
           replace (Z.to_nat (utils_types.wdo_MaxFiles opts - len files))
             with (S (Z.to_nat (utils_types.wdo_MaxFiles opts - (len files + (0 + 1)))))
             by lia.
           cbn [take]. by rewrite <- app_assoc.
      * rewrite IH. unfold found. rewrite Hlim. by rewrite <- app_assoc.
    + destruct (filepath_Rel absRoot (v_path v)) as [|relPath]; [apply IH|].
      destruct (eligible _ _ _ _ v && (0 <? utils_types.wdo_MaxFiles opts)
                && (utils_types.wdo_MaxFiles opts <=? len files)) eqn:Hstop; [|apply IH].
      apply andb_true_iff in Hstop as [[_ Hlim]%andb_true_iff Hfull%Z.leb_le].
      rewrite Hlim.
      replace (Z.to_nat (utils_types.wdo_MaxFiles opts - len files)) with O by lia.
      by rewrite take_0, app_nil_r.
Qed.

(** Any walk that ends well has found a first part of the candidates, and
    keeps to the ceiling. *)
Lemma walk_Ok opts includeGlobs excludeGlobs absRoot files visits out :
  walk opts includeGlobs excludeGlobs absRoot files visits = inr out ->
  exists picked,
    out = files ++ picked /\
    picked `prefix_of` omap (selected opts includeGlobs excludeGlobs absRoot) visits /\
    (0 < utils_types.wdo_MaxFiles opts -> len files <= utils_types.wdo_MaxFiles opts ->
     len out <= utils_types.wdo_MaxFiles opts).
Proof.
  revert files. induction visits as [|v rest IH]; intros files; cbn [walk].
  - intros [= <-]. exists []. rewrite app_nil_r. split; [done|]. split; [done|]. lia.
  - destruct (walkFn opts includeGlobs excludeGlobs absRoot files v) as [files'| |err] eqn:Hfn;
      [| |done].
    + assert (Hr : reachable absRoot v).
      { unfold walkFn in Hfn. unfold reachable.
        destruct (v_err v); [done|]. split; [done|]. intros Hdir. rewrite Hdir in Hfn.
        destruct (filepath_Rel absRoot (v_path v)); [done|]. by eexists. }
      rewrite walkFn_reachable in Hfn by done.
      rewrite (omap_cons_eq (selected opts includeGlobs excludeGlobs absRoot) v rest).
      destruct (selected opts includeGlobs excludeGlobs absRoot v) as [file|] eqn:Hsel.
      * destruct ((0 <? _) && (_ <=? _)) eqn:Hstop; [done|]. injection Hfn as <-.
        intros (picked & -> & Hpre & Hmax)%IH. exists (file :: picked).
        split; [by rewrite <- app_assoc|]. split; [by apply prefix_cons|].
        intros Hpos Hlen. apply Hmax; [done|]. rewrite len_app, len_cons, len_nil.
        apply andb_false_iff in Hstop as [H%Z.ltb_ge|H%Z.leb_gt]; lia.
      * assert (files' = files) as ->.
        { destruct (filepath_Rel absRoot (v_path v)); [by injection Hfn|].
          destruct (_ && _ && _); [done | by injection Hfn]. }
        apply IH.
    + intros [= <-]. exists []. rewrite app_nil_r. split; [done|].
      split; [apply prefix_nil|]. lia.
Qed.

End Walk.

Section WalkDirectoryTheorems.
Context {F : filewalker.FileSystem}.
Import filewalker.

Lemma selected_Some opts includeGlobs excludeGlobs absRoot v file :
  selected opts includeGlobs excludeGlobs absRoot v = Some file ->
  v_IsDir v = false /\
  (exists relPath,
     filepath_Rel absRoot (v_path v) = inr relPath /\
     utils_types.fi_RelativePath file = filepath_ToSlash relPath) /\
  Forall (fun g => glob_Match g (utils_types.fi_RelativePath file) = false) excludeGlobs /\
  (includeGlobs = [] \/
   Exists (fun g => glob_Match g (utils_types.fi_RelativePath file) = true) includeGlobs) /\
  (utils_types.wdo_MaxFileSize opts <= 0 \/ v_Size v <= utils_types.wdo_MaxFileSize opts) /\
  os_ReadFile (v_path v) = inr (utils_types.fi_Content file).
Proof.
  unfold selected, eligible. destruct (filepath_Rel absRoot (v_path v)) as [|relPath]; [done|].
  destruct (negb (v_IsDir v)) eqn:Hdir; [|done]. cbn [andb].
  destruct (existsb _ excludeGlobs) eqn:Hex; [done|]. cbn [negb andb].
  destruct (bool_decide _ || existsb _ includeGlobs) eqn:Hinc; [|done]. cbn [andb].
  destruct ((_ <=? 0) || (_ <=? _)) eqn:Hsize; [|done].
  destruct (os_ReadFile (v_path v)) as [|content]; [done|]. intros [= <-].
  cbn [utils_types.fi_RelativePath utils_types.fi_Content].
  split; [by destruct (v_IsDir v)|]. split; [by eexists|]. split.
  { apply Forall_forall. intros g Hg%list_elem_of_In. apply not_true_is_false. intros Hm.
    apply not_true_iff_false in Hex. apply Hex. apply existsb_exists. eauto. }
  split.
  { apply orb_true_iff in Hinc as [Hnil|Hm]; [left; by apply bool_decide_eq_true in Hnil|].
    right. apply existsb_exists in Hm as (g & Hg%list_elem_of_In & Hm).
    apply Exists_exists. eauto. }
  split; [|done].
  apply orb_true_iff in Hsize as [H%Z.leb_le|H%Z.leb_le]; [by left | by right].
Qed.

(** X18. The files a walk returns. Every file returned was handed to the
    callback as a file, not a directory; its path is the normalized path
    relative to the root; no exclude pattern matches it, and an include
    pattern does when there is one; it is not above the size limit when
    there is one; its content is what was read. The files come in the
    order of the walk, and there are at most [MaxFiles] of them when
    [MaxFiles] is positive. *)
Theorem WalkDirectory_keeps_filters
    (opts : utils_types.WalkDirectoryOptions) (files : list utils_types.FileInfo) :
  WalkDirectory opts = inr files ->
  exists includeGlobs excludeGlobs absRoot,
    Forall2 (fun pattern g => glob_Compile pattern = inr g)
      (utils_types.wdo_IncludePatterns opts) includeGlobs /\
    Forall2 (fun pattern g => glob_Compile pattern = inr g)
      (utils_types.wdo_ExcludePatterns opts) excludeGlobs /\
    filepath_Abs (utils_types.wdo_RootPath opts) = inr absRoot /\
    files `prefix_of`
      omap (selected opts includeGlobs excludeGlobs absRoot) (filepath_Walk absRoot) /\
    (0 < utils_types.wdo_MaxFiles opts -> len files <= utils_types.wdo_MaxFiles opts) /\
    forall file, file ∈ files ->
      exists v relPath,
        v ∈ filepath_Walk absRoot /\ v_IsDir v = false /\
        filepath_Rel absRoot (v_path v) = inr relPath /\
        utils_types.fi_RelativePath file = filepath_ToSlash relPath /\
        Forall (fun g => glob_Match g (utils_types.fi_RelativePath file) = false)
          excludeGlobs /\
        (includeGlobs = [] \/
         Exists (fun g => glob_Match g (utils_types.fi_RelativePath file) = true)
           includeGlobs) /\
        (utils_types.wdo_MaxFileSize opts <= 0 \/
         v_Size v <= utils_types.wdo_MaxFileSize opts) /\
        os_ReadFile (v_path v) = inr (utils_types.fi_Content file).
Proof.
  unfold WalkDirectory.
  destruct (compile (utils_types.wdo_IncludePatterns opts)) as [[? ?]|includeGlobs] eqn:Hi;
    [done|].
  destruct (compile (utils_types.wdo_ExcludePatterns opts)) as [[? ?]|excludeGlobs] eqn:He;
    [done|].
  destruct (filepath_Abs _) as [|absRoot] eqn:Habs; [done|].
  destruct (walk _ _ _ _ _ _) as [|out] eqn:Hw; [done|]. intros [= <-].
  apply walk_Ok in Hw as (picked & -> & Hpre & Hmax). cbn [app] in *.
  exists includeGlobs, excludeGlobs, absRoot.
  split; [by apply compile_Ok|]. split; [by apply compile_Ok|]. split; [done|].
  split; [done|]. split.
  { intros Hpos. apply Hmax; [done|]. rewrite len_nil. lia. }
  intros file Hfile.
  assert (Hin : file ∈ omap (selected opts includeGlobs excludeGlobs absRoot)
                         (filepath_Walk absRoot)).
  { destruct Hpre as [k ->]. apply elem_of_app. by left. }
  apply list_elem_of_omap in Hin as (v & Hv & Hsel).
  apply selected_Some in Hsel as (Hdir & (relPath & Hrel & Hpath) & Hex & Hinc & Hsize & Hread).
  exists v, relPath. done.
Qed.

(** X19. The result of a walk that meets no error: the files selected from
    the visits, in order, all of them when [MaxFiles] is not positive and
    the first [MaxFiles] of them otherwise. A file that cannot be read is
    passed over and does not count. *)
Theorem WalkDirectory_result
    (opts : utils_types.WalkDirectoryOptions) (includeGlobs excludeGlobs : list glob)
    (absRoot : gostring) :
  Forall2 (fun pattern g => glob_Compile pattern = inr g)
    (utils_types.wdo_IncludePatterns opts) includeGlobs ->
  Forall2 (fun pattern g => glob_Compile pattern = inr g)
    (utils_types.wdo_ExcludePatterns opts) excludeGlobs ->
  filepath_Abs (utils_types.wdo_RootPath opts) = inr absRoot ->
  Forall (reachable absRoot) (filepath_Walk absRoot) ->
  let candidates :=
    omap (selected opts includeGlobs excludeGlobs absRoot) (filepath_Walk absRoot) in
  WalkDirectory opts
  = inr (if 0 <? utils_types.wdo_MaxFiles opts
         then take (Z.to_nat (utils_types.wdo_MaxFiles opts)) candidates
         else candidates).
Proof.
  intros Hi%compile_Ok He%compile_Ok Habs Hreach candidates. unfold WalkDirectory.
  rewrite Hi, He, Habs, walk_reachable by done. unfold found. cbn [app].
  change (len (@nil utils_types.FileInfo)) with 0. by rewrite Z.sub_0_r.
Qed.

Lemma walk_app_unlimited opts includeGlobs excludeGlobs absRoot files pre rest :
  utils_types.wdo_MaxFiles opts <= 0 -> Forall (reachable absRoot) pre ->
  walk opts includeGlobs excludeGlobs absRoot files (pre ++ rest)
  = walk opts includeGlobs excludeGlobs absRoot
      (files ++ omap (selected opts includeGlobs excludeGlobs absRoot) pre) rest.
Proof.
  intros Hmax Hpre. revert files. induction Hpre as [|v pre Hv _ IH]; intros files.
  - by rewrite app_nil_r.
  - cbn [app walk]. rewrite walkFn_reachable by done.
    rewrite (omap_cons_eq (selected opts includeGlobs excludeGlobs absRoot) v pre).
    replace (0 <? utils_types.wdo_MaxFiles opts) with false by (symmetry; apply Z.ltb_ge; lia).
    cbn [andb].
    destruct (selected opts includeGlobs excludeGlobs absRoot v) as [file|].
    + rewrite IH. by rewrite <- app_assoc.
    + destruct (filepath_Rel absRoot (v_path v)); [apply IH|].
      rewrite andb_false_r. cbn [andb]. apply IH.
Qed.

(** X20. The errors of a walk, in the order they are looked for: the first
    include pattern that does not compile, whatever the exclude patterns
    are; then the first exclude pattern that does not compile; then a root
    that has no absolute path; then, with no ceiling on the files, the
    first error met on the way to a file or directory, which discards the
    files found before it. *)
Theorem WalkDirectory_errors (opts : utils_types.WalkDirectoryOptions) :
  (forall pre globs pattern err post,
     utils_types.wdo_IncludePatterns opts = pre ++ pattern :: post ->
     Forall2 (fun pattern g => glob_Compile pattern = inr g) pre globs ->
     glob_Compile pattern = inl err ->
     WalkDirectory opts = inl (ErrInvalidIncludePattern pattern err)) /\
  (forall includeGlobs pre globs pattern err post,
     Forall2 (fun pattern g => glob_Compile pattern = inr g)
       (utils_types.wdo_IncludePatterns opts) includeGlobs ->
     utils_types.wdo_ExcludePatterns opts = pre ++ pattern :: post ->
     Forall2 (fun pattern g => glob_Compile pattern = inr g) pre globs ->
     glob_Compile pattern = inl err ->
     WalkDirectory opts = inl (ErrInvalidExcludePattern pattern err)) /\
  (forall includeGlobs excludeGlobs err,
     Forall2 (fun pattern g => glob_Compile pattern = inr g)
       (utils_types.wdo_IncludePatterns opts) includeGlobs ->
     Forall2 (fun pattern g => glob_Compile pattern = inr g)
       (utils_types.wdo_ExcludePatterns opts) excludeGlobs ->
     filepath_Abs (utils_types.wdo_RootPath opts) = inl err ->
     WalkDirectory opts = inl (ErrAbsolutePath err)) /\
  (forall includeGlobs excludeGlobs absRoot pre v post err,
     Forall2 (fun pattern g => glob_Compile pattern = inr g)
       (utils_types.wdo_IncludePatterns opts) includeGlobs ->
     Forall2 (fun pattern g => glob_Compile pattern = inr g)
       (utils_types.wdo_ExcludePatterns opts) excludeGlobs ->
     filepath_Abs (utils_types.wdo_RootPath opts) = inr absRoot ->
     utils_types.wdo_MaxFiles opts <= 0 ->
     filepath_Walk absRoot = pre ++ v :: post ->
     Forall (reachable absRoot) pre ->
     v_err v = Some err \/
     (v_err v = None /\ v_IsDir v = false /\ filepath_Rel absRoot (v_path v) = inl err) ->
     WalkDirectory opts = inl (ErrWalkingDirectory err)).
Proof.
  split; [|split; [|split]].
  - intros pre globs pattern err post Hpat Hpre Hbad. unfold WalkDirectory.
    by rewrite Hpat, (compile_first_invalid _ _ _ _ _ Hpre Hbad).
  - intros includeGlobs pre globs pattern err post Hi%compile_Ok Hpat Hpre Hbad.
    unfold WalkDirectory. by rewrite Hi, Hpat, (compile_first_invalid _ _ _ _ _ Hpre Hbad).
  - intros includeGlobs excludeGlobs err Hi%compile_Ok He%compile_Ok Habs.
    unfold WalkDirectory. by rewrite Hi, He, Habs.
  - intros includeGlobs excludeGlobs absRoot pre v post err Hi%compile_Ok He%compile_Ok
      Habs Hmax Hwalk Hpre Hv.
    unfold WalkDirectory. rewrite Hi, He, Habs, Hwalk, walk_app_unlimited by done.
    cbn [walk]. unfold walkFn.
    destruct Hv as [->|(-> & -> & ->)]; done.
Qed.

End WalkDirectoryTheorems.

Lemma tree_reachable :
  Forall (filewalker.reachable (F := runs.tree) (str "/repo")) runs.repository.
Proof.
  repeat (apply Forall_cons; split; [split; [reflexivity | intros _; by eexists]|]).
  constructor.
Qed.

Lemma WalkDirectory_result_witness :
  filewalker.WalkDirectory (F := runs.tree) (runs.options 1)
  = inr [ {| utils_types.fi_RelativePath := str "flow.go";
             utils_types.fi_Content := str "package flow" |} ] /\
  filewalker.WalkDirectory (F := runs.tree) (runs.options 0)
  = inr [ {| utils_types.fi_RelativePath := str "flow.go";
             utils_types.fi_Content := str "package flow" |};
          {| utils_types.fi_RelativePath := str "node.go";
             utils_types.fi_Content := str "package flow" |} ].
Proof.
  assert (Hi : forall n, Forall2 (fun pattern g => filewalker.glob_Compile (FileSystem := runs.tree) pattern = inr g)
                 (utils_types.wdo_IncludePatterns (runs.options n)) [str ".go"]).
  { intros n. by constructor. }
  assert (He : forall n, Forall2 (fun pattern g => filewalker.glob_Compile (FileSystem := runs.tree) pattern = inr g)
                 (utils_types.wdo_ExcludePatterns (runs.options n)) [str "_test.go"]).
  { intros n. by constructor. }
  split.
  - rewrite (WalkDirectory_result (F := runs.tree) (runs.options 1) _ _ (str "/repo")
               (Hi 1) (He 1) eq_refl tree_reachable).
    vm_compute. reflexivity.
  - rewrite (WalkDirectory_result (F := runs.tree) (runs.options 0) _ _ (str "/repo")
               (Hi 0) (He 0) eq_refl tree_reachable).
    vm_compute. reflexivity.
Defined.

Lemma WalkDirectory_keeps_filters_witness :
  exists files,
    filewalker.WalkDirectory (F := runs.tree) (runs.options 1) = inr files /\
    len files <= 1.
Proof.
  eexists. split; [vm_compute; reflexivity|].
  destruct (WalkDirectory_keeps_filters (F := runs.tree) (runs.options 1) _ eq_refl)
    as (inc & exc & root & _ & _ & _ & _ & Hmax & _).
  apply Hmax. simpl. lia.
Defined.

Lemma WalkDirectory_errors_witness :
  filewalker.WalkDirectory (F := runs.tree)
    {| utils_types.wdo_RootPath := str "repo";
       utils_types.wdo_IncludePatterns := [str "*.go"; str "["];
       utils_types.wdo_ExcludePatterns := [str "["];
       utils_types.wdo_MaxFileSize := 0;
       utils_types.wdo_MaxFiles := 0 |}
  = inl (filewalker.ErrInvalidIncludePattern (str "[") runs.bad_pattern).
Proof.
  eapply (proj1 (WalkDirectory_errors (F := runs.tree) _) [str "*.go"] [str ".go"]).
  - reflexivity.
  - by constructor.
  - reflexivity.
Defined.

(** ** Names without letters or digits *)

Section EmptyNames.
Context {E : Env}.
Import spec.

Lemma collapse_keeps s x : x <> underscore -> x ∈ s -> x ∈ collapse s.
Proof.
  intros Hx. induction s as [|c t IH]; [done|]. cbn [collapse].
  intros [->|Ht]%elem_of_cons.
  - rewrite bool_decide_eq_false_2 by done. cbn [andb]. left.
  - destruct (bool_decide (c = underscore) && starts_with_underscore t); [by apply IH|].
    right. by apply IH.
Qed.

Lemma collapse_subset s x : x ∈ collapse s -> x ∈ s.
Proof.
  induction s as [|c t IH]; [done|]. cbn [collapse].
  destruct (bool_decide (c = underscore) && starts_with_underscore t).
  - intros H. right. by apply IH.
  - intros [->|H]%elem_of_cons; [left | right; by apply IH].
Qed.

Lemma trim_nil_iff s : trim s = [] <-> Forall (fun c => c = underscore) s.
Proof.
  destruct (trim_middle s) as (u1 & u2 & Hu1 & Hu2 & Hs & _). split.
  - intros Ht. rewrite Hs, Ht. cbn [app]. by apply Forall_app.
  - intros Hall. unfold trim. by rewrite (drop_underscores_all s Hall).
Qed.

(** The byte that the first two steps of the sanitization make of an ASCII
    byte. *)
Lemma lowered_mapped_underscore c :
  byte_val c < 128 ->
  byte_of (utils.sanitize_rune
             (byte_val (if strings.isUpperByte (byte_val c)
                        then byte_of (byte_val c + 32) else c))) = underscore
  <-> ~ names.is_alnum c.
Proof.
  intros Hc. pose proof (byte_val_range c) as Hr.
  unfold names.is_alnum, strings.isUpperByte, utils.sanitize_rune.
  destruct ((65 <=? byte_val c) && (byte_val c <=? 90)) eqn:Hup.
  - apply andb_true_iff in Hup as [H1%Z.leb_le H2%Z.leb_le].
    rewrite byte_val_of by lia.
    replace ((97 <=? byte_val c + 32) && (byte_val c + 32 <=? 122)) with true.
    2:{ symmetry. apply andb_true_iff. split; apply Z.leb_le; lia. }
    cbn [orb]. split; [|intros H; exfalso; apply H; lia].
    intros H%(f_equal byte_val). rewrite byte_val_of in H by lia.
    change (byte_val underscore) with 95 in H. lia.
  - assert (Hnu : ~ (65 <= byte_val c <= 90)).
    { intros [H1 H2]. apply andb_false_iff in Hup as [H%Z.leb_gt|H%Z.leb_gt]; lia. }
    destruct (((97 <=? byte_val c) && (byte_val c <=? 122))
              || ((48 <=? byte_val c) && (byte_val c <=? 57))) eqn:Hal.
    + assert (Ha : (97 <= byte_val c <= 122) \/ (48 <= byte_val c <= 57)).
      { apply orb_true_iff in Hal as [H|H]; apply andb_true_iff in H as [H1%Z.leb_le H2%Z.leb_le];
          [left | right]; lia. }
      rewrite byte_of_val. split; [|intros H; exfalso; apply H; tauto].
      intros ->. change (byte_val underscore) with 95 in Ha. lia.
    + split; [|done]. intros _ [H|[H|H]]; [|done|].
      all: apply orb_false_iff in Hal as [H1 H2].
      * apply andb_false_iff in H2 as [H2%Z.leb_gt|H2%Z.leb_gt]; lia.
      * apply andb_false_iff in H1 as [H1%Z.leb_gt|H1%Z.leb_gt]; lia.
Qed.

Lemma ToLower_ascii f s :
  Forall (fun c => byte_val c < 128) s ->
  strings.ToLower f s
  = map (fun c => if strings.isUpperByte (byte_val c)
                  then byte_of (byte_val c + 32) else c) s.
Proof.
  intros Hs. unfold strings.ToLower.
  replace (forallb (fun c => byte_val c <? utf8.RuneSelf) s) with true; [done|].
  symmetry. apply forallb_forall. intros c Hc%list_elem_of_In.
  rewrite Forall_forall in Hs. apply Z.ltb_lt. change utf8.RuneSelf with 128. by apply Hs.
Qed.

Lemma lowered_ascii c :
  byte_val c < 128 ->
  byte_val (if strings.isUpperByte (byte_val c) then byte_of (byte_val c + 32) else c) < 128.
Proof.
  intros Hc. unfold strings.isUpperByte.
  destruct ((65 <=? byte_val c) && (byte_val c <=? 90)) eqn:Hup; [|done].
  apply andb_true_iff in Hup as [H1%Z.leb_le H2%Z.leb_le]. rewrite byte_val_of; lia.
Qed.

Lemma collapse_all_underscores s :
  Forall (fun c => c = underscore) (collapse s) <-> Forall (fun c => c = underscore) s.
Proof.
  rewrite !Forall_forall. split; intros H x Hx.
  - destruct (decide (x = underscore)) as [|Hne]; [done|].
    apply H. by apply collapse_keeps.
  - apply H. by apply collapse_subset.
Qed.

(** X21. The names that sanitize to nothing: an ASCII name has an empty
    sanitization exactly when it holds no letter and no digit (the empty
    name included), and the file of a chapter with such a title is then
    named by the chapter's number alone. *)
Theorem SanitizeFilename_empty (name : gostring) :
  Forall (fun c => byte_val c < 128) name ->
  (utils.SanitizeFilename name = [] <-> Forall (fun c => ~ names.is_alnum c) name) /\
  (forall chapter,
     types.wco_Title chapter = name -> Forall (fun c => ~ names.is_alnum c) name ->
     services.chapter_filename chapter
     = fmt.verb_02d (fmt.AInt (types.wco_ChapterNumber chapter)) ++ str "_.md").
Proof.
  intros Hascii.
  assert (Hiff : utils.SanitizeFilename name = [] <->
                 Forall (fun c => ~ names.is_alnum c) name).
  { rewrite SanitizeFilename_sanitize. unfold sanitize. rewrite trim_nil_iff.
    rewrite collapse_all_underscores.
    rewrite ToLower_ascii by done. unfold map_chars, utf8.range.
    rewrite <- (map_map snd (fun r => byte_of (utils.sanitize_rune r))).
    rewrite range_from_ascii.
    2:{ apply Forall_map. eapply Forall_impl; [exact Hascii|]. apply lowered_ascii. }
    rewrite !map_map. rewrite Forall_map. rewrite !Forall_forall in *.
    split; intros H c Hc.
    - apply (lowered_mapped_underscore c (Hascii c Hc)). by apply H.
    - apply (lowered_mapped_underscore c (Hascii c Hc)). by apply H. }
  split; [exact Hiff|].
  intros chapter Htitle Hnone. rewrite chapter_filename_eq, Htitle.
  by rewrite (proj2 Hiff Hnone).
Qed.

End EmptyNames.

Lemma SanitizeFilename_empty_witness :
  let name := str "?! (...)" in
  Forall (fun c => byte_val c < 128) name /\
  (utils.SanitizeFilename (E := demo.env) name = [] <-> Forall (fun c => ~ names.is_alnum c) name) /\
  (forall chapter,
     types.wco_Title chapter = name -> Forall (fun c => ~ names.is_alnum c) name ->
     services.chapter_filename (E := demo.env) chapter
     = fmt.verb_02d (fmt.AInt (types.wco_ChapterNumber chapter)) ++ str "_.md").
Proof.
  intros name.
  assert (Hascii : Forall (fun c => byte_val c < 128) name).
  { unfold name. repeat constructor. }
  split; [exact Hascii|]. exact (SanitizeFilename_empty (E := demo.env) name Hascii).
Defined.

(** ** The order that the prompt asks for *)

Section RequestedFormat.
Context {E : Env}.

Lemma requested_resolves n vals order :
  spec.in_int_range n -> Forall (fun i => 0 <= i < n) order ->
  Forall2 names.requested vals order -> spec.resolves vals order.
Proof.
  intros Hn Hin Hreq. unfold spec.resolves.
  induction Hreq as [|v i vals order Hv _ IH]; [constructor|].
  apply Forall_cons in Hin as [Hi Hin]. constructor; [|by apply IH].
  destruct Hv as [->|(name & ->)]; [done|].
  apply extractIndex_annotated. unfold spec.in_int_range in *. lia.
Qed.

(** X22. [OrderChapters] accepts the answer its prompt asks for: when the
    decoded list names every abstraction exactly once, each entry being
    the index itself or the index followed by [" # "] and any name, the
    handler succeeds and its order is the order of the list. *)
Theorem OrderChapters_accepts_requested_format
    (input : types.OrderChaptersInput) (w w' : World)
    (prompt response content : gostring) (yamlIndices : list yaml.value)
    (order : list Z) :
  let n := len (types.oci_Abstractions input) in
  n <> 0 -> spec.in_int_range n ->
  services.OrderChapters_prompt input = Ok prompt ->
  services.ask prompt services.OrderChapters_system w = (Ok response, w') ->
  services.yamlContent response = Ok content ->
  yaml_Unmarshal_indices content = inr yamlIndices ->
  Forall2 names.requested yamlIndices order ->
  order ≡ₚ seqZ 0 n ->
  services.OrderChapters input w = (Ok {| types.oco_OrderedIndices := order |}, w').
Proof.
  intros n Hn Hr Hp Ha Hc Hu Hreq Hperm.
  rewrite (OrderChapters_answered input w w' prompt response Hn Hp Ha). f_equal.
  unfold services.order_of_response. rewrite Hc. simpl. rewrite Hu.
  apply validate_order_Ok. split; [|exact Hperm].
  apply (requested_resolves n); [done| |done].
  apply Forall_forall. intros i Hi. rewrite Hperm in Hi.
  apply elem_of_seqZ in Hi. lia.
Qed.

End RequestedFormat.

Lemma OrderChapters_accepts_requested_format_witness :
  services.OrderChapters (E := demo.env) demo.order_input (demo.world 2)
  = (Ok {| types.oco_OrderedIndices := [1; 0] |}, demo.world 3).
Proof.
  assert (H1 : len (types.oci_Abstractions demo.order_input) <> 0) by (by vm_compute).
  assert (H0 : spec.in_int_range (len (types.oci_Abstractions demo.order_input))).
  { unfold spec.in_int_range. change (len (types.oci_Abstractions demo.order_input)) with 2. lia. }
  assert (H2 : services.OrderChapters_prompt demo.order_input
    = Ok (demo.prompt_of (services.OrderChapters_prompt demo.order_input))) by (by vm_compute).
  assert (H3 : services.ask (E := demo.env)
    (demo.prompt_of (services.OrderChapters_prompt demo.order_input))
    services.OrderChapters_system (demo.world 2)
    = (Ok (demo.fenced demo.order_yaml), demo.world 3)) by (by vm_compute).
  assert (H4 : services.yamlContent (demo.fenced demo.order_yaml) = Ok demo.order_yaml)
    by (by vm_compute).
  assert (H5 : yaml_Unmarshal_indices (Env := demo.env) demo.order_yaml = inr demo.yamlIndices)
    by (by vm_compute).
  apply (OrderChapters_accepts_requested_format (E := demo.env) _ _ _ _ _ _ _ [1; 0]
           H1 H0 H2 H3 H4 H5).
  - constructor; [right; by exists (str "Flow")|]. constructor; [by left|constructor].
  - change ([1; 0] ≡ₚ [0; 1]). apply perm_swap.
Defined.
